(** * Edr: hazard risk-assessment editor (src/App - Copie (2).tsx)

    A shallow embedding of the document model of the editor: the
    scoring helpers ([clamp01], [computeR], [riskBadgeClass]), the
    tabular export ([toCsv]), the state updaters behind the UI handlers
    (drop, move, delete, edit, rename, new) and the JSON save/open pair.

    JavaScript numbers are IEEE-754 binary64 values, modelled by Rocq's
    primitive [float]. TypeScript types are erased at run time and
    [onOpen] stores parsed data without validating it, so the document
    is modelled over dynamic [value]s; the declared types appear as
    predicates where a statement needs them. *)

From Stdlib Require Import List String Ascii Bool ZArith Floats.
From Stdlib Require Import DecimalString.
From Stdlib Require Uint63.
From Stdlib Require Import Lia.
Import ListNotations.

Open Scope string_scope.
Open Scope list_scope.

(* ================================================================= *)
(** ** JavaScript values *)

#[warnings="-register-all"]
Inductive value : Type :=
| VUndef
| VNull
| VBool (b : bool)
| VNum (n : float)
| VStr (s : string)
| VArr (items : list value)
| VObj (props : list (string * value)).

(** Objects are property lists in insertion order, one entry per key. *)
Definition object := list (string * value).

Inductive error : Type :=
| TypeError
| SyntaxError (message : string)
| Error (message : string).

(** Outcome of evaluating code that may throw. *)
Inductive completion (A : Type) : Type :=
| Normal (a : A)
| Throw (e : error).

Arguments Normal {A} a.
Arguments Throw {A} e.

Definition bind {A B} (c : completion A) (k : A -> completion B) : completion B :=
  match c with
  | Normal a => k a
  | Throw e => Throw e
  end.

Declare Scope js_scope.
Delimit Scope js_scope with js.
Notation "x <- c ;; k" := (bind c (fun x => k))
  (at level 61, c at next level, right associativity) : js_scope.
Open Scope js_scope.

(** [Array.prototype.map] and [Array.prototype.filter] with a callback
    that may throw: the first exception aborts the traversal. *)
Fixpoint mapM {A B} (f : A -> completion B) (l : list A) : completion (list B) :=
  match l with
  | [] => Normal []
  | a :: l' => b <- f a ;; bs <- mapM f l' ;; Normal (b :: bs)
  end.

Fixpoint filterM {A} (f : A -> completion bool) (l : list A) : completion (list A) :=
  match l with
  | [] => Normal []
  | a :: l' =>
      keep <- f a ;; rest <- filterM f l' ;;
      Normal (if keep then a :: rest else rest)
  end.

(* ----------------------------------------------------------------- *)
(** *** Property access, object literals and spread *)

Fixpoint lookup (k : string) (o : object) : value :=
  match o with
  | [] => VUndef
  | (k', v) :: o' => if String.eqb k k' then v else lookup k o'
  end.

Fixpoint has_key (k : string) (o : object) : bool :=
  match o with
  | [] => false
  | (k', _) :: o' => String.eqb k k' || has_key k o'
  end.

(** [o[k] = v]: an existing key keeps its place, a new key goes last. *)
Fixpoint set (k : string) (v : value) (o : object) : object :=
  match o with
  | [] => [(k, v)]
  | (k', v') :: o' =>
      if String.eqb k k' then (k', v) :: o' else (k', v') :: set k v o'
  end.

(** [Object.assign(o, src)] for a property list [src]. *)
Definition assign (o src : object) : object :=
  fold_left (fun acc kv => set (fst kv) (snd kv) acc) src o.

(** [v.k] for the field names the program reads ([id], [labelId], [S],
    [meta], ...; never [length] or an index): reading from [undefined]
    or [null] throws, any non-object answers [undefined]. *)
Definition getProp (v : value) (k : string) : completion value :=
  match v with
  | VUndef | VNull => Throw TypeError
  | VObj o => Normal (lookup k o)
  | _ => Normal VUndef
  end.

Definition index_key (i : nat) : string :=
  NilEmpty.string_of_uint (Nat.to_uint i).

Fixpoint indexed {A} (f : A -> value) (i : nat) (l : list A) : object :=
  match l with
  | [] => []
  | a :: l' => (index_key i, f a) :: indexed f (S i) l'
  end.

(** Own enumerable properties copied by [{...v}]: those of an object,
    the elements of an array and the characters of a string under their
    indices, nothing for the other primitives. *)
Definition ownProps (v : value) : object :=
  match v with
  | VObj o => o
  | VArr l => indexed (fun x => x) 0 l
  | VStr s => indexed (fun c => VStr (String c EmptyString)) 0 (list_ascii_of_string s)
  | _ => []
  end.

(** [a ?? b] *)
Definition nullish (v : value) : bool :=
  match v with
  | VUndef | VNull => true
  | _ => false
  end.

Definition coalesce (a b : value) : value := if nullish a then b else a.

(** ToBoolean, as used by [!data] and [a || b]. *)
Definition truthy (v : value) : bool :=
  match v with
  | VUndef | VNull => false
  | VBool b => b
  | VNum n => negb (is_zero n || is_nan n)
  | VStr s => negb (String.eqb s "")
  | VArr _ | VObj _ => true
  end.

Definition or_else (a b : value) : value := if truthy a then a else b.

(** [v === s] against a string [s]. *)
Definition strict_eq_str (v : value) (s : string) : bool :=
  match v with
  | VStr t => String.eqb t s
  | _ => false
  end.

Definition typeof_object (v : value) : bool :=
  match v with
  | VNull | VArr _ | VObj _ => true
  | _ => false
  end.

(* ================================================================= *)
(** ** Numbers *)

(** [Math.max] and [Math.min] on two arguments: NaN is contagious and
    [+0] is larger than [-0]. *)
Definition Math_max (a b : float) : float :=
  if is_nan a || is_nan b then nan
  else if (a <? b)%float then b
  else if (b <? a)%float then a
  else if is_zero a && get_sign a then b
  else a.

Definition Math_min (a b : float) : float :=
  if is_nan a || is_nan b then nan
  else if (a <? b)%float then a
  else if (b <? a)%float then b
  else if is_zero b && get_sign b then b
  else a.

(** [function clamp01(n) { return Math.min(1, Math.max(0, n)); }] *)
Definition clamp01 (n : float) : float :=
  Math_min 1 (Math_max 0 n).

(* ================================================================= *)
(** ** Scoring bands *)

Record Thresholds : Type := mkThresholds {
  low : float;
  medium : float;
  high : float
}.

Definition badge_gray := "bg-gray-200 text-gray-800".
Definition badge_green := "bg-green-200 text-green-900".
Definition badge_amber := "bg-amber-200 text-amber-900".
Definition badge_red := "bg-red-200 text-red-900".

(** [[
function riskBadgeClass(value: number | undefined, thresholds: Thresholds) {
  if (value == null) return "bg-gray-200 text-gray-800";
  if (value <= thresholds.low) return "bg-green-200 text-green-900";
  if (value <= thresholds.medium) return "bg-amber-200 text-amber-900";
  return "bg-red-200 text-red-900";
}
]]
    [number | undefined] is an [option float]. *)
Definition riskBadgeClass (value : option float) (thresholds : Thresholds) : string :=
  match value with
  | None => badge_gray
  | Some v =>
      if (v <=? low thresholds)%float then badge_green
      else if (v <=? medium thresholds)%float then badge_amber
      else badge_red
  end.

(** The severity band each badge class displays. *)
Inductive band : Type := BandLow | BandModerate | BandHigh | BandUnknown.

Definition band_of_badge (c : string) : band :=
  if String.eqb c badge_green then BandLow
  else if String.eqb c badge_amber then BandModerate
  else if String.eqb c badge_red then BandHigh
  else BandUnknown.

Definition classify (value : option float) (thresholds : Thresholds) : band :=
  band_of_badge (riskBadgeClass value thresholds).

(* ================================================================= *)
(** ** The project document *)

(** [ProjectState]. Every state the program builds is an object literal
    with these six keys; [labels] and [rows] are always arrays and
    [image] always an object, the other fields hold whatever was loaded. *)
Record ProjectState : Type := mkProject {
  schemaVersion : float;
  meta : value;
  settings : value;
  image : object;
  labels : list value;
  rows : list value
}.

Definition thresholdsValue (t : Thresholds) : value :=
  VObj [("low", VNum (low t)); ("medium", VNum (medium t)); ("high", VNum (high t))].

Definition defaultThresholds : Thresholds := mkThresholds 5 12 25.

Definition defaultSettings : value :=
  VObj [("scoring",
         VObj [("mode", VStr "SP");
               ("scale", VNum 5);
               ("riskFormula", VStr "R=S*P");
               ("thresholds", thresholdsValue defaultThresholds)])].

(** The initial state of [useState]; [createdAt] is the clock reading
    [nowIso()]. *)
Definition initialProject (createdAt : string) : ProjectState :=
  {| schemaVersion := 1;
     meta := VObj [("title", VStr "Evaluation des Risques machine");
                   ("createdAt", VStr createdAt)];
     settings := defaultSettings;
     image := [("displayHeight", VNum 650)];
     labels := [];
     rows := [] |}.

(** [onNew]: settings are carried over, everything else is reset. *)
Definition onNew (createdAt : string) (project : ProjectState) : ProjectState :=
  {| schemaVersion := 1;
     meta := VObj [("title", VStr "Projet EN12100"); ("createdAt", VStr createdAt)];
     settings := settings project;
     image := [("displayHeight", VNum 650)];
     labels := [];
     rows := [] |}.

(** [uid(p)]: the prefix, an underscore and seven base-36 digits drawn
    from [Math.random()], here the argument [rnd]. *)
Definition uid (p rnd : string) : string := p ++ "_" ++ rnd.

(** [img.getBoundingClientRect()] *)
Record DOMRect : Type := mkRect {
  rect_left : float;
  rect_top : float;
  rect_width : float;
  rect_height : float
}.

(** [createRowForLabel]: appends the row linked to a label just built.
    (The [position] string the function computes first is not used.) *)
Definition createRowForLabel (label : object) (rnd : string) (p : ProjectState)
  : ProjectState :=
  let rowId := uid "R" rnd in
  let newRow : object :=
    [("id", VStr rowId);
     ("labelId", lookup "id" label);
     ("danger", lookup "type" label);
     ("scenario", VStr "");
     ("S", VStr "");
     ("P", VStr "");
     ("R", VUndef);
     ("measures", VStr "");
     ("Sr", VStr "");
     ("Pr", VStr "");
     ("Rr", VUndef);
     ("comments", VStr "")] in
  {| schemaVersion := schemaVersion p; meta := meta p; settings := settings p;
     image := image p; labels := labels p;
     rows := rows p ++ [VObj newRow] |}.

Definition appendLabel (label : object) (p : ProjectState) : ProjectState :=
  {| schemaVersion := schemaVersion p; meta := meta p; settings := settings p;
     image := image p;
     labels := labels p ++ [VObj label];
     rows := rows p |}.

(** [handleCanvasDrop]: [danger] is the dragged text, [mounted] the
    image rectangle ([None] when the canvas or the image is not
    mounted), [clientX], [clientY] the pointer. *)
Definition handleCanvasDrop (danger : string) (mounted : option DOMRect)
    (clientX clientY : float) (rndL rndR : string) (p : ProjectState) : ProjectState :=
  if String.eqb danger "" then p
  else match mounted with
       | None => p
       | Some rect =>
           let x := clamp01 ((clientX - rect_left rect) / rect_width rect) in
           let y := clamp01 ((clientY - rect_top rect) / rect_height rect) in
           let label : object :=
             [("id", VStr (uid "L" rndL)); ("type", VStr danger);
              ("x", VNum x); ("y", VNum y)] in
           createRowForLabel label rndR (appendLabel label p)
       end.

(** [handleSideDrop]: a label without coordinates, and its row. *)
Definition handleSideDrop (danger : string) (rndL rndR : string) (p : ProjectState)
  : ProjectState :=
  if String.eqb danger "" then p
  else
    let label : object := [("id", VStr (uid "L" rndL)); ("type", VStr danger)] in
    createRowForLabel label rndR (appendLabel label p).

(** [deleteLabel]; [confirm] is the answer to the dialog, which is asked
    only when some row is linked to the label. *)
Definition deleteLabel (labelId : string) (confirm : bool) (p : ProjectState)
  : completion ProjectState :=
  linked <- filterM (fun r => l <- getProp r "labelId" ;;
                              Normal (strict_eq_str l labelId)) (rows p) ;;
  let removeRows := match linked with [] => false | _ :: _ => confirm end in
  labels' <- filterM (fun l => i <- getProp l "id" ;;
                               Normal (negb (strict_eq_str i labelId))) (labels p) ;;
  rows' <- (if removeRows
            then filterM (fun r => l <- getProp r "labelId" ;;
                                   Normal (negb (strict_eq_str l labelId))) (rows p)
            else Normal (rows p)) ;;
  Normal {| schemaVersion := schemaVersion p; meta := meta p; settings := settings p;
            image := image p; labels := labels'; rows := rows' |}.

(** [updateRow]: [{ ...r, ...patch }] on the rows whose [id] matches. *)
Definition updateRow (rowId : string) (patch : object) (p : ProjectState)
  : completion ProjectState :=
  rows' <- mapM (fun r => i <- getProp r "id" ;;
                          Normal (if strict_eq_str i rowId
                                  then VObj (assign (ownProps r) patch)
                                  else r)) (rows p) ;;
  Normal {| schemaVersion := schemaVersion p; meta := meta p; settings := settings p;
            image := image p; labels := labels p; rows := rows' |}.

(** The title field's [onChange]. *)
Definition renameProject (title : string) (p : ProjectState) : ProjectState :=
  {| schemaVersion := schemaVersion p;
     meta := VObj (set "title" (VStr title) (ownProps (meta p)));
     settings := settings p; image := image p; labels := labels p; rows := rows p |}.

(** Modelled from the spec: [updateThresholds(thresholds)], a "direct
    settings mutator" (section 4.2). The source has no handler that
    changes the settings; the update is written the way the source's
    other updaters are, [settings: {...p.settings, scoring:
    {...p.settings.scoring, thresholds}}]. *)
Definition updateThresholds (t : Thresholds) (p : ProjectState) : completion ProjectState :=
  scoring <- getProp (settings p) "scoring" ;;
  Normal {| schemaVersion := schemaVersion p; meta := meta p;
            settings :=
              VObj (set "scoring"
                      (VObj (set "thresholds" (thresholdsValue t) (ownProps scoring)))
                      (ownProps (settings p)));
            image := image p; labels := labels p; rows := rows p |}.

(** [importLocalImage] and [importRemoteImage], once the file is read. *)
Definition importImage (dataUrl : string) (p : ProjectState) : ProjectState :=
  {| schemaVersion := schemaVersion p; meta := meta p; settings := settings p;
     image := set "dataUrl" (VStr dataUrl) (image p);
     labels := labels p; rows := rows p |}.

(** The layout effect's [update], from the image element's measures. *)
Definition syncImageLayout (clientWidth naturalWidth naturalHeight : float)
    (p : ProjectState) : ProjectState :=
  {| schemaVersion := schemaVersion p; meta := meta p; settings := settings p;
     image :=
       set "naturalHeight"
         (or_else (VNum naturalHeight) (lookup "naturalHeight" (image p)))
         (set "naturalWidth"
            (or_else (VNum naturalWidth) (lookup "naturalWidth" (image p)))
            (set "displayWidth"
               (or_else (VNum clientWidth) (VNum naturalWidth)) (image p)));
     labels := labels p; rows := rows p |}.

(* ================================================================= *)
(** ** Save and open

    An interchange text is represented by the JSON document it spells
    (layout, escapes and the digits of numbers abstracted away; a key
    repeated within an object counted once, with its last value, as
    [JSON.parse] reads it), or marked as not being JSON at all. A
    number literal is represented by the double it reads as. *)

#[warnings="-register-all"]
Inductive json : Type :=
| JNull
| JBool (b : bool)
| JNum (n : float)
| JStr (s : string)
| JArr (items : list json)
| JObj (members : list (string * json)).

Inductive text : Type :=
| Malformed (complaint : string)
| Text (j : json).

(** The literal [JSON.stringify] prints for a finite number: it reads
    back as the same double, negative zero being printed as [0]. *)
Definition number_literal (n : float) : float :=
  if is_zero n then 0%float else n.

(** [JSON.stringify(v)]; [None] is the result [undefined]. A property
    whose value is [undefined] is left out, an [undefined] array element
    and a number that is not finite are written [null]. *)
Fixpoint JSON_stringify (v : value) : option json :=
  match v with
  | VUndef => None
  | VNull => Some JNull
  | VBool b => Some (JBool b)
  | VNum n => Some (if is_finite n then JNum (number_literal n) else JNull)
  | VStr s => Some (JStr s)
  | VArr l =>
      Some (JArr (map (fun x => match JSON_stringify x with
                                | Some j => j
                                | None => JNull
                                end) l))
  | VObj o =>
      Some (JObj ((fix members (o : object) : list (string * json) :=
                     match o with
                     | [] => []
                     | (k, x) :: o' =>
                         match JSON_stringify x with
                         | Some j => (k, j) :: members o'
                         | None => members o'
                         end
                     end) o))
  end.

(** The value [JSON.parse] builds from a document. *)
Fixpoint json_value (j : json) : value :=
  match j with
  | JNull => VNull
  | JBool b => VBool b
  | JNum n => VNum n
  | JStr s => VStr s
  | JArr l => VArr (map json_value l)
  | JObj m => VObj (map (fun kj => let '(k, x) := kj in (k, json_value x)) m)
  end.

Definition JSON_parse (t : text) : completion value :=
  match t with
  | Malformed complaint => Throw (SyntaxError complaint)
  | Text j => Normal (json_value j)
  end.

Definition projectValue (p : ProjectState) : value :=
  VObj [("schemaVersion", VNum (schemaVersion p));
        ("meta", meta p);
        ("settings", settings p);
        ("image", VObj (image p));
        ("labels", VArr (labels p));
        ("rows", VArr (rows p))].

(** [onSave]: the text handed to the download,
    [JSON.stringify(project, null, 2)]. *)
Definition onSave (project : ProjectState) : text :=
  match JSON_stringify (projectValue project) with
  | Some j => Text j
  | None => Text JNull
  end.

Definition array_or_empty (v : value) : list value :=
  match v with
  | VArr l => l
  | _ => []
  end.

(** The body of [onOpen]'s [try] block on the chosen file's text:
[[
const data = JSON.parse(text);
if (!data || typeof data !== "object") throw new Error("Fichier invalide");
setProject((prev) => ({
  schemaVersion: 1,
  meta: data.meta ?? prev.meta,
  settings: data.settings ?? prev.settings,
  image: { displayHeight: 650, ...(data.image || {}) },
  labels: Array.isArray(data.labels) ? data.labels : [],
  rows: Array.isArray(data.rows) ? data.rows : [],
}));
]] *)
Definition loadProject (file : text) (prev : ProjectState) : completion ProjectState :=
  data <- JSON_parse file ;;
  if negb (truthy data) || negb (typeof_object data)
  then Throw (Error "Fichier invalide")
  else
    data_meta <- getProp data "meta" ;;
    data_settings <- getProp data "settings" ;;
    data_image <- getProp data "image" ;;
    data_labels <- getProp data "labels" ;;
    data_rows <- getProp data "rows" ;;
    Normal {| schemaVersion := 1;
              meta := coalesce data_meta (meta prev);
              settings := coalesce data_settings (settings prev);
              image := assign [("displayHeight", VNum 650)]
                         (ownProps (or_else data_image (VObj [])));
              labels := array_or_empty data_labels;
              rows := array_or_empty data_rows |}.

(** The component state [onOpen] writes: the project and the error
    banner. *)
Record AppState : Type := mkApp {
  project : ProjectState;
  banner : option string
}.

(** [e?.message || e] for the errors that reach the [catch]. *)
Definition error_text (e : error) : string :=
  match e with
  | Error m => if String.eqb m "" then "Error" else m
  | SyntaxError m => if String.eqb m "" then "SyntaxError" else m
  | TypeError => "TypeError"
  end.

(** [input.files?.[1] ?? input.files?.[0]] *)
Definition chosenFile (files : list text) : option text :=
  match files with
  | [] => None
  | [f0] => Some f0
  | _ :: f1 :: _ => Some f1
  end.

Definition openText (file : text) (st : AppState) : AppState :=
  match loadProject file (project st) with
  | Normal p => {| project := p; banner := None |}
  | Throw e =>
      {| project := project st;
         banner := Some ("Échec d'ouverture du projet: " ++ error_text e)%string |}
  end.

(** [onOpen], from the files picked in the dialog. *)
Definition onOpen (files : list text) (st : AppState) : AppState :=
  match chosenFile files with
  | None => st
  | Some file => openText file st
  end.

(** The spec's [deserialize(serialize(d))]: saving [d] and opening the
    saved text over the state [st]. *)
Definition reopen (d : ProjectState) (st : AppState) : AppState :=
  onOpen [onSave d] st.

(* ================================================================= *)
(** ** Code that formats or parses numbers

    The number routines of the JavaScript run time are taken as given:
    [Number_toString n] is [String(n)], [Number_toFixed2 n] is
    [n.toFixed(2)] and [StringToNumber s] is [Number(s)] on a string. *)

Definition dquote : ascii := "034"%char.
Definition newline : string := String "010"%char EmptyString.

(** [cell.replaceAll(Q, Q + Q)] for the double-quote character [Q]. *)
Fixpoint replaceAll_quote (s : string) : string :=
  match s with
  | EmptyString => EmptyString
  | String c s' =>
      if Ascii.eqb c dquote
      then String dquote (String dquote (replaceAll_quote s'))
      else String c (replaceAll_quote s')
  end.

Definition csv_headers : list string :=
  ["ID"; "Danger"; "Scénario"; "S"; "P"; "R"; "Mesures"; "Sr"; "Pr"; "Rr";
   "Commentaires"].

Definition optnum (r : option float) : value :=
  match r with
  | Some n => VNum n
  | None => VUndef
  end.

Section Platform.

Variable Number_toString : float -> string.
Variable Number_toFixed2 : float -> string.
Variable StringToNumber : string -> float.

(** [String(v)]. An array joins the strings of its elements with
    commas, in order, [null] and [undefined] elements giving the empty
    string. An object is converted by its [toString] method: the one it
    inherits answers ["[object Object]"]; a property [toString] of its
    own hides that method and, a value of this model never being a
    function, is not callable, and neither is then a [valueOf] of its
    own, while the inherited [valueOf] answers the object itself: the
    conversion throws a [TypeError]. *)
Fixpoint ToString (v : value) : completion string :=
  match v with
  | VUndef => Normal "undefined"
  | VNull => Normal "null"
  | VBool true => Normal "true"
  | VBool false => Normal "false"
  | VNum n => Normal (Number_toString n)
  | VStr s => Normal s
  | VArr l =>
      parts <- (fix elems (l : list value) : completion (list string) :=
                  match l with
                  | [] => Normal []
                  | x :: l' =>
                      part <- (if nullish x then Normal "" else ToString x) ;;
                      parts <- elems l' ;;
                      Normal (part :: parts)
                  end) l ;;
      Normal (String.concat "," parts)
  | VObj o => if has_key "toString" o then Throw TypeError else Normal "[object Object]"
  end.

(** [Number(v)]. An array or an object is first converted to a
    primitive: its [valueOf] (inherited, or its own and not callable)
    gives none, so the conversion goes through [toString] as [String]
    does, and throws where [String] throws. *)
Definition ToNumber (v : value) : completion float :=
  match v with
  | VUndef => Normal nan
  | VNull => Normal 0%float
  | VBool true => Normal 1%float
  | VBool false => Normal 0%float
  | VNum n => Normal n
  | VStr s => Normal (StringToNumber s)
  | VArr _ | VObj _ => s <- ToString v ;; Normal (StringToNumber s)
  end.

(** [[
function computeR(S?: number | "", P?: number | "") {
  if (S === "" || P === "" || S == null || P == null) return undefined;
  const s = Number(S);
  const p = Number(P);
  if (Number.isNaN(s) || Number.isNaN(p)) return undefined;
  return s * p;
}
]] *)
Definition computeR (S P : value) : completion (option float) :=
  if strict_eq_str S "" || strict_eq_str P "" || nullish S || nullish P
  then Normal None
  else
    s <- ToNumber S ;;
    p <- ToNumber P ;;
    Normal (if is_nan s || is_nan p then None else Some (s * p)%float).

(** [enrichRowComputed(row)]: [{ ...row, R, Rr }] *)
Definition enrichRowComputed (row : value) : completion value :=
  rS <- getProp row "S" ;;
  rP <- getProp row "P" ;;
  R <- computeR rS rP ;;
  rSr <- getProp row "Sr" ;;
  rPr <- getProp row "Pr" ;;
  Rr <- computeR rSr rPr ;;
  Normal (VObj (set "Rr" (optnum Rr) (set "R" (optnum R) (ownProps row)))).

(** The inner [map] of [toCsv]: a string is wrapped in quotes with its
    quotes doubled, anything else goes through [String]. *)
Definition csv_cell (cell : value) : completion string :=
  match cell with
  | VStr s => Normal (String dquote (replaceAll_quote s ++ String dquote EmptyString))
  | _ => ToString cell
  end.

(** The eleven cells of a row, in column order. *)
Definition csv_cells (r : value) : completion (list value) :=
  r_id <- getProp r "id" ;;
  r_danger <- getProp r "danger" ;;
  r_scenario <- getProp r "scenario" ;;
  r_S <- getProp r "S" ;;
  r_P <- getProp r "P" ;;
  r_R <- getProp r "R" ;;
  r_measures <- getProp r "measures" ;;
  r_Sr <- getProp r "Sr" ;;
  r_Pr <- getProp r "Pr" ;;
  r_Rr <- getProp r "Rr" ;;
  r_comments <- getProp r "comments" ;;
  Normal [r_id;
          coalesce r_danger (VStr "");
          coalesce r_scenario (VStr "");
          coalesce r_S (VStr "");
          coalesce r_P (VStr "");
          coalesce r_R (VStr "");
          coalesce r_measures (VStr "");
          coalesce r_Sr (VStr "");
          coalesce r_Pr (VStr "");
          coalesce r_Rr (VStr "");
          coalesce r_comments (VStr "")].

Definition csv_line (r : value) : completion string :=
  cells <- csv_cells r ;;
  texts <- mapM csv_cell cells ;;
  Normal (String.concat "," texts).

Definition toCsv (rows : list value) : completion string :=
  lines <- mapM csv_line rows ;;
  Normal (String.concat newline (String.concat "," csv_headers :: lines)).

(** [onExportCsv]: the text handed to the download. *)
Definition onExportCsv (p : ProjectState) : completion string :=
  enriched <- mapM enrichRowComputed (rows p) ;;
  toCsv enriched.

Definition positionText (x y : float) : string :=
  "x=" ++ Number_toFixed2 x ++ ",y=" ++ Number_toFixed2 y.

(** [onMove], the [mousemove] listener [onStartMoveLabel] installs;
    [rect] is the image rectangle read when the drag started. *)
Definition moveLabel (labelId : string) (rect : DOMRect) (clientX clientY : float)
    (p : ProjectState) : completion ProjectState :=
  let x := clamp01 ((clientX - rect_left rect) / rect_width rect) in
  let y := clamp01 ((clientY - rect_top rect) / rect_height rect) in
  labels' <- mapM (fun lb => i <- getProp lb "id" ;;
                             Normal (if strict_eq_str i labelId
                                     then VObj (set "y" (VNum y)
                                                  (set "x" (VNum x) (ownProps lb)))
                                     else lb)) (labels p) ;;
  rows' <- mapM (fun r => l <- getProp r "labelId" ;;
                          Normal (if strict_eq_str l labelId
                                  then VObj (set "position" (VStr (positionText x y))
                                               (ownProps r))
                                  else r)) (rows p) ;;
  Normal {| schemaVersion := schemaVersion p; meta := meta p; settings := settings p;
            image := image p; labels := labels'; rows := rows' |}.

(* ================================================================= *)
(** ** Operations of the document store *)

(** One user event, with what the environment supplies to its handler
    (pointer and layout measures, random id digits, the clock, the
    dialog's answer). *)
Inductive op : Type :=
| CreateDocument (createdAt : string)
| PlaceOnImage (danger : string) (mounted : option DOMRect)
    (clientX clientY : float) (rndL rndR : string)
| PlaceOffImage (danger : string) (rndL rndR : string)
| MoveMarker (labelId : string) (rect : DOMRect) (clientX clientY : float)
| DeleteMarker (labelId : string) (cascadeRows : bool)
| UpdateRow (rowId : string) (patch : object)
| RenameDocument (title : string)
| UpdateThresholds (t : Thresholds)
| ImportImage (dataUrl : string)
| SyncImageLayout (clientWidth naturalWidth naturalHeight : float).

Definition step (o : op) (p : ProjectState) : completion ProjectState :=
  match o with
  | CreateDocument createdAt => Normal (onNew createdAt p)
  | PlaceOnImage danger mounted clientX clientY rndL rndR =>
      Normal (handleCanvasDrop danger mounted clientX clientY rndL rndR p)
  | PlaceOffImage danger rndL rndR => Normal (handleSideDrop danger rndL rndR p)
  | MoveMarker labelId rect clientX clientY => moveLabel labelId rect clientX clientY p
  | DeleteMarker labelId cascadeRows => deleteLabel labelId cascadeRows p
  | UpdateRow rowId patch => updateRow rowId patch p
  | RenameDocument title => Normal (renameProject title p)
  | UpdateThresholds t => updateThresholds t p
  | ImportImage dataUrl => Normal (importImage dataUrl p)
  | SyncImageLayout cw nw nh => Normal (syncImageLayout cw nw nh p)
  end.

Fixpoint run (ops : list op) (p : ProjectState) : completion ProjectState :=
  match ops with
  | [] => Normal p
  | o :: ops' => p' <- step o p ;; run ops' p'
  end.

(* ================================================================= *)
(** ** Predicates used in the statements *)

(** [v.k] where it cannot throw: [undefined] for a non-object. *)
Definition field (k : string) (v : value) : value :=
  match v with
  | VObj o => lookup k o
  | _ => VUndef
  end.

Definition is_record (v : value) : bool :=
  match v with
  | VObj _ => true
  | _ => false
  end.

(** The operand is the empty string, [null] or [undefined]. *)
Definition blank (v : value) : bool :=
  strict_eq_str v "" || nullish v.

(** Nothing in the value stops [String] or [Number]: it is no object
    with a [toString] property of its own and, if an array, holds none. *)
Fixpoint printable (v : value) : bool :=
  match v with
  | VArr l => forallb printable l
  | VObj o => negb (has_key "toString" o)
  | _ => true
  end.

(** The fields of a row that the export reads. *)
Definition stored_columns : list string :=
  ["id"; "danger"; "scenario"; "S"; "P"; "measures"; "Sr"; "Pr"; "comments"].

Definition printable_row (r : value) : bool :=
  forallb (fun k => printable (field k r)) stored_columns.

(** The text is not JSON, or its top-level value is [null], a boolean,
    a number or a string. *)
Definition primitive_text (file : text) : bool :=
  match file with
  | Malformed _ => true
  | Text (JArr _) | Text (JObj _) => false
  | Text _ => true
  end.

(** [v.k === id] *)
Definition mentions (k id : string) (v : value) : bool :=
  strict_eq_str (field k v) id.

(** The updaters' callbacks on an entry that is not [null] or
    [undefined], where reading a property cannot throw. *)
Definition relabel (labelId : string) (x y : float) (lb : value) : value :=
  if mentions "id" labelId lb
  then VObj (set "y" (VNum y) (set "x" (VNum x) (ownProps lb)))
  else lb.

Definition reposition (labelId position : string) (r : value) : value :=
  if mentions "labelId" labelId r
  then VObj (set "position" (VStr position) (ownProps r))
  else r.

Definition patched (rowId : string) (patch : object) (r : value) : value :=
  if mentions "id" rowId r then VObj (assign (ownProps r) patch) else r.

(** No entry of [labels] or [rows] is [null] or [undefined]. *)
Definition no_holes (p : ProjectState) : bool :=
  forallb (fun v => negb (nullish v)) (labels p)
  && forallb (fun v => negb (nullish v)) (rows p).

(** No marker has the id and no row refers to it. *)
Definition marker_unknown (id : string) (p : ProjectState) : bool :=
  forallb (fun lb => negb (mentions "id" id lb)) (labels p)
  && forallb (fun r => negb (mentions "labelId" id r)) (rows p).

(** No row has the id. *)
Definition row_unknown (id : string) (p : ProjectState) : bool :=
  forallb (fun r => negb (mentions "id" id r)) (rows p).

(** The row's [labelId], when it is a string, is the [id] of a label. *)
Definition row_linked (ls : list value) (r : value) : bool :=
  match field "labelId" r with
  | VStr s => existsb (mentions "id" s) ls
  | _ => true
  end.

Definition links_ok (p : ProjectState) : bool :=
  forallb (row_linked (labels p)) (rows p).

(** The operation cannot unlink a row: a delete cascades, and a patch
    does not assign [labelId]. *)
Definition keeps_links (o : op) : bool :=
  match o with
  | DeleteMarker _ cascadeRows => cascadeRows
  | UpdateRow _ patch => negb (has_key "labelId" patch)
  | _ => true
  end.

(** A stored coordinate is absent or a number of [[0, 1]]. *)
Definition coord_ok (v : value) : bool :=
  match v with
  | VUndef => true
  | VNum n => (0 <=? n)%float && (n <=? 1)%float
  | _ => false
  end.

Definition marker_in_range (lb : value) : bool :=
  coord_ok (field "x" lb) && coord_ok (field "y" lb).

(** The pointer's place relative to the image, before clamping. *)
Definition pointer_ratio (client origin extent : float) : float :=
  ((client - origin) / extent)%float.

Definition pointer_defined (rect : DOMRect) (clientX clientY : float) : bool :=
  negb (is_nan (pointer_ratio clientX (rect_left rect) (rect_width rect)))
  && negb (is_nan (pointer_ratio clientY (rect_top rect) (rect_height rect))).

(** The operation maps the pointer to a number (not NaN, the quotient
    of two zeros, as on an image laid out with no width). *)
Definition maps_pointer (o : op) : bool :=
  match o with
  | PlaceOnImage _ (Some rect) clientX clientY _ _ => pointer_defined rect clientX clientY
  | MoveMarker _ rect clientX clientY => pointer_defined rect clientX clientY
  | _ => true
  end.

(** The settings, the labels and the rows are objects, as
    [ProjectState] declares them. *)
Definition shaped (p : ProjectState) : bool :=
  is_record (settings p) && forallb is_record (labels p) && forallb is_record (rows p).

(** The state each updater leaves when no property read throws. *)
Definition moveLabel_result (labelId : string) (rect : DOMRect) (clientX clientY : float)
    (p : ProjectState) : ProjectState :=
  let x := clamp01 (pointer_ratio clientX (rect_left rect) (rect_width rect)) in
  let y := clamp01 (pointer_ratio clientY (rect_top rect) (rect_height rect)) in
  {| schemaVersion := schemaVersion p; meta := meta p; settings := settings p;
     image := image p;
     labels := map (relabel labelId x y) (labels p);
     rows := map (reposition labelId (positionText x y)) (rows p) |}.

Definition deleteLabel_result (labelId : string) (confirm : bool) (p : ProjectState)
  : ProjectState :=
  {| schemaVersion := schemaVersion p; meta := meta p; settings := settings p;
     image := image p;
     labels := filter (fun l => negb (mentions "id" labelId l)) (labels p);
     rows := if match filter (mentions "labelId" labelId) (rows p) with
                | [] => false
                | _ :: _ => confirm
                end
             then filter (fun r => negb (mentions "labelId" labelId r)) (rows p)
             else rows p |}.

Definition updateRow_result (rowId : string) (patch : object) (p : ProjectState)
  : ProjectState :=
  {| schemaVersion := schemaVersion p; meta := meta p; settings := settings p;
     image := image p; labels := labels p;
     rows := map (patched rowId patch) (rows p) |}.

Definition updateThresholds_result (t : Thresholds) (p : ProjectState) : ProjectState :=
  {| schemaVersion := schemaVersion p; meta := meta p;
     settings :=
       VObj (set "scoring"
               (VObj (set "thresholds" (thresholdsValue t)
                        (ownProps (field "scoring" (settings p)))))
               (ownProps (settings p)));
     image := image p; labels := labels p; rows := rows p |}.

(** [step] on a shaped project. *)
Definition next (o : op) (p : ProjectState) : ProjectState :=
  match o with
  | CreateDocument createdAt => onNew createdAt p
  | PlaceOnImage danger mounted clientX clientY rndL rndR =>
      handleCanvasDrop danger mounted clientX clientY rndL rndR p
  | PlaceOffImage danger rndL rndR => handleSideDrop danger rndL rndR p
  | MoveMarker labelId rect clientX clientY => moveLabel_result labelId rect clientX clientY p
  | DeleteMarker labelId cascadeRows => deleteLabel_result labelId cascadeRows p
  | UpdateRow rowId patch => updateRow_result rowId patch p
  | RenameDocument title => renameProject title p
  | UpdateThresholds t => updateThresholds_result t p
  | ImportImage dataUrl => importImage dataUrl p
  | SyncImageLayout cw nw nh => syncImageLayout cw nw nh p
  end.

(** A number that a JSON text carries unchanged: finite, and not the
    negative zero. *)
Definition exact_number (n : float) : bool :=
  is_finite n && PrimFloat.Leibniz.eqb (number_literal n) n.

(** A value that a JSON text carries unchanged: no [undefined], and
    only exact numbers. *)
Fixpoint json_exact (v : value) : bool :=
  match v with
  | VUndef => false
  | VNull | VBool _ | VStr _ => true
  | VNum n => exact_number n
  | VArr l => forallb json_exact l
  | VObj o => forallb (fun kv => json_exact (snd kv)) o
  end.

(** A property value a record may hold: [undefined], or an exact value. *)
Definition storable (v : value) : bool :=
  match v with
  | VUndef => true
  | _ => json_exact v
  end.

Fixpoint unique_keys (o : object) : bool :=
  match o with
  | [] => true
  | (k, _) :: o' => negb (has_key k o') && unique_keys o'
  end.

Definition record_exact (v : value) : bool :=
  match v with
  | VObj o => unique_keys o && forallb (fun kv => storable (snd kv)) o
  | _ => false
  end.

Definition exact_thresholds (t : Thresholds) : bool :=
  exact_number (low t) && exact_number (medium t) && exact_number (high t).

(** The operation passes only values that a JSON text can carry: the
    pointer maps to a number, a patch holds exact values (or
    [undefined]), thresholds are exact numbers. *)
Definition exact_op (o : op) : bool :=
  match o with
  | UpdateRow _ patch => forallb (fun kv => storable (snd kv)) patch
  | UpdateThresholds t => exact_thresholds t
  | _ => maps_pointer o
  end.

Definition exact_project (p : ProjectState) : bool :=
  is_record (meta p) && json_exact (meta p)
  && json_exact (settings p)
  && forallb record_exact (labels p)
  && forallb record_exact (rows p).

(** The two values answer every property read alike. *)
Definition same_fields (a b : value) : Prop :=
  forall k : string, getProp a k = getProp b k.

(** [JSON.parse(JSON.stringify(x))] for an array element [x]. *)
Definition JSON_clone_item (x : value) : value :=
  json_value (match JSON_stringify x with
              | Some j => j
              | None => JNull
              end).

(** The properties [JSON.parse(JSON.stringify(o))] has: those of [o],
    less the ones holding [undefined]. *)
Fixpoint cloned_props (o : object) : object :=
  match o with
  | [] => []
  | (k, x) :: o' =>
      match JSON_stringify x with
      | Some j => (k, json_value j) :: cloned_props o'
      | None => cloned_props o'
      end
  end.

(** A text between double quotes. *)
Definition quoted (s : string) : string :=
  String dquote (s ++ String dquote EmptyString).

(** How a CSV reader decodes the inside of a quoted field: two quotes
    stand for one, a single quote is an error. *)
Fixpoint unescape_quotes (s : string) : option string :=
  match s with
  | EmptyString => Some EmptyString
  | String c s' =>
      if Ascii.eqb c dquote
      then match s' with
           | EmptyString => None
           | String c' s'' =>
               if Ascii.eqb c' dquote
               then option_map (String dquote) (unescape_quotes s'')
               else None
           end
      else option_map (String c) (unescape_quotes s')
  end.

(** A cell read with [?? ""]. *)
Definition csv_optional (v : value) : completion string :=
  csv_cell (coalesce v (VStr "")).

(** The eleven values the export prints for a row, in column order:
    identifier, hazard type, scenario, severity, probability and risk
    before, measures, severity, probability and risk after, comments;
    the stored fields read with [?? ""], the two risks as computed. *)
Definition export_cells (r : value) (R Rr : option float) : list value :=
  [field "id" r;
   coalesce (field "danger" r) (VStr "");
   coalesce (field "scenario" r) (VStr "");
   coalesce (field "S" r) (VStr "");
   coalesce (field "P" r) (VStr "");
   coalesce (optnum R) (VStr "");
   coalesce (field "measures" r) (VStr "");
   coalesce (field "Sr" r) (VStr "");
   coalesce (field "Pr" r) (VStr "");
   coalesce (optnum Rr) (VStr "");
   coalesce (field "comments" r) (VStr "")].

(** The cells of a row, once its two risks are computed from its
    scores. *)
Definition row_cells (r : value) : completion (list value) :=
  R <- computeR (field "S" r) (field "P" r) ;;
  Rr <- computeR (field "Sr" r) (field "Pr" r) ;;
  Normal (export_cells r R Rr).

(** The spec's line for a row: its cells, each printed as [toCsv]
    prints a cell, separated by commas. *)
Definition export_line (r : value) : completion string :=
  cells <- row_cells r ;;
  texts <- mapM csv_cell cells ;;
  Normal (String.concat "," texts).

(* ================================================================= *)
(** ** Data for the closed examples *)

(** Stand-ins for the run time's number routines in the closed examples
    at the end; the theorems hold for every choice of the routines.
    [sample_toString] prints the integer part of a number, which is
    [String(n)] for an integer [n] below 10^21; [sample_toFixed2] is
    [n.toFixed(2)] for a finite [n] below 10^21 (the nearest multiple of
    one hundredth, the larger one on a tie); no example converts a
    string to a number. *)
Definition decimal (z : Z) : string :=
  NilZero.string_of_uint (N.to_uint (Z.to_N z)).

Definition sample_toString (n : float) : string :=
  match Prim2SF n with
  | S754_zero _ => "0"
  | S754_nan => "NaN"
  | S754_infinity s => if s then "-Infinity" else "Infinity"
  | S754_finite s m e =>
      let z := if (0 <=? e)%Z then (Zpos m * 2 ^ e)%Z else (Zpos m / 2 ^ (- e))%Z in
      (if s then "-" else "") ++ decimal z
  end.

Definition sample_toFixed2 (n : float) : string :=
  match Prim2SF n with
  | S754_zero _ => "0.00"
  | S754_nan => "NaN"
  | S754_infinity s => if s then "-Infinity" else "Infinity"
  | S754_finite s m e =>
      let hundredths :=
        if (0 <=? e)%Z then (Zpos m * 100 * 2 ^ e)%Z
        else ((2 * Zpos m * 100 + 2 ^ (- e)) / 2 ^ (- e + 1))%Z in
      let digits := decimal hundredths in
      let digits :=
        match String.length digits with
        | 1 => ("00" ++ digits)%string
        | 2 => ("0" ++ digits)%string
        | _ => digits
        end in
      let whole := String.length digits - 2 in
      (if s then "-" else "")
      ++ substring 0 whole digits ++ "." ++ substring whole 2 digits
  end.

Definition sample_toNumber (s : string) : float := nan.

Definition sample_clock : string := "2024-05-06T07:08:09.000Z".

(** An image laid out 100 by 50 at (10, 10), and one with no extent. *)
Definition sample_rect : DOMRect := mkRect 10 10 100 50.
Definition collapsed_rect : DOMRect := mkRect 0 0 0 0.

(** A fresh project after one hazard was dropped on the image at
    (0.62, 0.41), and after one was dropped beside it. *)
Definition sample_project : ProjectState :=
  handleCanvasDrop "Écrasement" (Some sample_rect) 72 30.5 "k3x9q2a" "p7m1c4z"
    (initialProject sample_clock).

Definition side_project : ProjectState :=
  handleSideDrop "Bruit" "k3x9q2a" "p7m1c4z" (initialProject sample_clock).

(** The side project with its marker deleted and its row kept. *)
Definition unlinked_project : ProjectState :=
  {| schemaVersion := schemaVersion side_project; meta := meta side_project;
     settings := settings side_project; image := image side_project;
     labels := [];
     rows := rows side_project |}.

(** The double of an integer score. *)
Definition ordinal (z : Z) : float := of_uint63 (Uint63.of_Z z).

Definition ten_point_scale : list Z := [1; 2; 3; 4; 5; 6; 7; 8; 9; 10]%Z.

(** The bands in increasing order of severity. *)
Definition band_rank (b : band) : nat :=
  match b with
  | BandLow => 0
  | BandModerate => 1
  | BandHigh => 2
  | BandUnknown => 3
  end.

(* ================================================================= *)
(** ** The hazard library *)

Definition DEFAULT_HAZARDS : list string :=
  ["Écrasement";
   "Cisaillement";
   "Coupure/Sectionnement";
   "Entraînement/Engrenage";
   "Impact/Heurt";
   "Projection/Chute d’objet";
   "Perforation";
   "Coincement";
   "Chute de personne";
   "Bruit";
   "Vibration";
   "Température élevée (brûlure)";
   "Température basse";
   "Électricité (choc)";
   "Substance dangereuse (chimique)";
   "Rayonnement";
   "Atmosphère explosive"].

Definition includes (xs : list string) (x : string) : bool :=
  existsb (String.eqb x) xs.

(** The elements of [xs] not in [seen], each once, in the order of
    their first occurrence. *)
Fixpoint distinct_from (seen xs : list string) : list string :=
  match xs with
  | [] => []
  | x :: xs' =>
      if includes seen x then distinct_from seen xs'
      else x :: distinct_from (x :: seen) xs'
  end.

(** [Array.from(new Set(xs))]: a set iterates in insertion order. *)
Definition Array_from_Set (xs : list string) : list string :=
  distinct_from [] xs.

(** The library's two "add" handlers, on [val], the input's text after
    [trim()]:
    [if (val) setLibrary((lib) => Array.from(new Set([...lib, val])))]. *)
Definition addToLibrary (val : string) (lib : list string) : list string :=
  if String.eqb val "" then lib else Array_from_Set (lib ++ [val]).

(** The [id] fields of a list of labels or rows. *)
Definition ids (l : list value) : list value := map (field "id") l.

(** The random strings that an operation's calls of [uid("L")] and
    [uid("R")] consume: a drop draws one of each, unless it returns
    before (no payload, or the image not mounted). *)
Definition label_draw (o : op) : list string :=
  match o with
  | PlaceOnImage danger (Some _) _ _ rndL _ =>
      if String.eqb danger "" then [] else [rndL]
  | PlaceOffImage danger rndL _ => if String.eqb danger "" then [] else [rndL]
  | _ => []
  end.

Definition row_draw (o : op) : list string :=
  match o with
  | PlaceOnImage danger (Some _) _ _ _ rndR =>
      if String.eqb danger "" then [] else [rndR]
  | PlaceOffImage danger _ rndR => if String.eqb danger "" then [] else [rndR]
  | _ => []
  end.

(** The operation does not assign the [id] of a row. *)
Definition keeps_ids (o : op) : bool :=
  match o with
  | UpdateRow _ patch => negb (has_key "id" patch)
  | _ => true
  end.

(** [v] is the id built from one of the draws [used]. *)
Definition drawn (pre : string) (used : list string) (v : value) : Prop :=
  exists r, In r used /\ v = VStr (uid pre r).

(** [p'] is [p] with the marker [lb] and the row [r] appended, both
    made for the dropped text [danger] from the draws [rndL], [rndR]. *)
Definition appended_pair (danger rndL rndR : string) (p p' : ProjectState)
    (lb r : value) : Prop :=
  labels p' = labels p ++ [lb] /\ rows p' = rows p ++ [r]
  /\ field "id" lb = VStr (uid "L" rndL)
  /\ field "labelId" r = VStr (uid "L" rndL)
  /\ field "id" r = VStr (uid "R" rndR)
  /\ field "type" lb = VStr danger /\ field "danger" r = VStr danger
  /\ computeR (field "S" r) (field "P" r) = Normal None
  /\ computeR (field "Sr" r) (field "Pr" r) = Normal None
  /\ schemaVersion p' = schemaVersion p /\ meta p' = meta p
  /\ settings p' = settings p /\ image p' = image p.

(** The input handler of a score cell:
    [e.target.value === "" ? "" : Number(e.target.value)]. *)
Definition scoreInput (text : string) : value :=
  if String.eqb text "" then VStr "" else VNum (StringToNumber text).

(** The risk of two entered texts: their product as numbers, none when
    a text is empty or is not a number. *)
Definition entered_risk (a b : string) : option float :=
  if String.eqb a "" || String.eqb b ""
     || is_nan (StringToNumber a) || is_nan (StringToNumber b)
  then None
  else Some (StringToNumber a * StringToNumber b)%float.

(** The text a cell stands for: the string itself, or what [String]
    prints for another value. *)
Definition cell_text (v : value) : completion string :=
  match v with
  | VStr s => Normal s
  | _ => ToString v
  end.

(** The texts of the eleven cells of a row. *)
Definition row_texts (r : value) : completion (list string) :=
  cells <- row_cells r ;;
  mapM cell_text cells.

(** A character that is no double quote, comma or line feed. *)
Definition plain_char (c : ascii) : bool :=
  negb (Ascii.eqb c dquote || Ascii.eqb c "," || Ascii.eqb c "010").

Fixpoint plain (s : string) : bool :=
  match s with
  | EmptyString => true
  | String c s' => plain_char c && plain s'
  end.

(** The cell is a string, which [toCsv] quotes, or [String] prints it,
    and without a double quote, comma or line feed. *)
Definition tabular (v : value) : bool :=
  match v with
  | VStr _ => true
  | _ => match ToString v with
         | Normal s => plain s
         | Throw _ => false
         end
  end.

(** The risks of the row compute and its cells are tabular. *)
Definition tabular_row (r : value) : bool :=
  match row_cells r with
  | Normal cells => forallb tabular cells
  | Throw _ => false
  end.

(** *** A reader of comma-separated text

    The reference reader the export is checked against: records are
    separated by line feeds and cells by commas; a double quote opens a
    quoted stretch, in which commas and line feeds are text and two
    double quotes stand for one. The result is built from the end of the
    text: its first record's first cell is the cell being read. *)
Inductive csv_state : Type := Outside | Inside | AfterQuote.

Definition push (c : ascii) (t : list (list string)) : list (list string) :=
  match t with
  | (cell :: cells) :: records => (String c cell :: cells) :: records
  | _ => t
  end.

Definition new_cell (t : list (list string)) : list (list string) :=
  match t with
  | record :: records => (EmptyString :: record) :: records
  | [] => []
  end.

Definition new_record (t : list (list string)) : list (list string) :=
  [EmptyString] :: t.

Fixpoint read_csv_from (st : csv_state) (s : string) : option (list (list string)) :=
  match s with
  | EmptyString =>
      match st with
      | Inside => None
      | _ => Some [[EmptyString]]
      end
  | String c s' =>
      if Ascii.eqb c dquote
      then match st with
           | Outside => read_csv_from Inside s'
           | Inside => read_csv_from AfterQuote s'
           | AfterQuote => option_map (push c) (read_csv_from Inside s')
           end
      else match st with
           | Inside => option_map (push c) (read_csv_from Inside s')
           | _ =>
               if Ascii.eqb c ","
               then option_map new_cell (read_csv_from Outside s')
               else if Ascii.eqb c "010"
                    then option_map new_record (read_csv_from Outside s')
                    else option_map (push c) (read_csv_from Outside s')
           end
  end.

Definition read_csv (s : string) : option (list (list string)) :=
  read_csv_from Outside s.

Fixpoint push_text (t : string) (res : list (list string)) : list (list string) :=
  match t with
  | EmptyString => res
  | String c t' => push c (push_text t' res)
  end.

Fixpoint push_cells (ts : list string) (res : list (list string))
  : list (list string) :=
  match ts with
  | [] => res
  | t :: ts' =>
      push_text t (match ts' with
                   | [] => res
                   | _ :: _ => new_cell (push_cells ts' res)
                   end)
  end.

(** [printed] is how the export writes a cell that stands for [text]:
    between quotes with its quotes doubled, or as it is when it is
    plain. *)
Definition decodes (printed text : string) : Prop :=
  printed = quoted (replaceAll_quote text) \/ (plain printed = true /\ text = printed).

(** [Number(s)] for a string of decimal digits, in the closed examples. *)
Definition sample_digits (s : string) : float :=
  match NilZero.uint_of_string s with
  | Some u => ordinal (Z.of_N (N.of_uint u))
  | None => nan
  end.

(** What follows a cell: the end of the text, a comma or a line feed. *)
Definition delimited (rest : string) : bool :=
  match rest with
  | EmptyString => true
  | String c _ => Ascii.eqb c "," || Ascii.eqb c "010"
  end.

(** The sample project with a scenario that holds a comma and a line
    feed, and the scores 3 and 4. *)
Definition scored_project : ProjectState :=
  updateRow_result "R_p7m1c4z"
    [("scenario", VStr ("doigt, main" ++ newline ++ "bras")%string);
     ("S", VNum 3); ("P", VNum 4)]
    sample_project.

(* ================================================================= *)
(** ** IEEE-754 facts *)

Lemma SFmul_comm (prec emax : Z) (x y : spec_float) :
  SFmul prec emax x y = SFmul prec emax y x.
Proof.
  destruct x as [sx|sx| |sx mx ex], y as [sy|sy| |sy my ey]; simpl;
    try reflexivity; try (now rewrite xorb_comm).
  now rewrite xorb_comm, Pos.mul_comm, Z.add_comm.
Qed.

Lemma float_mul_comm (x y : float) : (x * y)%float = (y * x)%float.
Proof.
  apply Prim2SF_inj. rewrite !mul_spec. apply SFmul_comm.
Qed.

Lemma SFcompare_antisym (x y : spec_float) :
  SFcompare y x =
  match SFcompare x y with Some c => Some (CompOpp c) | None => None end.
Proof.
  destruct x as [sx|sx| |sx mx ex], y as [sy|sy| |sy my ey]; simpl;
    try reflexivity;
    try (destruct sx; reflexivity); try (destruct sy; reflexivity);
    try (destruct sx, sy; reflexivity).
  destruct sx, sy; simpl; try reflexivity.
  - rewrite (Z.compare_antisym ex ey). destruct (ex ?= ey)%Z; simpl; try reflexivity.
    rewrite Pos.compare_cont_antisym, CompOpp_involutive. reflexivity.
  - rewrite (Z.compare_antisym ex ey). destruct (ex ?= ey)%Z; simpl; try reflexivity.
    rewrite Pos.compare_cont_antisym. reflexivity.
Qed.

Lemma SFcompare_None (x y : spec_float) :
  SFcompare x y = None -> x = S754_nan \/ y = S754_nan.
Proof.
  destruct x as [sx|sx| |sx mx ex], y as [sy|sy| |sy my ey]; simpl; auto; discriminate.
Qed.

Lemma SFcompare_refl (x : spec_float) : x <> S754_nan -> SFcompare x x = Some Eq.
Proof.
  destruct x as [sx|sx| |sx mx ex]; simpl; try congruence.
  - destruct sx; reflexivity.
  - intros _. destruct sx; rewrite Z.compare_refl, Pos.compare_cont_refl; reflexivity.
Qed.

Lemma is_nan_Prim2SF (x : float) : is_nan x = true <-> Prim2SF x = S754_nan.
Proof.
  unfold is_nan. rewrite eqb_spec. unfold SFeqb. split.
  - intros H. destruct (Prim2SF x) eqn:E; try reflexivity;
      rewrite SFcompare_refl in H by discriminate; discriminate.
  - intros ->. reflexivity.
Qed.

Lemma float_ltb_leb (x y : float) : (x <? y)%float = true -> (x <=? y)%float = true.
Proof.
  rewrite ltb_spec, leb_spec. unfold SFltb, SFleb.
  destruct (SFcompare _ _) as [[]|]; congruence.
Qed.

Lemma float_ltb_not_leb (x y : float) : (x <? y)%float = true -> (y <=? x)%float = false.
Proof.
  rewrite ltb_spec, leb_spec. unfold SFltb, SFleb.
  rewrite (SFcompare_antisym (Prim2SF x) (Prim2SF y)).
  destruct (SFcompare _ _) as [[]|]; simpl; congruence.
Qed.

Lemma float_ltb_not_nan (x y : float) :
  (x <? y)%float = true -> is_nan x = false /\ is_nan y = false.
Proof.
  rewrite ltb_spec. unfold SFltb. intros H.
  split; apply not_true_is_false; intros N; apply is_nan_Prim2SF in N;
    rewrite N in H; [|destruct (Prim2SF x)]; discriminate.
Qed.

Lemma float_not_ltb_leb (x y : float) :
  is_nan x = false -> is_nan y = false ->
  (x <? y)%float = false -> (y <=? x)%float = true.
Proof.
  intros Hx Hy. rewrite ltb_spec, leb_spec. unfold SFltb, SFleb.
  rewrite (SFcompare_antisym (Prim2SF x) (Prim2SF y)).
  destruct (SFcompare _ _) as [[]|] eqn:E; simpl; try congruence.
  apply SFcompare_None in E. destruct E as [E|E]; apply is_nan_Prim2SF in E; congruence.
Qed.

Lemma float_leb_refl (x : float) : is_nan x = false -> (x <=? x)%float = true.
Proof.
  intros H. rewrite leb_spec. unfold SFleb. rewrite SFcompare_refl; [reflexivity|].
  intros N. apply is_nan_Prim2SF in N. congruence.
Qed.

Lemma float_ltb_not_zero (x : float) : (0 <? x)%float = true -> is_zero x = false.
Proof.
  unfold is_zero, zero. rewrite ltb_spec, eqb_spec. unfold SFltb, SFeqb.
  rewrite (SFcompare_antisym (Prim2SF 0) (Prim2SF x)).
  destruct (SFcompare _ _) as [[]|]; simpl; congruence.
Qed.

Lemma bounded_not_infinity (x : float) :
  (0 <? x)%float = true -> (x <=? 1)%float = true -> is_infinity x = false.
Proof.
  unfold is_infinity. rewrite ltb_spec, leb_spec, eqb_spec, abs_spec.
  unfold SFltb, SFleb, SFeqb.
  replace (Prim2SF 0) with (S754_zero false) by (vm_compute; reflexivity).
  replace (Prim2SF 1) with (S754_finite false 4503599627370496 (-52))
    by (vm_compute; reflexivity).
  replace (Prim2SF infinity) with (S754_infinity false) by (vm_compute; reflexivity).
  destruct (Prim2SF x) as [s|s| |s m e]; cbn [SFabs SFcompare]; try reflexivity.
  destruct s; congruence.
Qed.

(** What [clamp01] returns on a number: one of the two bounds, or its
    argument when that lies between them. *)
Lemma clamp01_cases (n : float) :
  is_nan n = false ->
  clamp01 n = 1%float \/ clamp01 n = 0%float \/
  (clamp01 n = n /\ (0 <? n)%float = true /\ (n <=? 1)%float = true).
Proof.
  intros Hn. unfold clamp01, Math_max.
  replace (is_nan 0) with false by reflexivity. rewrite Hn. cbn [orb].
  destruct (0 <? n)%float eqn:H0.
  - unfold Math_min. replace (is_nan 1) with false by reflexivity.
    rewrite Hn. cbn [orb].
    destruct (1 <? n)%float eqn:H1; [now left|].
    assert (L : (n <=? 1)%float = true) by (apply float_not_ltb_leb; auto).
    destruct (n <? 1)%float; [now right; right|].
    destruct (is_zero n && get_sign n); [now right; right | now left].
  - assert (E : (if (n <? 0)%float then 0%float
               else if is_zero 0 && get_sign 0 then n else 0%float) = 0%float).
    { destruct (n <? 0)%float; reflexivity. }
    rewrite E. right; left. reflexivity.
Qed.

Lemma clamp01_range (n : float) :
  is_nan n = false ->
  (0 <=? clamp01 n)%float = true /\ (clamp01 n <=? 1)%float = true.
Proof.
  intros Hn. destruct (clamp01_cases n Hn) as [E|[E|(E & H0 & H1)]]; rewrite E.
  - split; reflexivity.
  - split; reflexivity.
  - split; [now apply float_ltb_leb | assumption].
Qed.

(* ================================================================= *)
(** ** Scoring engine *)

Lemma value_nested_ind (P : value -> Prop) :
  P VUndef -> P VNull -> (forall b, P (VBool b)) -> (forall n, P (VNum n)) ->
  (forall s, P (VStr s)) ->
  (forall l, Forall P l -> P (VArr l)) ->
  (forall o, Forall (fun kv => P (snd kv)) o -> P (VObj o)) ->
  forall v, P v.
Proof.
  intros HU HN HB HNum HS HA HO. fix IH 1. intros [ | |b|n|s|l|o].
  - exact HU.
  - exact HN.
  - apply HB.
  - apply HNum.
  - apply HS.
  - apply HA. induction l as [|x l IHl]; constructor; [apply IH | exact IHl].
  - apply HO. induction o as [|[k x] o IHo]; constructor; [apply IH | exact IHo].
Qed.

Lemma ToString_cases (v : value) :
  (printable v = true -> exists s, ToString v = Normal s)
  /\ (printable v = false -> ToString v = Throw TypeError).
Proof.
  induction v as [ | |b|n|s|l IH|o IH] using value_nested_ind.
  - split; [intros _; cbn; eauto | intros H; discriminate H].
  - split; [intros _; cbn; eauto | intros H; discriminate H].
  - destruct b; (split; [intros _; cbn; eauto | intros H; discriminate H]).
  - split; [intros _; cbn; eauto | intros H; discriminate H].
  - split; [intros _; cbn; eauto | intros H; discriminate H].
  - cbn [printable ToString].
    match goal with
    | |- context [bind (?f l) _] => set (elems := f)
    end.
    assert (E : (forallb printable l = true -> exists parts, elems l = Normal parts)
                /\ (forallb printable l = false -> elems l = Throw TypeError)).
    { induction IH as [|x l [Hx1 Hx2] _ [IH1 IH2]]; cbn [forallb].
      - split; [intros _; cbn; eauto | intros H; discriminate H].
      - change (elems (x :: l))
          with (part <- (if nullish x then Normal EmptyString else ToString x) ;;
                parts <- elems l ;; Normal (part :: parts)).
        destruct (printable x) eqn:Px; cbn [andb].
        + assert (Hp : exists part,
                     (if nullish x then Normal EmptyString else ToString x)
                     = Normal part).
          { destruct (nullish x); [eauto | now apply Hx1]. }
          destruct Hp as [part ->]. cbn [bind]. split; intros H.
          * destruct (IH1 H) as [parts ->]. cbn [bind]. eauto.
          * now rewrite (IH2 H).
        + split; [intros H; discriminate H | intros _].
          assert (N : nullish x = false) by (destruct x; try discriminate; reflexivity).
          rewrite N, (Hx2 eq_refl). reflexivity. }
    destruct E as [E1 E2]. split; intros H.
    + destruct (E1 H) as [parts ->]. cbn [bind]. eauto.
    + now rewrite (E2 H).
  - cbn [printable ToString]. destruct (has_key "toString" o); cbn [negb].
    + split; [intros H; discriminate H | reflexivity].
    + split; [eauto | intros H; discriminate H].
Qed.

Lemma ToString_TypeError (v : value) (e : error) : ToString v = Throw e -> e = TypeError.
Proof.
  destruct (ToString_cases v) as [H1 H2]. destruct (printable v).
  - destruct (H1 eq_refl) as [s ->]. discriminate.
  - rewrite (H2 eq_refl). congruence.
Qed.

Lemma ToNumber_cases (v : value) :
  (printable v = true -> exists n, ToNumber v = Normal n)
  /\ (printable v = false -> ToNumber v = Throw TypeError).
Proof.
  destruct (ToString_cases v) as [H1 H2].
  destruct v as [ | |b|n|s|l|o].
  - split; [intros _; cbn; eauto | intros H; discriminate H].
  - split; [intros _; cbn; eauto | intros H; discriminate H].
  - destruct b; (split; [intros _; cbn; eauto | intros H; discriminate H]).
  - split; [intros _; cbn; eauto | intros H; discriminate H].
  - split; [intros _; cbn; eauto | intros H; discriminate H].
  - unfold ToNumber. split; intros H.
    + destruct (H1 H) as [s ->]. cbn [bind]. eauto.
    + now rewrite (H2 H).
  - unfold ToNumber. split; intros H.
    + destruct (H1 H) as [s ->]. cbn [bind]. eauto.
    + now rewrite (H2 H).
Qed.

Lemma ToNumber_TypeError (v : value) (e : error) : ToNumber v = Throw e -> e = TypeError.
Proof.
  destruct (ToNumber_cases v) as [H1 H2]. destruct (printable v).
  - destruct (H1 eq_refl) as [s ->]. discriminate.
  - rewrite (H2 eq_refl). congruence.
Qed.

Lemma computeR_comm (a b : value) : computeR a b = computeR b a.
Proof.
  unfold computeR.
  destruct (strict_eq_str a ""), (strict_eq_str b ""), (nullish a), (nullish b);
    cbn [orb]; try reflexivity.
  destruct (ToNumber a) as [x|ea] eqn:Ea, (ToNumber b) as [y|eb] eqn:Eb; cbn [bind];
    try reflexivity.
  - rewrite (orb_comm (is_nan x)).
    destruct (is_nan y || is_nan x); [reflexivity|]. do 2 f_equal. apply float_mul_comm.
  - apply ToNumber_TypeError in Ea, Eb. congruence.
Qed.

Lemma computeR_blank (a b : value) :
  blank a = true \/ blank b = true -> computeR a b = Normal None.
Proof.
  unfold computeR, blank.
  destruct (strict_eq_str a ""), (strict_eq_str b ""), (nullish a), (nullish b);
    cbn [orb]; try reflexivity.
  intros [H|H]; discriminate.
Qed.

Lemma computeR_converted (a b : value) (x y : float) :
  blank a = false -> blank b = false ->
  ToNumber a = Normal x -> ToNumber b = Normal y ->
  computeR a b = Normal (if is_nan x || is_nan y then None else Some (x * y)%float).
Proof.
  unfold computeR, blank. intros Ha Hb Ex Ey.
  apply orb_false_iff in Ha as [Ha1 Ha2]. apply orb_false_iff in Hb as [Hb1 Hb2].
  rewrite Ha1, Ha2, Hb1, Hb2, Ex, Ey. reflexivity.
Qed.

Lemma computeR_throws (a b : value) :
  blank a = false -> blank b = false ->
  printable a = false \/ printable b = false ->
  computeR a b = Throw TypeError.
Proof.
  unfold computeR, blank. intros Ha Hb H.
  apply orb_false_iff in Ha as [Ha1 Ha2]. apply orb_false_iff in Hb as [Hb1 Hb2].
  rewrite Ha1, Ha2, Hb1, Hb2. cbn [orb].
  destruct (ToNumber_cases a) as [A1 A2]. destruct (ToNumber_cases b) as [B1 B2].
  destruct (printable a).
  - destruct (A1 eq_refl) as [x ->]. cbn [bind].
    destruct H as [H|H]; [discriminate|]. now rewrite (B2 H).
  - now rewrite (A2 eq_refl).
Qed.

Lemma computeR_completes (a b : value) :
  printable a = true -> printable b = true -> exists r, computeR a b = Normal r.
Proof.
  intros Pa Pb. unfold computeR.
  destruct (strict_eq_str a "" || strict_eq_str b "" || nullish a || nullish b);
    [eauto|].
  destruct (ToNumber_cases a) as [A _]. destruct (ToNumber_cases b) as [B _].
  destruct (A Pa) as [x ->]. destruct (B Pb) as [y ->]. cbn [bind]. eauto.
Qed.

Lemma computeR_TypeError (a b : value) (e : error) :
  computeR a b = Throw e -> e = TypeError.
Proof.
  unfold computeR.
  destruct (strict_eq_str a "" || strict_eq_str b "" || nullish a || nullish b);
    [discriminate|].
  destruct (ToNumber a) as [x|ea] eqn:Ea; cbn [bind].
  - destruct (ToNumber b) as [y|eb] eqn:Eb; cbn [bind]; [discriminate|].
    intros H. injection H as <-. now apply ToNumber_TypeError in Eb.
  - intros H. injection H as <-. now apply ToNumber_TypeError in Ea.
Qed.

(** C3 (amended): [computeR] is commutative, on every pair of values.
    When an operand is empty ([""], [null], [undefined]) it answers
    "not computable" ([undefined]). On operands that [Number] converts,
    which are all but the objects with a [toString] property of their
    own and the arrays holding one, it answers "not computable" exactly
    when an operand is empty or is not a number (converts to NaN), and
    otherwise the product of the converted operands, which for operands
    of the declared type [number] is the product of the operands
    themselves. On an operand that [Number] does not convert it throws
    a [TypeError], unless the other operand is empty. *)
Theorem computeR_commutative_product (a b : value) :
  computeR a b = computeR b a
  /\ (blank a = true \/ blank b = true -> computeR a b = Normal None)
  /\ (forall x y : float, ToNumber a = Normal x -> ToNumber b = Normal y ->
      (computeR a b = Normal None <->
       blank a = true \/ blank b = true \/ is_nan x = true \/ is_nan y = true)
      /\ (blank a = false -> blank b = false ->
          is_nan x = false -> is_nan y = false ->
          computeR a b = Normal (Some (x * y)%float)))
  /\ (printable a = true -> printable b = true ->
      exists x y, ToNumber a = Normal x /\ ToNumber b = Normal y)
  /\ (blank a = false -> blank b = false ->
      printable a = false \/ printable b = false ->
      computeR a b = Throw TypeError)
  /\ (forall x y : float, a = VNum x -> b = VNum y ->
      (computeR a b = Normal None <-> is_nan x = true \/ is_nan y = true)
      /\ (is_nan x = false -> is_nan y = false ->
          computeR a b = Normal (Some (x * y)%float))).
Proof.
  split; [apply computeR_comm|]. split; [apply computeR_blank|].
  split; [|split; [|split; [apply computeR_throws|]]].
  - intros x y Ex Ey. split.
    + destruct (blank a) eqn:Ba; [split; [auto | intros _; apply computeR_blank; auto]|].
      destruct (blank b) eqn:Bb; [split; [auto | intros _; apply computeR_blank; auto]|].
      rewrite (computeR_converted a b x y Ba Bb Ex Ey).
      destruct (is_nan x), (is_nan y); cbn [orb];
        try (split; [auto | reflexivity]).
      split; [discriminate | intros [H|[H|[H|H]]]; discriminate].
    + intros Ba Bb Hx Hy. rewrite (computeR_converted a b x y Ba Bb Ex Ey).
      now rewrite Hx, Hy.
  - intros Pa Pb.
    destruct (ToNumber_cases a) as [A _]. destruct (ToNumber_cases b) as [B _].
    destruct (A Pa) as [x Ex]. destruct (B Pb) as [y Ey]. eauto.
  - intros x y -> ->. split.
    + rewrite (computeR_converted (VNum x) (VNum y) x y) by reflexivity.
      destruct (is_nan x), (is_nan y); cbn [orb];
        try (split; [auto | reflexivity]).
      split; [discriminate | intros [H|H]; discriminate].
    + intros Hx Hy.
      rewrite (computeR_converted (VNum x) (VNum y) x y) by reflexivity.
      now rewrite Hx, Hy.
Qed.

(** On the ordinal scale the risk of severity 3 and probability 4 is 12. *)
Example computeR_3_4 : computeR (VNum 3) (VNum 4) = Normal (Some 12%float).
Proof. reflexivity. Qed.

(** On integer scores up to ten the product of the doubles is the
    double of the integer product: nothing is rounded. *)
Lemma computeR_exact_on_scale (s p : Z) :
  In s ten_point_scale -> In p ten_point_scale ->
  computeR (VNum (ordinal s)) (VNum (ordinal p)) = Normal (Some (ordinal (s * p))).
Proof.
  intros Hs Hp.
  assert (N : forallb (fun s => negb (is_nan (ordinal s))) ten_point_scale = true)
    by (vm_compute; reflexivity).
  assert (T : forallb (fun s => forallb (fun p =>
                PrimFloat.Leibniz.eqb (ordinal s * ordinal p)%float (ordinal (s * p)))
              ten_point_scale) ten_point_scale = true)
    by (vm_compute; reflexivity).
  rewrite forallb_forall in N, T.
  pose proof (N s Hs) as Ns. pose proof (N p Hp) as Np.
  apply negb_true_iff in Ns, Np.
  specialize (T s Hs). rewrite forallb_forall in T. specialize (T p Hp).
  apply Leibniz.eqb_spec in T.
  unfold computeR. cbn [strict_eq_str nullish orb ToNumber bind].
  rewrite Ns, Np. cbn [orb]. now rewrite T.
Qed.

Lemma classify_low (v : float) (t : Thresholds) :
  (v <=? low t)%float = true -> classify (Some v) t = BandLow.
Proof.
  intros H. unfold classify, riskBadgeClass. rewrite H. reflexivity.
Qed.

Lemma classify_moderate (v : float) (t : Thresholds) :
  (low t <? v)%float = true -> (v <=? medium t)%float = true ->
  classify (Some v) t = BandModerate.
Proof.
  intros H1 H2. unfold classify, riskBadgeClass.
  rewrite (float_ltb_not_leb _ _ H1), H2. reflexivity.
Qed.

Lemma classify_high (v : float) (t : Thresholds) :
  (low t <? v)%float = true -> (medium t <? v)%float = true ->
  classify (Some v) t = BandHigh.
Proof.
  intros H1 H2. unfold classify, riskBadgeClass.
  rewrite (float_ltb_not_leb _ _ H1), (float_ltb_not_leb _ _ H2). reflexivity.
Qed.

(** C7 (amended): a computable risk value [v] is classified low when
    [v <= t.low], moderate when [t.low < v <= t.medium], and high when
    [v] exceeds both [t.medium] and [t.low]; a value equal to
    [t.medium] is moderate whenever [t.low < t.medium], and severity 3
    with probability 4 under thresholds 5 and 12 gives risk 12,
    classified moderate. *)
Theorem classify_bands (v : float) (t : Thresholds) :
  ((v <=? low t)%float = true -> classify (Some v) t = BandLow)
  /\ ((low t <? v)%float = true -> (v <=? medium t)%float = true ->
      classify (Some v) t = BandModerate)
  /\ ((low t <? v)%float = true -> (medium t <? v)%float = true ->
      classify (Some v) t = BandHigh)
  /\ ((low t <? medium t)%float = true -> classify (Some (medium t)) t = BandModerate)
  /\ computeR (VNum 3) (VNum 4) = Normal (Some 12%float)
  /\ classify (Some 12%float) (mkThresholds 5 12 (high t)) = BandModerate.
Proof.
  split; [apply classify_low|]. split; [apply classify_moderate|].
  split; [apply classify_high|]. split; [|split; reflexivity].
  intros H. apply classify_moderate; [assumption|].
  apply float_leb_refl. apply (float_ltb_not_nan _ _ H).
Qed.

(* ================================================================= *)
(** ** Opening a file *)

Lemma loadProject_primitive (file : text) (prev : ProjectState) :
  primitive_text file = true -> exists e, loadProject file prev = Throw e.
Proof.
  unfold loadProject.
  destruct file as [c|[ |b|n|s|l|m]]; cbn [primitive_text JSON_parse bind json_value];
    try discriminate; intros _.
  - eauto.
  - cbn. eauto.
  - replace (typeof_object (VBool b)) with false by reflexivity.
    rewrite orb_true_r. eauto.
  - replace (typeof_object (VNum n)) with false by reflexivity.
    rewrite orb_true_r. eauto.
  - replace (typeof_object (VStr s)) with false by reflexivity.
    rewrite orb_true_r. eauto.
Qed.

(** C8 (amended): when the chosen text is not JSON, or its top-level
    value is [null], a boolean, a number or a string, opening fails:
    the project is left as it was and the error banner is set. *)
Theorem onOpen_rejects_primitives (files : list text) (file : text) (st : AppState) :
  chosenFile files = Some file ->
  primitive_text file = true ->
  project (onOpen files st) = project st
  /\ exists message, banner (onOpen files st) = Some message.
Proof.
  intros Hf Hp. unfold onOpen, openText. rewrite Hf.
  destruct (loadProject_primitive file (project st) Hp) as [e ->].
  cbn. eauto.
Qed.

(** C10: a project that [onOpen] accepts has [schemaVersion] 1,
    whatever the file says. *)
Theorem loadProject_schemaVersion (file : text) (prev d : ProjectState) :
  loadProject file prev = Normal d -> schemaVersion d = 1%float.
Proof.
  unfold loadProject. destruct (JSON_parse file) as [data|e]; cbn; [|discriminate].
  destruct (negb (truthy data) || negb (typeof_object data)); [discriminate|].
  destruct (getProp data "meta"); cbn; [|discriminate].
  destruct (getProp data "settings"); cbn; [|discriminate].
  destruct (getProp data "image"); cbn; [|discriminate].
  destruct (getProp data "labels"); cbn; [|discriminate].
  destruct (getProp data "rows"); cbn; [|discriminate].
  intros E. injection E as <-. reflexivity.
Qed.

(** C5: opening a file whose [image] carries [displayHeight: 100] gives
    a project with display height 100, not 650: the spread in
    [{ displayHeight: 650, ...(data.image || {}) }] comes second and
    overrides the constant. *)
Theorem loadProject_displayHeight_overridden (prev : ProjectState) :
  exists d,
    loadProject (Text (JObj [("image", JObj [("displayHeight", JNum 100)])])) prev
    = Normal d
    /\ lookup "displayHeight" (image d) = VNum 100.
Proof.
  eexists. split; reflexivity.
Qed.

(** Without a [displayHeight] in the file's [image] the constant stays. *)
Lemma loadProject_displayHeight_default (prev : ProjectState) :
  exists d,
    loadProject (Text (JObj [("image", JObj [("dataUrl", JStr "data:,")])])) prev
    = Normal d
    /\ lookup "displayHeight" (image d) = VNum 650.
Proof.
  eexists. split; reflexivity.
Qed.

(* ================================================================= *)
(** ** Property lists *)

Lemma lookup_set_same (k : string) (v : value) (o : object) :
  lookup k (set k v o) = v.
Proof.
  induction o as [|[k' v'] o IH]; cbn.
  - now rewrite String.eqb_refl.
  - destruct (String.eqb k k') eqn:E; cbn; rewrite E; auto.
Qed.

Lemma lookup_set_other (k k' : string) (v : value) (o : object) :
  String.eqb k k' = false -> lookup k (set k' v o) = lookup k o.
Proof.
  intros N. induction o as [|[k0 v0] o IH]; cbn.
  - now rewrite N.
  - destruct (String.eqb k' k0) eqn:E; cbn.
    + apply String.eqb_eq in E. subst k0. now rewrite N.
    + destruct (String.eqb k k0); auto.
Qed.

Lemma lookup_assign_other (k : string) (src o : object) :
  has_key k src = false -> lookup k (assign o src) = lookup k o.
Proof.
  unfold assign. revert o. induction src as [|[k' v'] src IH]; intros o H; cbn in *.
  - reflexivity.
  - apply orb_false_iff in H as [H1 H2]. rewrite IH by assumption.
    now apply lookup_set_other.
Qed.

(* ================================================================= *)
(** ** The updaters on well-formed lists *)

Lemma getProp_present (v : value) (k : string) :
  nullish v = false -> getProp v k = Normal (field k v).
Proof.
  destruct v; cbn; congruence.
Qed.

Lemma mapM_pure {A B} (f : A -> completion B) (g : A -> B) (l : list A) :
  Forall (fun a => f a = Normal (g a)) l -> mapM f l = Normal (map g l).
Proof.
  induction 1 as [|a l Ha _ IH]; cbn; [reflexivity|].
  rewrite Ha. cbn. rewrite IH. reflexivity.
Qed.

Lemma filterM_pure {A} (f : A -> completion bool) (g : A -> bool) (l : list A) :
  Forall (fun a => f a = Normal (g a)) l -> filterM f l = Normal (filter g l).
Proof.
  induction 1 as [|a l Ha _ IH]; cbn; [reflexivity|].
  rewrite Ha. cbn. rewrite IH. reflexivity.
Qed.

Lemma present_Forall (P : value -> Prop) (l : list value) :
  forallb (fun v => negb (nullish v)) l = true ->
  (forall v, nullish v = false -> P v) -> Forall P l.
Proof.
  intros H HP. apply Forall_forall. intros v Hv.
  apply HP. rewrite forallb_forall in H. specialize (H v Hv).
  now apply negb_true_iff in H.
Qed.

Lemma no_holes_labels (p : ProjectState) :
  no_holes p = true -> forallb (fun v => negb (nullish v)) (labels p) = true.
Proof. unfold no_holes. intros H. now apply andb_true_iff in H. Qed.

Lemma no_holes_rows (p : ProjectState) :
  no_holes p = true -> forallb (fun v => negb (nullish v)) (rows p) = true.
Proof. unfold no_holes. intros H. now apply andb_true_iff in H. Qed.

(** On a list without holes a traversal whose callback starts by
    reading the property [k] is the pure traversal [lemma] gives. *)
Ltac pure_traversal lemma holes k :=
  erewrite lemma;
  [ cbn [bind]
  | apply (present_Forall _ _ holes); intros v Hv;
    rewrite (getProp_present v k Hv); cbn [bind]; reflexivity ].

Lemma moveLabel_no_holes (labelId : string) (rect : DOMRect) (cx cy : float)
    (p : ProjectState) :
  no_holes p = true ->
  moveLabel labelId rect cx cy p = Normal (moveLabel_result labelId rect cx cy p).
Proof.
  intros H. unfold moveLabel, moveLabel_result, pointer_ratio. cbv zeta.
  pure_traversal @mapM_pure (no_holes_labels p H) "id".
  pure_traversal @mapM_pure (no_holes_rows p H) "labelId".
  reflexivity.
Qed.

Lemma deleteLabel_no_holes (labelId : string) (confirm : bool) (p : ProjectState) :
  no_holes p = true ->
  deleteLabel labelId confirm p = Normal (deleteLabel_result labelId confirm p).
Proof.
  intros H. unfold deleteLabel, deleteLabel_result.
  pure_traversal @filterM_pure (no_holes_rows p H) "labelId".
  pure_traversal @filterM_pure (no_holes_labels p H) "id".
  change (fun v : value => strict_eq_str (field "labelId" v) labelId)
    with (mentions "labelId" labelId).
  destruct (match filter (mentions "labelId" labelId) (rows p) with
            | [] => false | _ :: _ => confirm end); [|reflexivity].
  pure_traversal @filterM_pure (no_holes_rows p H) "labelId".
  reflexivity.
Qed.

Lemma updateRow_no_holes (rowId : string) (patch : object) (p : ProjectState) :
  no_holes p = true ->
  updateRow rowId patch p = Normal (updateRow_result rowId patch p).
Proof.
  intros H. unfold updateRow, updateRow_result.
  pure_traversal @mapM_pure (no_holes_rows p H) "id".
  reflexivity.
Qed.

(** A hole makes the traversal throw: a file may hold [null] among its
    labels, and moving any marker of the opened project fails. *)
Example moveLabel_throws_on_hole :
  exists p,
    loadProject (Text (JObj [("labels", JArr [JNull])])) (initialProject "") = Normal p
    /\ moveLabel "L_k3x9q2a" (mkRect 0 0 100 50) 10 10 p = Throw TypeError.
Proof.
  eexists. split; reflexivity.
Qed.

Lemma map_fixed {A} (f : A -> A) (l : list A) :
  Forall (fun a => f a = a) l -> map f l = l.
Proof.
  induction 1 as [|a l Ha _ IH]; cbn; congruence.
Qed.

Lemma filter_keep_all {A} (f : A -> bool) (l : list A) :
  forallb f l = true -> filter f l = l.
Proof.
  induction l as [|a l IH]; cbn; [reflexivity|].
  intros H. apply andb_true_iff in H as [Ha Hl]. rewrite Ha, IH; auto.
Qed.

Lemma filter_drop_all {A} (f : A -> bool) (l : list A) :
  forallb (fun a => negb (f a)) l = true -> filter f l = [].
Proof.
  induction l as [|a l IH]; cbn; [reflexivity|].
  intros H. apply andb_true_iff in H as [Ha Hl].
  apply negb_true_iff in Ha. rewrite Ha. auto.
Qed.

Lemma forallb_Forall {A} (f : A -> bool) (P : A -> Prop) (l : list A) :
  forallb f l = true -> (forall a, f a = true -> P a) -> Forall P l.
Proof.
  intros H HP. apply Forall_forall. intros a Ha. apply HP.
  rewrite forallb_forall in H. auto.
Qed.

(* ================================================================= *)
(** ** Mutations addressed to an unknown id *)

Lemma moveLabel_unknown (id : string) (rect : DOMRect) (cx cy : float) (p : ProjectState) :
  no_holes p = true -> marker_unknown id p = true ->
  moveLabel id rect cx cy p = Normal p.
Proof.
  intros H U. rewrite moveLabel_no_holes by assumption.
  apply andb_true_iff in U as [Ul Ur].
  unfold moveLabel_result. cbv zeta. rewrite !map_fixed.
  - destruct p; reflexivity.
  - apply (forallb_Forall _ _ _ Ur). intros r Hr. unfold reposition.
    apply negb_true_iff in Hr. now rewrite Hr.
  - apply (forallb_Forall _ _ _ Ul). intros lb Hl. unfold relabel.
    apply negb_true_iff in Hl. now rewrite Hl.
Qed.

Lemma deleteLabel_unknown (id : string) (confirm : bool) (p : ProjectState) :
  no_holes p = true -> marker_unknown id p = true ->
  deleteLabel id confirm p = Normal p.
Proof.
  intros H U. rewrite deleteLabel_no_holes by assumption.
  apply andb_true_iff in U as [Ul Ur].
  unfold deleteLabel_result.
  rewrite (filter_keep_all _ _ Ul), (filter_drop_all _ _ Ur).
  destruct p; reflexivity.
Qed.

Lemma updateRow_unknown (id : string) (patch : object) (p : ProjectState) :
  no_holes p = true -> row_unknown id p = true ->
  updateRow id patch p = Normal p.
Proof.
  intros H U. rewrite updateRow_no_holes by assumption.
  unfold updateRow_result. rewrite map_fixed.
  - destruct p; reflexivity.
  - apply (forallb_Forall _ _ _ U). intros r Hr. unfold patched.
    apply negb_true_iff in Hr. now rewrite Hr.
Qed.

(** C9 (amended): on a project whose labels and rows hold no [null]
    or [undefined] entry, moving or deleting a marker under an id that
    no marker has and no row refers to, and patching a row under an id
    that no row has, complete without throwing and leave the whole
    project as it was. *)
Theorem unknown_id_is_noop (p : ProjectState) (id : string) :
  no_holes p = true ->
  (marker_unknown id p = true ->
     (forall rect cx cy, moveLabel id rect cx cy p = Normal p)
     /\ (forall cascadeRows, deleteLabel id cascadeRows p = Normal p))
  /\ (row_unknown id p = true -> forall patch, updateRow id patch p = Normal p).
Proof.
  intros H. split.
  - intros U. split; intros.
    + now apply moveLabel_unknown.
    + now apply deleteLabel_unknown.
  - intros U patch. now apply updateRow_unknown.
Qed.

(* ================================================================= *)
(** ** Runs of operations on shaped projects *)

Lemma shaped_parts (p : ProjectState) :
  shaped p = true ->
  is_record (settings p) = true
  /\ forallb is_record (labels p) = true
  /\ forallb is_record (rows p) = true.
Proof.
  unfold shaped. intros H. apply andb_true_iff in H as [H Hr].
  apply andb_true_iff in H as [Hs Hl]. auto.
Qed.

Lemma is_record_present (v : value) : is_record v = true -> negb (nullish v) = true.
Proof. destruct v; cbn; congruence. Qed.

Lemma forallb_impl {A} (f g : A -> bool) (l : list A) :
  (forall a, f a = true -> g a = true) -> forallb f l = true -> forallb g l = true.
Proof.
  intros H. rewrite !forallb_forall. auto.
Qed.

Lemma forallb_map {A B} (f : B -> bool) (g : A -> B) (l : list A) :
  forallb f (map g l) = forallb (fun a => f (g a)) l.
Proof.
  induction l as [|a l IH]; cbn; congruence.
Qed.

Lemma forallb_filter {A} (f g : A -> bool) (l : list A) :
  forallb f l = true -> forallb f (filter g l) = true.
Proof.
  rewrite !forallb_forall. intros H a Ha. apply filter_In in Ha. apply H, Ha.
Qed.

Lemma existsb_map {A B} (f : B -> bool) (g : A -> B) (l : list A) :
  existsb f (map g l) = existsb (fun a => f (g a)) l.
Proof.
  induction l as [|a l IH]; cbn; congruence.
Qed.

Lemma existsb_ext_in {A} (f g : A -> bool) (l : list A) :
  (forall a, In a l -> f a = g a) -> existsb f l = existsb g l.
Proof.
  induction l as [|a l IH]; cbn; intros H; [reflexivity|].
  rewrite (H a) by auto. rewrite IH by auto. reflexivity.
Qed.

Lemma forallb_ext_in {A} (f g : A -> bool) (l : list A) :
  (forall a, In a l -> f a = g a) -> forallb f l = forallb g l.
Proof.
  induction l as [|a l IH]; cbn; intros H; [reflexivity|].
  rewrite (H a) by auto. rewrite IH by auto. reflexivity.
Qed.

Lemma shaped_no_holes (p : ProjectState) : shaped p = true -> no_holes p = true.
Proof.
  intros H. destruct (shaped_parts p H) as (_ & Hl & Hr). unfold no_holes.
  apply andb_true_iff. split; eapply forallb_impl; eauto using is_record_present.
Qed.

Lemma is_record_relabel (id : string) (x y : float) (lb : value) :
  is_record lb = true -> is_record (relabel id x y lb) = true.
Proof. unfold relabel. destruct (mentions "id" id lb); auto. Qed.

Lemma is_record_reposition (id pos : string) (r : value) :
  is_record r = true -> is_record (reposition id pos r) = true.
Proof. unfold reposition. destruct (mentions "labelId" id r); auto. Qed.

Lemma is_record_patched (id : string) (patch : object) (r : value) :
  is_record r = true -> is_record (patched id patch r) = true.
Proof. unfold patched. destruct (mentions "id" id r); auto. Qed.

Lemma step_next (o : op) (p : ProjectState) :
  shaped p = true -> step o p = Normal (next o p).
Proof.
  intros H. pose proof (shaped_no_holes p H) as N.
  destruct o; cbn [step next]; try reflexivity.
  - now apply moveLabel_no_holes.
  - now apply deleteLabel_no_holes.
  - now apply updateRow_no_holes.
  - unfold updateThresholds, updateThresholds_result.
    destruct (shaped_parts p H) as (Hs & _ & _).
    rewrite getProp_present; [reflexivity|].
    destruct (settings p); cbn in *; congruence.
Qed.

Lemma next_shaped (o : op) (p : ProjectState) :
  shaped p = true -> shaped (next o p) = true.
Proof.
  intros H. destruct (shaped_parts p H) as (Hs & Hl & Hr).
  unfold shaped.
  destruct o; cbn [next].
  - cbn. rewrite Hs. reflexivity.
  - unfold handleCanvasDrop. destruct (String.eqb danger ""); [exact H|].
    destruct mounted as [rect|]; [|exact H].
    cbn [createRowForLabel appendLabel settings labels rows].
    rewrite !forallb_app, Hs, Hl, Hr. reflexivity.
  - unfold handleSideDrop. destruct (String.eqb danger ""); [exact H|].
    cbn [createRowForLabel appendLabel settings labels rows].
    rewrite !forallb_app, Hs, Hl, Hr. reflexivity.
  - unfold moveLabel_result. cbn [settings labels rows].
    rewrite !forallb_map, Hs.
    rewrite (forallb_impl _ _ _ (is_record_relabel _ _ _) Hl).
    rewrite (forallb_impl _ _ _ (is_record_reposition _ _) Hr). reflexivity.
  - unfold deleteLabel_result. cbn [settings labels rows].
    rewrite Hs, (forallb_filter _ _ _ Hl).
    destruct (match filter _ (rows p) with [] => false | _ :: _ => cascadeRows end);
      [rewrite (forallb_filter _ _ _ Hr) | rewrite Hr]; reflexivity.
  - unfold updateRow_result. cbn [settings labels rows].
    rewrite forallb_map, Hs, Hl.
    rewrite (forallb_impl _ _ _ (is_record_patched _ _) Hr). reflexivity.
  - cbn [renameProject settings labels rows]. rewrite Hs, Hl, Hr. reflexivity.
  - cbn [updateThresholds_result settings labels rows is_record].
    rewrite Hl, Hr. reflexivity.
  - cbn [importImage settings labels rows]. rewrite Hs, Hl, Hr. reflexivity.
  - cbn [syncImageLayout settings labels rows]. rewrite Hs, Hl, Hr. reflexivity.
Qed.

(** A property of shaped projects that every permitted operation
    preserves holds after every run of permitted operations, and the
    run completes. *)
Lemma run_invariant (I : ProjectState -> Prop) (ok : op -> bool) :
  (forall o p, ok o = true -> shaped p = true -> I p -> I (next o p)) ->
  forall ops p, forallb ok ops = true -> shaped p = true -> I p ->
  exists p', run ops p = Normal p' /\ shaped p' = true /\ I p'.
Proof.
  intros Hstep. induction ops as [|o ops IH]; intros p Hok Hs Hi; cbn [run].
  - eauto.
  - cbn [forallb] in Hok. apply andb_true_iff in Hok as [Ho Hops].
    rewrite (step_next o p Hs). cbn [bind].
    apply IH; auto using next_shaped.
Qed.

Lemma initialProject_shaped (createdAt : string) : shaped (initialProject createdAt) = true.
Proof. reflexivity. Qed.

(* ================================================================= *)
(** ** Rows stay linked to their markers *)

Lemma mentions_record (k id : string) (v : value) :
  mentions k id v = true -> exists o, v = VObj o /\ lookup k o = VStr id.
Proof.
  unfold mentions, field. destruct v; cbn; try discriminate.
  intros H. exists props. split; [reflexivity|].
  destruct (lookup k props); cbn in H; try discriminate.
  apply String.eqb_eq in H. now subst.
Qed.

Lemma mentions_relabel (s id : string) (x y : float) (lb : value) :
  mentions "id" s (relabel id x y lb) = mentions "id" s lb.
Proof.
  unfold relabel. destruct (mentions "id" id lb) eqn:E; [|reflexivity].
  apply mentions_record in E as (o & -> & _).
  unfold mentions. cbn [field ownProps].
  now rewrite !lookup_set_other by reflexivity.
Qed.

Lemma field_reposition (k id pos : string) (r : value) :
  String.eqb k "position" = false ->
  field k (reposition id pos r) = field k r.
Proof.
  intros K. unfold reposition. destruct (mentions "labelId" id r) eqn:E; [|reflexivity].
  apply mentions_record in E as (o & -> & _). cbn [field ownProps].
  now rewrite lookup_set_other by assumption.
Qed.

Lemma field_patched (k id : string) (patch : object) (r : value) :
  has_key k patch = false -> field k (patched id patch r) = field k r.
Proof.
  intros K. unfold patched. destruct (mentions "id" id r) eqn:E; [|reflexivity].
  apply mentions_record in E as (o & -> & _). cbn [field ownProps].
  now apply lookup_assign_other.
Qed.

Lemma row_linked_app (ls extra : list value) (r : value) :
  row_linked ls r = true -> row_linked (ls ++ extra) r = true.
Proof.
  unfold row_linked. destruct (field "labelId" r); auto.
  rewrite existsb_app. intros ->. reflexivity.
Qed.

Lemma links_after_place (label newRow : object) (p : ProjectState) (id : string) :
  lookup "id" label = VStr id ->
  lookup "labelId" newRow = VStr id ->
  forallb (row_linked (labels p)) (rows p) = true ->
  forallb (row_linked (labels p ++ [VObj label])) (rows p ++ [VObj newRow]) = true.
Proof.
  intros Hl Hr H. rewrite forallb_app. apply andb_true_iff. split.
  - eapply forallb_impl; [|exact H]. intros r. apply row_linked_app.
  - cbn [forallb]. rewrite andb_true_r. unfold row_linked. cbn [field]. rewrite Hr.
    rewrite existsb_app. cbn [existsb]. unfold mentions at 2. cbn [field].
    rewrite Hl. cbn [strict_eq_str]. rewrite String.eqb_refl.
    now rewrite orb_true_r.
Qed.

Lemma filter_nil_forallb {A} (f : A -> bool) (l : list A) :
  filter f l = [] -> forallb (fun a => negb (f a)) l = true.
Proof.
  induction l as [|a l IH]; cbn; [reflexivity|].
  destruct (f a); [discriminate|]. auto.
Qed.

(** After a cascading delete no remaining row refers to the deleted id. *)
Lemma deleteLabel_result_rows (id : string) (p : ProjectState) (r : value) :
  In r (rows (deleteLabel_result id true p)) ->
  In r (rows p) /\ mentions "labelId" id r = false.
Proof.
  unfold deleteLabel_result. cbn [rows].
  destruct (filter (mentions "labelId" id) (rows p)) as [|r0 l] eqn:E.
  - intros Hin. split; [assumption|].
    apply filter_nil_forallb in E. rewrite forallb_forall in E.
    apply negb_true_iff. auto.
  - intros Hin. apply filter_In in Hin as [Hin Hm].
    split; [assumption|]. now apply negb_true_iff.
Qed.

Lemma links_next (o : op) (p : ProjectState) :
  keeps_links o = true -> shaped p = true ->
  links_ok p = true -> links_ok (next o p) = true.
Proof.
  unfold links_ok. intros K _ L. destruct o; cbn [next keeps_links] in *.
  - reflexivity.
  - unfold handleCanvasDrop. destruct (String.eqb danger ""); [exact L|].
    destruct mounted as [rect|]; [|exact L].
    cbn [createRowForLabel appendLabel labels rows].
    now apply links_after_place with (id := uid "L" rndL).
  - unfold handleSideDrop. destruct (String.eqb danger ""); [exact L|].
    cbn [createRowForLabel appendLabel labels rows].
    now apply links_after_place with (id := uid "L" rndL).
  - unfold moveLabel_result. cbn [labels rows]. rewrite forallb_map.
    rewrite <- L. apply forallb_ext_in. intros r _. unfold row_linked.
    rewrite field_reposition by reflexivity.
    destruct (field "labelId" r); try reflexivity.
    rewrite existsb_map. apply existsb_ext_in. intros lb _. apply mentions_relabel.
  - subst cascadeRows. apply forallb_forall. intros r Hr.
    apply deleteLabel_result_rows in Hr as [Hr Hm].
    rewrite forallb_forall in L. specialize (L r Hr).
    unfold row_linked in *. unfold mentions in Hm.
    destruct (field "labelId" r) as [ | | | |s| |]; try reflexivity.
    cbn [strict_eq_str] in Hm.
    apply existsb_exists in L as (lb & Hlb & Hs).
    apply existsb_exists. exists lb. split; [|assumption].
    cbn [deleteLabel_result labels]. apply filter_In. split; [assumption|].
    apply mentions_record in Hs as (o & -> & Ho).
    unfold mentions. cbn [field]. rewrite Ho. cbn [strict_eq_str]. now rewrite Hm.
  - unfold updateRow_result. cbn [labels rows]. rewrite forallb_map.
    rewrite <- L. apply forallb_ext_in. intros r _. unfold row_linked.
    apply negb_true_iff in K. now rewrite field_patched by assumption.
  - exact L.
  - exact L.
  - exact L.
  - exact L.
Qed.

(** C2 (amended): starting from a fresh project, every run of store
    operations in which each delete cascades and no row patch assigns
    [labelId] completes, and in the project it reaches every row whose
    [labelId] is a string has a label with that [id]. *)
Theorem rows_stay_linked (ops : list op) (createdAt : string) :
  forallb keeps_links ops = true ->
  exists p, run ops (initialProject createdAt) = Normal p /\ links_ok p = true.
Proof.
  intros H.
  destruct (run_invariant (fun p => links_ok p = true) keeps_links links_next
              ops (initialProject createdAt) H (initialProject_shaped createdAt)
              eq_refl)
    as (p & Hrun & _ & Hl).
  eauto.
Qed.

(* ================================================================= *)
(** ** Marker coordinates *)

Lemma coord_ok_clamp01 (n : float) :
  is_nan n = false -> coord_ok (VNum (clamp01 n)) = true.
Proof.
  intros H. destruct (clamp01_range n H) as [H0 H1]. cbn. now rewrite H0, H1.
Qed.

Lemma pointer_defined_coords (rect : DOMRect) (cx cy : float) :
  pointer_defined rect cx cy = true ->
  coord_ok (VNum (clamp01 (pointer_ratio cx (rect_left rect) (rect_width rect)))) = true
  /\ coord_ok (VNum (clamp01 (pointer_ratio cy (rect_top rect) (rect_height rect)))) = true.
Proof.
  unfold pointer_defined. intros H. apply andb_true_iff in H as [Hx Hy].
  apply negb_true_iff in Hx, Hy. split; now apply coord_ok_clamp01.
Qed.

Lemma marker_in_range_relabel (id : string) (x y : float) (lb : value) :
  coord_ok (VNum x) = true -> coord_ok (VNum y) = true ->
  marker_in_range lb = true -> marker_in_range (relabel id x y lb) = true.
Proof.
  intros Hx Hy H. unfold relabel. destruct (mentions "id" id lb) eqn:E; [|exact H].
  apply mentions_record in E as (o & -> & _).
  unfold marker_in_range. cbn [field ownProps].
  rewrite lookup_set_other by reflexivity. rewrite !lookup_set_same.
  now rewrite Hx, Hy.
Qed.

Lemma range_next (o : op) (p : ProjectState) :
  maps_pointer o = true -> shaped p = true ->
  forallb marker_in_range (labels p) = true ->
  forallb marker_in_range (labels (next o p)) = true.
Proof.
  intros M _ R. destruct o; cbn [next maps_pointer] in *; try exact R.
  - reflexivity.
  - unfold handleCanvasDrop. destruct (String.eqb danger ""); [exact R|].
    destruct mounted as [rect|]; [|exact R].
    cbn [createRowForLabel appendLabel labels].
    rewrite forallb_app, R. cbn [forallb andb].
    destruct (pointer_defined_coords rect clientX clientY M) as [Hx Hy].
    unfold marker_in_range. cbn [field lookup String.eqb Ascii.eqb Bool.eqb].
    unfold pointer_ratio in Hx, Hy. now rewrite Hx, Hy.
  - unfold handleSideDrop. destruct (String.eqb danger ""); [exact R|].
    cbn [createRowForLabel appendLabel labels].
    rewrite forallb_app, R. reflexivity.
  - unfold moveLabel_result. cbn [labels]. rewrite forallb_map.
    destruct (pointer_defined_coords rect clientX clientY M) as [Hx Hy].
    eapply forallb_impl; [|exact R]. intros lb.
    now apply marker_in_range_relabel.
  - unfold deleteLabel_result. cbn [labels]. now apply forallb_filter.
Qed.

(** C6 (amended): starting from a fresh project, every run of store
    operations whose pointer positions map to a number completes, and
    in the project it reaches each marker's [x] and [y] are absent or
    lie within [[0, 1]]. Opening a file is not among these operations:
    it stores the file's labels as they are. *)
Theorem markers_stay_in_range (ops : list op) (createdAt : string) :
  forallb maps_pointer ops = true ->
  exists p,
    run ops (initialProject createdAt) = Normal p
    /\ forallb marker_in_range (labels p) = true.
Proof.
  intros H.
  destruct (run_invariant (fun p => forallb marker_in_range (labels p) = true)
              maps_pointer range_next
              ops (initialProject createdAt) H (initialProject_shaped createdAt)
              eq_refl)
    as (p & Hrun & _ & Hr).
  eauto.
Qed.

(* ================================================================= *)
(** ** What a saved text carries *)

Lemma exact_number_literal (n : float) :
  exact_number n = true -> is_finite n = true /\ number_literal n = n.
Proof.
  unfold exact_number. intros H. apply andb_true_iff in H as [H1 H2].
  split; [assumption|]. now apply Leibniz.eqb_spec.
Qed.

Lemma clamp01_exact (n : float) : is_nan n = false -> exact_number (clamp01 n) = true.
Proof.
  intros Hn. destruct (clamp01_cases n Hn) as [E|[E|(E & H0 & H1)]]; rewrite E.
  - reflexivity.
  - reflexivity.
  - unfold exact_number, is_finite, number_literal.
    rewrite Hn, (bounded_not_infinity n H0 H1), (float_ltb_not_zero n H0). cbn.
    now apply Leibniz.eqb_spec.
Qed.

(** An exact value is read back from its JSON text as it was. *)
Lemma stringify_exact (v : value) :
  json_exact v = true -> option_map json_value (JSON_stringify v) = Some v.
Proof.
  induction v as [ | |b|n|s|l IH|o IH] using value_nested_ind; cbn [json_exact];
    intros E; try discriminate; try reflexivity.
  - apply exact_number_literal in E as [F L]. cbn. rewrite F. cbn. now rewrite L.
  - cbn. do 2 f_equal. rewrite map_map.
    induction IH as [|x l Hx _ IHl]; [reflexivity|].
    cbn [forallb] in E. apply andb_true_iff in E as [Ex El].
    cbn [map]. rewrite IHl by assumption. f_equal.
    specialize (Hx Ex). destruct (JSON_stringify x); cbn in Hx; congruence.
  - cbn. do 2 f_equal.
    induction IH as [|[k x] o Hx _ IHo]; [reflexivity|].
    cbn [forallb snd] in E. apply andb_true_iff in E as [Ex Eo].
    cbn [snd] in Hx. specialize (Hx Ex).
    destruct (JSON_stringify x); cbn in Hx; [|discriminate].
    cbn [map]. rewrite IHo by assumption. congruence.
Qed.

Lemma lookup_absent (k : string) (o : object) :
  has_key k o = false -> lookup k o = VUndef.
Proof.
  induction o as [|[k' v] o IH]; cbn; [reflexivity|].
  intros H. apply orb_false_iff in H as [H1 H2]. rewrite H1. auto.
Qed.

Lemma JSON_clone_record (o : object) :
  JSON_clone_item (VObj o) = VObj (cloned_props o).
Proof.
  unfold JSON_clone_item. cbn. f_equal.
  induction o as [|[k x] o IH]; [reflexivity|].
  cbn [cloned_props]. destruct (JSON_stringify x); cbn [map]; congruence.
Qed.

Lemma has_key_cloned (k : string) (o : object) :
  has_key k o = false -> has_key k (cloned_props o) = false.
Proof.
  induction o as [|[k' x] o IH]; cbn; [reflexivity|].
  intros H. apply orb_false_iff in H as [H1 H2].
  destruct (JSON_stringify x); cbn; [rewrite H1|]; auto.
Qed.

Lemma lookup_cloned (k : string) (o : object) :
  unique_keys o = true -> forallb (fun kv => storable (snd kv)) o = true ->
  lookup k (cloned_props o) = lookup k o.
Proof.
  induction o as [|[k' x] o IH]; cbn [unique_keys forallb snd cloned_props lookup];
    [reflexivity|].
  intros U S. apply andb_true_iff in U as [U1 U2]. apply andb_true_iff in S as [S1 S2].
  apply negb_true_iff in U1.
  destruct x; cbn [storable] in S1;
    try (pose proof (stringify_exact _ S1) as R;
         match type of R with
         | option_map _ ?e = _ => destruct e; cbn in R; [|discriminate]
         end;
         injection R as ->; cbn [lookup]; rewrite IH by assumption; reflexivity).
  cbn [JSON_stringify]. destruct (String.eqb k k') eqn:E.
  - apply String.eqb_eq in E. subst k'.
    apply lookup_absent. now apply has_key_cloned.
  - now apply IH.
Qed.

Lemma clone_record_exact (v : value) :
  record_exact v = true -> same_fields (JSON_clone_item v) v.
Proof.
  destruct v; cbn [record_exact]; try discriminate.
  intros H. apply andb_true_iff in H as [U S].
  rewrite JSON_clone_record. intros k. cbn [getProp]. f_equal.
  now apply lookup_cloned.
Qed.

(* ================================================================= *)
(** ** Exact projects *)

Lemma has_key_set (k k' : string) (v : value) (o : object) :
  has_key k (set k' v o) = String.eqb k k' || has_key k o.
Proof.
  induction o as [|[k0 v0] o IH]; cbn; [reflexivity|].
  destruct (String.eqb k' k0) eqn:E; cbn.
  - apply String.eqb_eq in E. subst k0. now destruct (String.eqb k k').
  - rewrite IH. now destruct (String.eqb k k0), (String.eqb k k').
Qed.

Lemma unique_keys_set (k : string) (v : value) (o : object) :
  unique_keys o = true -> unique_keys (set k v o) = true.
Proof.
  induction o as [|[k0 v0] o IH]; cbn; [reflexivity|].
  intros U. apply andb_true_iff in U as [U1 U2].
  destruct (String.eqb k k0) eqn:E; cbn.
  - now rewrite U1, U2.
  - rewrite has_key_set, String.eqb_sym, E. cbn. rewrite U1. now apply IH.
Qed.

Lemma forallb_set (f : value -> bool) (k : string) (v : value) (o : object) :
  forallb (fun kv => f (snd kv)) o = true -> f v = true ->
  forallb (fun kv => f (snd kv)) (set k v o) = true.
Proof.
  intros H Hv. induction o as [|[k0 v0] o IH]; cbn in *; [now rewrite Hv|].
  apply andb_true_iff in H as [H1 H2].
  destruct (String.eqb k k0); cbn; [now rewrite Hv, H2 | rewrite H1; auto].
Qed.

Lemma unique_keys_assign (o src : object) :
  unique_keys o = true -> unique_keys (assign o src) = true.
Proof.
  unfold assign. revert o. induction src as [|[k v] src IH]; cbn; intros o U;
    [assumption|].
  apply IH. now apply unique_keys_set.
Qed.

Lemma forallb_assign (f : value -> bool) (o src : object) :
  forallb (fun kv => f (snd kv)) o = true ->
  forallb (fun kv => f (snd kv)) src = true ->
  forallb (fun kv => f (snd kv)) (assign o src) = true.
Proof.
  unfold assign. revert o. induction src as [|[k v] src IH]; cbn; intros o Ho Hs;
    [assumption|].
  apply andb_true_iff in Hs as [Hv Hs]. apply IH; [|assumption].
  now apply forallb_set.
Qed.

Lemma record_exact_set (k : string) (v : value) (o : object) :
  record_exact (VObj o) = true -> storable v = true ->
  record_exact (VObj (set k v o)) = true.
Proof.
  cbn [record_exact]. intros H Hv. apply andb_true_iff in H as [U S].
  apply andb_true_iff. split; [now apply unique_keys_set | now apply forallb_set].
Qed.

Lemma record_exact_relabel (id : string) (x y : float) (lb : value) :
  exact_number x = true -> exact_number y = true ->
  record_exact lb = true -> record_exact (relabel id x y lb) = true.
Proof.
  intros Hx Hy H. unfold relabel. destruct (mentions "id" id lb) eqn:E; [|exact H].
  apply mentions_record in E as (o & -> & _). cbn [ownProps].
  apply record_exact_set; [apply record_exact_set|]; assumption.
Qed.

Lemma record_exact_reposition (id pos : string) (r : value) :
  record_exact r = true -> record_exact (reposition id pos r) = true.
Proof.
  intros H. unfold reposition. destruct (mentions "labelId" id r) eqn:E; [|exact H].
  apply mentions_record in E as (o & -> & _). cbn [ownProps].
  now apply record_exact_set.
Qed.

Lemma record_exact_patched (id : string) (patch : object) (r : value) :
  forallb (fun kv => storable (snd kv)) patch = true ->
  record_exact r = true -> record_exact (patched id patch r) = true.
Proof.
  intros Hp H. unfold patched. destruct (mentions "id" id r) eqn:E; [|exact H].
  apply mentions_record in E as (o & -> & _). cbn [ownProps record_exact] in *.
  apply andb_true_iff in H as [U S]. apply andb_true_iff. split.
  - now apply unique_keys_assign.
  - now apply forallb_assign.
Qed.

Lemma json_exact_lookup (k : string) (o : object) :
  forallb (fun kv => json_exact (snd kv)) o = true ->
  lookup k o = VUndef \/ json_exact (lookup k o) = true.
Proof.
  induction o as [|[k' v] o IH]; cbn; [auto|].
  intros H. apply andb_true_iff in H as [Hv Ho].
  destruct (String.eqb k k'); auto.
Qed.

Lemma json_exact_indexed {A} (f : A -> value) (i : nat) (l : list A) :
  (forall a, In a l -> json_exact (f a) = true) ->
  forallb (fun kv => json_exact (snd kv)) (indexed f i l) = true.
Proof.
  revert i. induction l as [|a l IH]; intros i H; cbn; [reflexivity|].
  rewrite H by (left; reflexivity). cbn. apply IH. intros b Hb. apply H. now right.
Qed.

Lemma json_exact_ownProps (v : value) :
  v = VUndef \/ json_exact v = true ->
  forallb (fun kv => json_exact (snd kv)) (ownProps v) = true.
Proof.
  intros [->|H]; [reflexivity|].
  destruct v; cbn [ownProps]; try reflexivity.
  - now apply json_exact_indexed.
  - apply json_exact_indexed. cbn [json_exact] in H.
    rewrite forallb_forall in H. exact H.
  - exact H.
Qed.

Lemma pointer_defined_exact (rect : DOMRect) (cx cy : float) :
  pointer_defined rect cx cy = true ->
  exact_number (clamp01 (pointer_ratio cx (rect_left rect) (rect_width rect))) = true
  /\ exact_number (clamp01 (pointer_ratio cy (rect_top rect) (rect_height rect))) = true.
Proof.
  unfold pointer_defined. intros H. apply andb_true_iff in H as [Hx Hy].
  apply negb_true_iff in Hx, Hy. split; now apply clamp01_exact.
Qed.

Lemma exact_project_parts (p : ProjectState) :
  exact_project p = true ->
  is_record (meta p) = true /\ json_exact (meta p) = true
  /\ json_exact (settings p) = true
  /\ forallb record_exact (labels p) = true
  /\ forallb record_exact (rows p) = true.
Proof.
  unfold exact_project. intros H.
  apply andb_true_iff in H as [H Hr]. apply andb_true_iff in H as [H Hl].
  apply andb_true_iff in H as [H Hs]. apply andb_true_iff in H as [Hmr Hm]. auto.
Qed.

Lemma exact_project_intro (p : ProjectState) :
  is_record (meta p) = true -> json_exact (meta p) = true ->
  json_exact (settings p) = true ->
  forallb record_exact (labels p) = true ->
  forallb record_exact (rows p) = true ->
  exact_project p = true.
Proof.
  unfold exact_project. intros -> -> -> -> ->. reflexivity.
Qed.

Lemma exact_after_place (label newRow : object) (p : ProjectState) :
  record_exact (VObj label) = true -> record_exact (VObj newRow) = true ->
  exact_project p = true ->
  exact_project
    {| schemaVersion := schemaVersion p; meta := meta p; settings := settings p;
       image := image p; labels := labels p ++ [VObj label];
       rows := rows p ++ [VObj newRow] |} = true.
Proof.
  intros Hl Hr H. destruct (exact_project_parts p H) as (Hmr & Hm & Hs & HL & HR).
  apply exact_project_intro; cbn [meta settings labels rows]; try assumption.
  - rewrite forallb_app, HL. cbn [forallb]. now rewrite Hl.
  - rewrite forallb_app, HR. cbn [forallb]. now rewrite Hr.
Qed.

Lemma exact_next (o : op) (p : ProjectState) :
  exact_op o = true -> shaped p = true ->
  exact_project p = true -> exact_project (next o p) = true.
Proof.
  intros E Sh H. destruct (exact_project_parts p H) as (Hmr & Hm & Hs & HL & HR).
  destruct o; cbn [next exact_op maps_pointer] in *.
  - apply exact_project_intro; cbn [onNew meta settings labels rows]; auto.
  - unfold handleCanvasDrop. destruct (String.eqb danger ""); [exact H|].
    destruct mounted as [rect|]; [|exact H].
    destruct (pointer_defined_exact rect clientX clientY E) as [Hx Hy].
    unfold pointer_ratio in Hx, Hy.
    unfold createRowForLabel, appendLabel. cbn [schemaVersion meta settings image labels rows].
    apply exact_after_place; [| |exact H].
    + cbn. now rewrite Hx, Hy.
    + reflexivity.
  - unfold handleSideDrop. destruct (String.eqb danger ""); [exact H|].
    unfold createRowForLabel, appendLabel. cbn [schemaVersion meta settings image labels rows].
    apply exact_after_place; [reflexivity|reflexivity|exact H].
  - destruct (pointer_defined_exact rect clientX clientY E) as [Hx Hy].
    apply exact_project_intro; cbn [moveLabel_result meta settings labels rows]; auto.
    + rewrite forallb_map. eapply forallb_impl; [|exact HL]. intros lb.
      now apply record_exact_relabel.
    + rewrite forallb_map. eapply forallb_impl; [|exact HR]. intros r.
      apply record_exact_reposition.
  - apply exact_project_intro; cbn [deleteLabel_result meta settings labels rows]; auto.
    + now apply forallb_filter.
    + destruct (match filter _ (rows p) with [] => false | _ :: _ => cascadeRows end);
        [now apply forallb_filter | assumption].
  - apply exact_project_intro; cbn [updateRow_result meta settings labels rows]; auto.
    rewrite forallb_map. eapply forallb_impl; [|exact HR]. intros r.
    now apply record_exact_patched.
  - apply exact_project_intro; cbn [renameProject meta settings labels rows]; auto.
    cbn [json_exact]. apply forallb_set; [|reflexivity].
    apply json_exact_ownProps. now right.
  - apply exact_project_intro; cbn [updateThresholds_result meta settings labels rows]; auto.
    destruct (shaped_parts p Sh) as (Sr & _ & _).
    destruct (settings p) as [ | | | | | |o]; try discriminate. cbn [ownProps field].
    cbn [json_exact] in *. apply forallb_set; [assumption|].
    cbn [json_exact]. apply forallb_set.
    + apply json_exact_ownProps. now apply json_exact_lookup.
    + unfold exact_thresholds in E.
      apply andb_true_iff in E as [E E3]. apply andb_true_iff in E as [E1 E2].
      cbn. now rewrite E1, E2, E3.
  - exact H.
  - exact H.
Qed.

Lemma initialProject_exact (createdAt : string) :
  exact_project (initialProject createdAt) = true.
Proof. reflexivity. Qed.

(* ================================================================= *)
(** ** Saving and opening again *)

Lemma coalesce_record (v w : value) : is_record v = true -> coalesce v w = v.
Proof. destruct v; cbn; congruence. Qed.

Lemma loadProject_onSave (d prev : ProjectState) :
  is_record (meta d) = true -> json_exact (meta d) = true ->
  is_record (settings d) = true -> json_exact (settings d) = true ->
  exists d',
    loadProject (onSave d) prev = Normal d'
    /\ meta d' = meta d
    /\ settings d' = settings d
    /\ labels d' = map JSON_clone_item (labels d)
    /\ rows d' = map JSON_clone_item (rows d).
Proof.
  intros Hmr Hm Hsr Hs.
  pose proof (stringify_exact _ Hm) as Em.
  pose proof (stringify_exact _ Hs) as Es.
  destruct (JSON_stringify (meta d)) as [jm|] eqn:Jm; [|discriminate].
  destruct (JSON_stringify (settings d)) as [js|] eqn:Js; [|discriminate].
  cbn in Em, Es. injection Em as Em. injection Es as Es.
  unfold onSave, projectValue. cbn [JSON_stringify]. rewrite Jm, Js.
  unfold loadProject.
  cbn [JSON_parse bind json_value map truthy typeof_object negb orb getProp
       lookup String.eqb Ascii.eqb Bool.eqb array_or_empty].
  rewrite Em, Es, !map_map.
  rewrite (coalesce_record _ _ Hmr), (coalesce_record _ _ Hsr).
  eexists. split; [reflexivity|]. cbn [meta settings labels rows].
  repeat split; reflexivity.
Qed.

Lemma clone_records (l : list value) :
  forallb record_exact l = true -> Forall2 same_fields (map JSON_clone_item l) l.
Proof.
  induction l as [|v l IH]; cbn [forallb map]; intros H; constructor;
    apply andb_true_iff in H as [Hv Hl]; [now apply clone_record_exact | auto].
Qed.

Lemma reopen_exact (d : ProjectState) (st : AppState) :
  shaped d = true -> exact_project d = true ->
  banner (reopen d st) = None
  /\ meta (project (reopen d st)) = meta d
  /\ settings (project (reopen d st)) = settings d
  /\ Forall2 same_fields (labels (project (reopen d st))) (labels d)
  /\ Forall2 same_fields (rows (project (reopen d st))) (rows d).
Proof.
  intros Sh H. destruct (exact_project_parts d H) as (Hmr & Hm & Hs & HL & HR).
  destruct (shaped_parts d Sh) as (Hsr & _ & _).
  destruct (loadProject_onSave d (project st) Hmr Hm Hsr Hs)
    as (d' & E & Em & Es & El & Er).
  unfold reopen, onOpen, openText. cbn [chosenFile]. rewrite E.
  cbn [project banner]. rewrite Em, Es, El, Er.
  repeat split; auto using clone_records.
Qed.

(** C1 (amended): starting from a fresh project, every run of store
    operations that pass only values a JSON text can carry (the pointer
    maps to a number; patches and thresholds hold finite numbers other
    than negative zero, strings, or [undefined]) completes, and saving
    the project it reaches and opening the saved text gives a project
    with the same [meta] and [settings] and with labels and rows that
    answer every property read as the saved ones do. *)
Theorem reopen_preserves (ops : list op) (createdAt : string) (st : AppState) :
  forallb exact_op ops = true ->
  exists d,
    run ops (initialProject createdAt) = Normal d
    /\ banner (reopen d st) = None
    /\ meta (project (reopen d st)) = meta d
    /\ settings (project (reopen d st)) = settings d
    /\ Forall2 same_fields (labels (project (reopen d st))) (labels d)
    /\ Forall2 same_fields (rows (project (reopen d st))) (rows d).
Proof.
  intros H.
  destruct (run_invariant (fun p => exact_project p = true) exact_op exact_next
              ops (initialProject createdAt) H (initialProject_shaped createdAt)
              (initialProject_exact createdAt))
    as (d & Hrun & Sh & Hd).
  exists d. split; [assumption|]. now apply reopen_exact.
Qed.

(* ================================================================= *)
(** ** Tabular export *)

Lemma unescape_replaceAll (s : string) :
  unescape_quotes (replaceAll_quote s) = Some s.
Proof.
  induction s as [|c s IH]; [reflexivity|].
  cbn [replaceAll_quote]. destruct (Ascii.eqb c dquote) eqn:E.
  - apply Ascii.eqb_eq in E. subst c.
    cbn [unescape_quotes]. rewrite Ascii.eqb_refl, IH. reflexivity.
  - cbn [unescape_quotes]. rewrite E, IH. reflexivity.
Qed.

Lemma mapM_total {A B} (f : A -> completion B) (l : list A) :
  Forall (fun a => exists b, f a = Normal b) l -> exists bs, mapM f l = Normal bs.
Proof.
  induction 1 as [|a l [b Hb] _ [bs IH]]; cbn [mapM]; [eauto|].
  rewrite Hb. cbn [bind]. rewrite IH. cbn [bind]. eauto.
Qed.

Lemma mapM_Normal {A B} (f : A -> completion B) (l : list A) (bs : list B) :
  mapM f l = Normal bs -> Forall (fun a => exists b, f a = Normal b) l.
Proof.
  revert bs. induction l as [|a l IH]; intros bs; cbn [mapM]; [constructor|].
  destruct (f a) as [b|e] eqn:E; cbn [bind]; [|discriminate].
  destruct (mapM f l) as [bs'|e] eqn:El; cbn [bind]; [|discriminate].
  intros _. constructor; eauto.
Qed.

Lemma mapM_TypeError {A B} (f : A -> completion B) (l : list A) (e : error) :
  (forall a e', f a = Throw e' -> e' = TypeError) ->
  mapM f l = Throw e -> e = TypeError.
Proof.
  intros Hf. induction l as [|a l IH]; cbn [mapM]; [discriminate|].
  destruct (f a) as [b|e'] eqn:E; cbn [bind].
  - destruct (mapM f l) as [bs|e'] eqn:El; cbn [bind]; [discriminate|].
    intros H. injection H as <-. now apply IH.
  - intros H. injection H as <-. now apply (Hf a).
Qed.

Lemma bind_bind {A B C} (m : completion A) (f : A -> completion B)
    (g : B -> completion C) :
  bind (bind m f) g = bind m (fun a => bind (f a) g).
Proof. now destruct m. Qed.

Lemma csv_cell_cases (v : value) :
  (printable v = true -> exists s, csv_cell v = Normal s)
  /\ (printable v = false -> csv_cell v = Throw TypeError).
Proof.
  destruct (ToString_cases v) as [H1 H2].
  destruct v; try (split; assumption).
  split; [intros _; cbn; eauto | intros H; discriminate H].
Qed.

Lemma csv_cell_TypeError (v : value) (e : error) : csv_cell v = Throw e -> e = TypeError.
Proof.
  destruct v; cbn [csv_cell]; try apply ToString_TypeError. discriminate.
Qed.

Lemma enrichRowComputed_record (o : object) :
  enrichRowComputed (VObj o) =
  (R <- computeR (lookup "S" o) (lookup "P" o) ;;
   Rr <- computeR (lookup "Sr" o) (lookup "Pr" o) ;;
   Normal (VObj (set "Rr" (optnum Rr) (set "R" (optnum R) o)))).
Proof. reflexivity. Qed.

Lemma enrichRowComputed_TypeError (v : value) (e : error) :
  enrichRowComputed v = Throw e -> e = TypeError.
Proof.
  unfold enrichRowComputed. destruct (nullish v) eqn:N.
  - destruct v; try discriminate; cbn; congruence.
  - rewrite !(getProp_present v _ N). cbn [bind].
    destruct (computeR (field "S" v) (field "P" v)) as [R|e1] eqn:E1; cbn [bind].
    + destruct (computeR (field "Sr" v) (field "Pr" v)) as [Rr|e2] eqn:E2; cbn [bind];
        [discriminate|].
      intros H. injection H as <-. now apply computeR_TypeError in E2.
    + intros H. injection H as <-. now apply computeR_TypeError in E1.
Qed.

Lemma csv_line_enriched (o : object) (R Rr : option float) :
  csv_line (VObj (set "Rr" (optnum Rr) (set "R" (optnum R) o))) =
  (texts <- mapM csv_cell (export_cells (VObj o) R Rr) ;;
   Normal (String.concat "," texts)).
Proof.
  unfold csv_line, csv_cells. cbn [getProp bind].
  rewrite lookup_set_same.
  rewrite !(lookup_set_other _ "Rr") by reflexivity.
  rewrite lookup_set_same.
  rewrite !(lookup_set_other _ "R") by reflexivity.
  reflexivity.
Qed.

Lemma csv_line_TypeError (v : value) (e : error) : csv_line v = Throw e -> e = TypeError.
Proof.
  unfold csv_line, csv_cells. destruct (nullish v) eqn:N.
  - destruct v; try discriminate; cbn; congruence.
  - rewrite !(getProp_present v _ N). cbn [bind].
    match goal with
    | |- context [mapM csv_cell ?cells] =>
        destruct (mapM csv_cell cells) as [texts|e'] eqn:E; cbn [bind]
    end; [discriminate|].
    intros H. injection H as <-.
    apply (mapM_TypeError csv_cell _ _ csv_cell_TypeError E).
Qed.

(** The line the export prints for a record is the spec's line. *)
Lemma export_line_record (o : object) :
  export_line (VObj o) = bind (enrichRowComputed (VObj o)) csv_line.
Proof.
  unfold export_line, row_cells. rewrite enrichRowComputed_record. cbn [field].
  destruct (computeR (lookup "S" o) (lookup "P" o)) as [R|e]; cbn [bind]; [|reflexivity].
  destruct (computeR (lookup "Sr" o) (lookup "Pr" o)) as [Rr|e]; cbn [bind];
    [|reflexivity].
  now rewrite csv_line_enriched.
Qed.

Lemma export_line_TypeError (r : value) (e : error) :
  export_line r = Throw e -> e = TypeError.
Proof.
  unfold export_line, row_cells.
  destruct (computeR (field "S" r) (field "P" r)) as [R|e1] eqn:E1; cbn [bind].
  - destruct (computeR (field "Sr" r) (field "Pr" r)) as [Rr|e2] eqn:E2; cbn [bind].
    + destruct (mapM csv_cell (export_cells r R Rr)) as [texts|e3] eqn:E3; cbn [bind];
        [discriminate|].
      intros H. injection H as <-.
      apply (mapM_TypeError csv_cell _ _ csv_cell_TypeError E3).
    + intros H. injection H as <-. now apply computeR_TypeError in E2.
  - intros H. injection H as <-. now apply computeR_TypeError in E1.
Qed.

Lemma export_lines (l : list value) :
  forallb is_record l = true ->
  bind (mapM enrichRowComputed l) (mapM csv_line) = mapM export_line l.
Proof.
  induction l as [|r l IH]; cbn [forallb]; intros H; [reflexivity|].
  apply andb_true_iff in H as [Hr Hl]. specialize (IH Hl).
  destruct r as [ | | | | | |o]; try discriminate.
  cbn [mapM]. rewrite export_line_record, <- IH.
  destruct (enrichRowComputed (VObj o)) as [r'|e]; cbn [bind]; [|reflexivity].
  destruct (mapM enrichRowComputed l) as [enriched|e] eqn:E; cbn [bind mapM].
  - reflexivity.
  - destruct (csv_line r') as [line|e'] eqn:E'; cbn [bind]; [reflexivity|].
    apply csv_line_TypeError in E'.
    apply (mapM_TypeError _ _ _ enrichRowComputed_TypeError) in E. congruence.
Qed.

Lemma onExportCsv_lines (p : ProjectState) :
  forallb is_record (rows p) = true ->
  onExportCsv p =
    (lines <- mapM export_line (rows p) ;;
     Normal (String.concat newline (String.concat "," csv_headers :: lines))).
Proof.
  intros H. unfold onExportCsv, toCsv. rewrite <- (export_lines (rows p) H).
  now rewrite bind_bind.
Qed.

Lemma printable_coalesce (v : value) :
  printable (coalesce v (VStr "")) = printable v.
Proof. now destruct v. Qed.

Lemma printable_cells (r : value) (R Rr : option float) :
  forallb printable (export_cells r R Rr) = printable_row r.
Proof.
  unfold export_cells, printable_row, stored_columns. cbn [forallb].
  rewrite !printable_coalesce.
  replace (printable (optnum R)) with true by now destruct R.
  replace (printable (optnum Rr)) with true by now destruct Rr.
  cbn [andb]. reflexivity.
Qed.

Lemma printable_row_scores (r : value) :
  printable_row r = true ->
  printable (field "S" r) = true /\ printable (field "P" r) = true
  /\ printable (field "Sr" r) = true /\ printable (field "Pr" r) = true.
Proof.
  unfold printable_row, stored_columns. cbn [forallb]. intros H.
  repeat (apply andb_true_iff in H as [? H]). auto.
Qed.

Lemma export_line_completes (r : value) :
  printable_row r = true -> exists line, export_line r = Normal line.
Proof.
  intros H. destruct (printable_row_scores r H) as (PS & PP & PSr & PPr).
  unfold export_line, row_cells.
  destruct (computeR_completes _ _ PS PP) as [R ->].
  destruct (computeR_completes _ _ PSr PPr) as [Rr ->]. cbn [bind].
  destruct (mapM_total csv_cell (export_cells r R Rr)) as [texts ->];
    [|cbn [bind]; eauto].
  rewrite <- (printable_cells r R Rr) in H. rewrite forallb_forall in H.
  apply Forall_forall. intros v Hv. now apply csv_cell_cases, H.
Qed.

Lemma export_line_throws (r : value) :
  printable_row r = false -> export_line r = Throw TypeError.
Proof.
  intros H. destruct (export_line r) as [line|e] eqn:E;
    [|now rewrite (export_line_TypeError r e E)].
  exfalso. unfold export_line, row_cells in E.
  destruct (computeR (field "S" r) (field "P" r)) as [R|e1]; cbn [bind] in E;
    [|discriminate].
  destruct (computeR (field "Sr" r) (field "Pr" r)) as [Rr|e2]; cbn [bind] in E;
    [|discriminate].
  destruct (mapM csv_cell (export_cells r R Rr)) as [texts|e3] eqn:E3; cbn [bind] in E;
    [|discriminate].
  apply mapM_Normal in E3. rewrite <- (printable_cells r R Rr) in H.
  assert (T : forallb printable (export_cells r R Rr) = true).
  { apply forallb_forall. intros v Hv. rewrite Forall_forall in E3.
    destruct (E3 v Hv) as [s Es]. destruct (printable v) eqn:Pv; [reflexivity|].
    destruct (csv_cell_cases v) as [_ C]. rewrite (C Pv) in Es. discriminate. }
  congruence.
Qed.

Lemma export_lines_complete (l : list value) :
  forallb printable_row l = true -> exists lines, mapM export_line l = Normal lines.
Proof.
  intros H. apply mapM_total. apply Forall_forall. intros r Hr.
  rewrite forallb_forall in H. now apply export_line_completes, H.
Qed.

Lemma export_lines_throw (l : list value) :
  forallb printable_row l = false -> mapM export_line l = Throw TypeError.
Proof.
  intros H. destruct (mapM export_line l) as [lines|e] eqn:E.
  - exfalso. apply mapM_Normal in E.
    assert (T : forallb printable_row l = true).
    { apply forallb_forall. intros r Hr. rewrite Forall_forall in E.
      destruct (E r Hr) as [line Er]. destruct (printable_row r) eqn:Pr; [reflexivity|].
      rewrite (export_line_throws r Pr) in Er. discriminate. }
    congruence.
  - now rewrite (mapM_TypeError export_line l e export_line_TypeError E).
Qed.

(** C4 (amended): for rows that are records the export is the header
    line followed by one line per row, the eleven fields in order and
    separated by commas; it completes when no exported field holds an
    object with a [toString] property of its own (one on which [String]
    throws), and throws a [TypeError] otherwise. A field holding a
    string is put between double quotes with each of its quotes doubled
    (reading it back gives the string); a field holding a number, a
    computed risk included, is printed by [String] with no quotes; a
    field that is empty ([""], [null] or [undefined]), a risk that is
    not computable included, is printed as two double quotes, the
    quoted empty text. *)
Theorem export_fields (p : ProjectState) :
  forallb is_record (rows p) = true ->
  onExportCsv p =
    (lines <- mapM export_line (rows p) ;;
     Normal (String.concat newline (String.concat "," csv_headers :: lines)))
  /\ (forallb printable_row (rows p) = true ->
      exists lines, mapM export_line (rows p) = Normal lines)
  /\ (forallb printable_row (rows p) = false -> onExportCsv p = Throw TypeError)
  /\ (forall s, csv_optional (VStr s) = Normal (quoted (replaceAll_quote s))
                /\ unescape_quotes (replaceAll_quote s) = Some s)
  /\ (forall n, csv_optional (VNum n) = Normal (Number_toString n))
  /\ (forall v, blank v = true -> csv_optional v = Normal (quoted ""))
  /\ csv_optional (optnum None) = Normal (quoted "").
Proof.
  intros H. split; [now apply onExportCsv_lines|].
  split; [apply export_lines_complete|]. split.
  - intros U. rewrite (onExportCsv_lines p H), (export_lines_throw _ U). reflexivity.
  - split; [|split; [|split]].
    + intros s. split; [reflexivity | apply unescape_replaceAll].
    + reflexivity.
    + intros v B. destruct v as [ | | | |s| |]; try discriminate; try reflexivity.
      unfold blank in B. cbn [strict_eq_str nullish] in B.
      apply orb_true_iff in B as [B|B]; [|discriminate].
      apply String.eqb_eq in B. now subst s.
    + reflexivity.
Qed.

(* ================================================================= *)
(** ** The order on numbers *)

Lemma SFcompare_Lt_Gt (x y : spec_float) :
  SFcompare x y = Some Lt <-> SFcompare y x = Some Gt.
Proof.
  rewrite (SFcompare_antisym x y).
  destruct (SFcompare x y) as [[]|]; cbn; split; congruence.
Qed.

Lemma pos_compare_cont_Eq (m1 m2 : positive) :
  Pos.compare_cont Eq m1 m2 = (m1 ?= m2)%positive.
Proof. reflexivity. Qed.

Lemma SFcompare_le_trans (x y z : spec_float) (c1 c2 : comparison) :
  SFcompare x y = Some c1 -> c1 <> Gt ->
  SFcompare y z = Some c2 -> c2 <> Gt ->
  exists c3, SFcompare x z = Some c3 /\ c3 <> Gt.
Proof.
  destruct x as [sx|sx| |sx mx ex], y as [sy|sy| |sy my ey], z as [sz|sz| |sz mz ez];
    cbn; intros H1 N1 H2 N2;
    try discriminate;
    try (injection H1 as <-); try (injection H2 as <-);
    try (destruct sx); try (destruct sy); try (destruct sz);
    try (exfalso; congruence);
    try (eexists; split; [reflexivity | discriminate]).
  all: rewrite ?pos_compare_cont_Eq in *.
  all: eexists; split; [reflexivity|].
  all: destruct (Z.compare_spec ex ey), (Z.compare_spec ey ez), (Z.compare_spec ex ez);
    try (exfalso; congruence); try discriminate; try (exfalso; lia);
    subst;
    destruct (Pos.compare_spec mx my), (Pos.compare_spec my mz), (Pos.compare_spec mx mz);
    cbn in *; try (exfalso; congruence); try discriminate; try (exfalso; lia).
Qed.

Lemma float_leb_trans (x y z : float) :
  (x <=? y)%float = true -> (y <=? z)%float = true -> (x <=? z)%float = true.
Proof.
  rewrite !leb_spec. unfold SFleb. intros H1 H2.
  destruct (SFcompare (Prim2SF x) (Prim2SF y)) as [c1|] eqn:E1; [|discriminate].
  destruct (SFcompare (Prim2SF y) (Prim2SF z)) as [c2|] eqn:E2; [|discriminate].
  destruct (SFcompare_le_trans _ _ _ c1 c2 E1 ltac:(destruct c1; congruence)
              E2 ltac:(destruct c2; congruence)) as (c3 & -> & N3).
  destruct c3; congruence.
Qed.
(* ================================================================= *)
(** ** More on clamping and the bands *)

Lemma clamp01_nan (n : float) : is_nan n = true -> clamp01 n = nan.
Proof.
  intros H. unfold clamp01, Math_max. rewrite H, orb_true_r. reflexivity.
Qed.

Lemma clamp01_below (n : float) : (n <=? 0)%float = true -> clamp01 n = 0%float.
Proof.
  intros H.
  assert (Hn : is_nan n = false).
  { apply not_true_is_false. intros N. apply is_nan_Prim2SF in N.
    rewrite leb_spec, N in H. discriminate. }
  destruct (clamp01_cases n Hn) as [E|[E|(E & H0 & H1)]].
  - exfalso. revert E. unfold clamp01, Math_max.
    replace (is_nan 0) with false by reflexivity. rewrite Hn. cbn [orb].
    destruct (0 <? n)%float eqn:P.
    + apply float_ltb_not_leb in P. congruence.
    + replace (if (n <? 0)%float then 0%float
               else if is_zero 0 && get_sign 0 then n else 0%float)
        with 0%float by (destruct (n <? 0)%float; reflexivity).
      vm_compute. discriminate.
  - exact E.
  - apply float_ltb_not_leb in H0. congruence.
Qed.

Lemma one_leb_positive (n : float) : (1 <=? n)%float = true -> (0 <? n)%float = true.
Proof.
  rewrite leb_spec, ltb_spec. unfold SFleb, SFltb.
  replace (Prim2SF 0) with (S754_zero false) by (vm_compute; reflexivity).
  replace (Prim2SF 1) with (S754_finite false 4503599627370496 (-52))
    by (vm_compute; reflexivity).
  destruct (Prim2SF n) as [s|s| |s m e]; cbn [SFcompare]; try discriminate;
    destruct s; try discriminate; reflexivity.
Qed.

Lemma clamp01_above (n : float) : (1 <=? n)%float = true -> clamp01 n = 1%float.
Proof.
  intros H. pose proof (one_leb_positive n H) as P.
  destruct (float_ltb_not_nan _ _ P) as [_ Hn].
  unfold clamp01, Math_max.
  replace (is_nan 0) with false by reflexivity. rewrite Hn, P. cbn [orb].
  unfold Math_min. replace (is_nan 1) with false by reflexivity. rewrite Hn. cbn [orb].
  destruct (1 <? n)%float; [reflexivity|].
  destruct (n <? 1)%float eqn:L.
  - apply float_ltb_not_leb in L. congruence.
  - now rewrite (float_ltb_not_zero n P).
Qed.

Lemma clamp01_inside (n : float) :
  (0 <? n)%float = true -> (n <? 1)%float = true -> clamp01 n = n.
Proof.
  intros P L. destruct (float_ltb_not_nan _ _ P) as [_ Hn].
  unfold clamp01, Math_max.
  replace (is_nan 0) with false by reflexivity. rewrite Hn, P. cbn [orb].
  unfold Math_min. replace (is_nan 1) with false by reflexivity. rewrite Hn. cbn [orb].
  pose proof (float_ltb_not_leb _ _ L) as G.
  destruct (1 <? n)%float eqn:U.
  - apply float_ltb_leb in U. congruence.
  - now rewrite L.
Qed.

(** X1: [clamp01] saturates: a number at or below zero (the negative
    zero included) gives [+0], a number at or above one gives 1, a
    number strictly between them is returned as it is, and NaN gives
    NaN; clamping twice is clamping once. *)
Theorem clamp01_saturates (n : float) :
  ((n <=? 0)%float = true -> clamp01 n = 0%float)
  /\ ((1 <=? n)%float = true -> clamp01 n = 1%float)
  /\ ((0 <? n)%float = true -> (n <? 1)%float = true -> clamp01 n = n)
  /\ (is_nan n = true -> clamp01 n = nan)
  /\ clamp01 (clamp01 n) = clamp01 n.
Proof.
  split; [apply clamp01_below|]. split; [apply clamp01_above|].
  split; [apply clamp01_inside|]. split; [apply clamp01_nan|].
  destruct (is_nan n) eqn:Hn.
  - rewrite (clamp01_nan n Hn). reflexivity.
  - destruct (clamp01_cases n Hn) as [E|[E|(E & _)]]; rewrite E;
      [reflexivity | reflexivity | exact E].
Qed.

(** X2: [riskBadgeClass] is monotonic: a larger risk value is never put
    in a lower band, whatever the thresholds (ordered or not). *)
Theorem classify_monotone (v w : float) (t : Thresholds) :
  (v <=? w)%float = true ->
  band_rank (classify (Some v) t) <= band_rank (classify (Some w) t).
Proof.
  intros H. unfold classify, riskBadgeClass.
  destruct (w <=? low t)%float eqn:Wl.
  - rewrite (float_leb_trans _ _ _ H Wl). cbn. lia.
  - destruct (w <=? medium t)%float eqn:Wm.
    + destruct (v <=? low t)%float; [cbn; lia|].
      rewrite (float_leb_trans _ _ _ H Wm). cbn. lia.
    + destruct (v <=? low t)%float; [cbn; lia|].
      destruct (v <=? medium t)%float; cbn; lia.
Qed.

Lemma float_leb_nan (v x : float) : is_nan v = true -> (v <=? x)%float = false.
Proof.
  intros N. apply is_nan_Prim2SF in N. rewrite leb_spec, N. reflexivity.
Qed.

(** X3: a risk that is NaN, as [computeR] answers for an infinite score
    times zero, is not compared with the thresholds: it gets the red
    badge of the high band, for every thresholds. *)
Theorem nan_risk_is_high (v : float) (t : Thresholds) :
  is_nan v = true ->
  riskBadgeClass (Some v) t = badge_red /\ classify (Some v) t = BandHigh.
Proof.
  intros N. unfold classify, riskBadgeClass. rewrite !(float_leb_nan v _ N).
  split; reflexivity.
Qed.

(* ================================================================= *)
(** ** The hazard library keeps its entries, each once *)

Lemma includes_In (xs : list string) (x : string) : includes xs x = true <-> In x xs.
Proof.
  unfold includes. rewrite existsb_exists. split.
  - intros (y & Hy & E). apply String.eqb_eq in E. now subst.
  - intros H. exists x. split; [assumption | apply String.eqb_refl].
Qed.

Lemma includes_false (xs : list string) (x : string) :
  includes xs x = false <-> ~ In x xs.
Proof.
  rewrite <- includes_In. destruct (includes xs x); split; congruence.
Qed.

Lemma distinct_from_In (seen xs : list string) (x : string) :
  In x (distinct_from seen xs) <-> In x xs /\ ~ In x seen.
Proof.
  revert seen. induction xs as [|y xs IH]; intros seen; cbn; [split; [intros [] | intros [[] _]]|].
  destruct (includes seen y) eqn:E.
  - apply includes_In in E. rewrite IH. split.
    + intros [H N]. auto.
    + intros [[->|H] N]; [contradiction | auto].
  - apply includes_false in E. cbn. rewrite IH. cbn. split.
    + intros [->|[H N]]; [auto|]. split; [auto|]. intros S. apply N. now right.
    + intros [[->|H] N]; [now left|].
      destruct (String.eqb_spec y x) as [->|D]; [now left|].
      right. split; [assumption|]. intros [S|S]; [congruence | contradiction].
Qed.

Lemma distinct_from_NoDup (seen xs : list string) : NoDup (distinct_from seen xs).
Proof.
  revert seen. induction xs as [|y xs IH]; intros seen; cbn; [constructor|].
  destruct (includes seen y); [apply IH|].
  constructor; [|apply IH].
  rewrite distinct_from_In. intros [_ N]. apply N. now left.
Qed.

Lemma distinct_from_append (seen lib : list string) (val : string) :
  NoDup lib -> (forall x, In x lib -> ~ In x seen) ->
  distinct_from seen (lib ++ [val]) =
  lib ++ (if includes lib val || includes seen val then [] else [val]).
Proof.
  revert seen. induction lib as [|x lib IH]; intros seen N D; cbn [app distinct_from].
  - cbn [includes existsb orb]. fold (includes seen val).
    destruct (includes seen val); reflexivity.
  - inversion N as [|? ? Nx Nl]; subst.
    assert (E : includes seen x = false)
      by (apply includes_false, D; now left).
    rewrite E. f_equal. rewrite IH; [|assumption|].
    + f_equal. unfold includes. cbn [existsb].
      destruct (String.eqb val x), (existsb (String.eqb val) lib),
        (existsb (String.eqb val) seen); reflexivity.
    + intros y Hy [S|S]; [subst; contradiction|].
      apply (D y); [now right | assumption].
Qed.

Lemma addToLibrary_NoDup (val : string) (lib : list string) :
  NoDup lib ->
  addToLibrary val lib =
  if String.eqb val "" || includes lib val then lib else lib ++ [val].
Proof.
  intros N. unfold addToLibrary, Array_from_Set.
  destruct (String.eqb val ""); [reflexivity|]. cbn [orb].
  rewrite distinct_from_append by (auto; intros ? ? []).
  cbn [includes existsb]. rewrite orb_false_r. fold (includes lib val).
  destruct (includes lib val); [apply app_nil_r | reflexivity].
Qed.

Lemma DEFAULT_HAZARDS_NoDup : NoDup DEFAULT_HAZARDS.
Proof.
  assert (E : distinct_from [] DEFAULT_HAZARDS = DEFAULT_HAZARDS)
    by (vm_compute; reflexivity).
  rewrite <- E. apply distinct_from_NoDup.
Qed.

Lemma library_invariant (vals lib : list string) :
  NoDup lib ->
  let lib' := fold_left (fun l v => addToLibrary v l) vals lib in
  NoDup lib'
  /\ (exists added, lib' = lib ++ added)
  /\ (forall v, In v vals -> v <> "" -> In v lib').
Proof.
  revert lib. induction vals as [|v vals IH]; intros lib N; cbn.
  - split; [assumption|]. split; [exists []; now rewrite app_nil_r | intros ? []].
  - assert (N' : NoDup (addToLibrary v lib)).
    { unfold addToLibrary. destruct (String.eqb v ""); [assumption|].
      apply distinct_from_NoDup. }
    destruct (IH _ N') as (Hn & (added & Ha) & Hv).
    split; [assumption|]. split.
    + rewrite Ha, (addToLibrary_NoDup v lib N).
      destruct (String.eqb v "" || includes lib v);
        [now exists added | exists (v :: added); now rewrite <- app_assoc].
    + intros w [->|Hw] Nw; [|now apply Hv].
      rewrite Ha. apply in_or_app. left.
      rewrite (addToLibrary_NoDup w lib N).
      apply String.eqb_neq in Nw. rewrite Nw. cbn [orb].
      destruct (includes lib w) eqn:I; [now apply includes_In|].
      apply in_or_app. right. now left.
Qed.

(** X4: whatever texts are added to the default hazard library, in any
    order, the library holds no entry twice, starts with the default
    hazards in their order (nothing is removed or moved), and holds
    every non-empty text that was added; adding a text it already holds,
    or the empty text, leaves it as it was. *)
Theorem library_keeps_entries_once (vals : list string) :
  let lib := fold_left (fun l v => addToLibrary v l) vals DEFAULT_HAZARDS in
  NoDup lib
  /\ (exists added, lib = DEFAULT_HAZARDS ++ added)
  /\ (forall v, In v vals -> v <> "" -> In v lib)
  /\ (forall v, v = "" \/ In v lib -> addToLibrary v lib = lib).
Proof.
  cbv zeta.
  destruct (library_invariant vals DEFAULT_HAZARDS DEFAULT_HAZARDS_NoDup)
    as (N & A & V).
  split; [assumption|]. split; [assumption|]. split; [assumption|].
  intros v H. rewrite (addToLibrary_NoDup v _ N).
  destruct H as [->|H]; [reflexivity|].
  apply includes_In in H. rewrite H, orb_true_r. reflexivity.
Qed.

(* ================================================================= *)
(** ** How the store's operations compose *)

Lemma set_set (k : string) (v w : value) (o : object) :
  set k v (set k w o) = set k v o.
Proof.
  induction o as [|[k0 v0] o IH]; cbn.
  - now rewrite String.eqb_refl.
  - destruct (String.eqb k k0) eqn:E; cbn; rewrite E; [reflexivity | now rewrite IH].
Qed.

Lemma set_swap (k k' : string) (v w : value) (o : object) :
  has_key k o = true -> String.eqb k k' = false ->
  set k v (set k' w o) = set k' w (set k v o).
Proof.
  intros H N. induction o as [|[k0 v0] o IH]; cbn in *; [discriminate|].
  destruct (String.eqb k k0) eqn:E.
  - apply String.eqb_eq in E. subst k0.
    rewrite String.eqb_sym, N. cbn. rewrite String.eqb_refl.
    rewrite String.eqb_sym, N. reflexivity.
  - cbn in H. destruct (String.eqb k' k0) eqn:E'; cbn; rewrite E, ?E'; [reflexivity|].
    now rewrite IH.
Qed.

Lemma relabel_relabel (id : string) (x1 y1 x2 y2 : float) (lb : value) :
  relabel id x2 y2 (relabel id x1 y1 lb) = relabel id x2 y2 lb.
Proof.
  unfold relabel at 1. rewrite mentions_relabel.
  unfold relabel. destruct (mentions "id" id lb) eqn:E; [|reflexivity].
  apply mentions_record in E as (o & -> & _). cbn [ownProps]. f_equal.
  rewrite (set_swap "x" "y") by (rewrite ?has_key_set; reflexivity).
  now rewrite set_set, set_set.
Qed.

Lemma mentions_reposition (k s id pos : string) (r : value) :
  String.eqb k "position" = false ->
  mentions k s (reposition id pos r) = mentions k s r.
Proof.
  intros K. unfold mentions. now rewrite field_reposition.
Qed.

Lemma reposition_reposition (id pos1 pos2 : string) (r : value) :
  reposition id pos2 (reposition id pos1 r) = reposition id pos2 r.
Proof.
  unfold reposition at 1. rewrite mentions_reposition by reflexivity.
  unfold reposition. destruct (mentions "labelId" id r) eqn:E; [|reflexivity].
  apply mentions_record in E as (o & -> & _). cbn [ownProps]. f_equal.
  apply set_set.
Qed.

Lemma present_relabel (id : string) (x y : float) (lb : value) :
  negb (nullish lb) = true -> negb (nullish (relabel id x y lb)) = true.
Proof. unfold relabel. destruct (mentions "id" id lb); auto. Qed.

Lemma present_reposition (id pos : string) (r : value) :
  negb (nullish r) = true -> negb (nullish (reposition id pos r)) = true.
Proof. unfold reposition. destruct (mentions "labelId" id r); auto. Qed.

Lemma present_patched (id : string) (patch : object) (r : value) :
  negb (nullish r) = true -> negb (nullish (patched id patch r)) = true.
Proof. unfold patched. destruct (mentions "id" id r); auto. Qed.

Lemma moveLabel_result_no_holes (id : string) (rect : DOMRect) (cx cy : float)
    (p : ProjectState) :
  no_holes p = true -> no_holes (moveLabel_result id rect cx cy p) = true.
Proof.
  intros H. unfold no_holes, moveLabel_result. cbn [labels rows].
  rewrite !forallb_map. apply andb_true_iff. split.
  - eapply forallb_impl; [|exact (no_holes_labels p H)]. intros lb. apply present_relabel.
  - eapply forallb_impl; [|exact (no_holes_rows p H)]. intros r. apply present_reposition.
Qed.

Lemma deleteLabel_result_no_holes (id : string) (c : bool) (p : ProjectState) :
  no_holes p = true -> no_holes (deleteLabel_result id c p) = true.
Proof.
  intros H. unfold no_holes, deleteLabel_result. cbn [labels rows].
  apply andb_true_iff. split.
  - apply forallb_filter, (no_holes_labels p H).
  - destruct (match filter _ (rows p) with [] => false | _ :: _ => c end);
      [apply forallb_filter|]; apply (no_holes_rows p H).
Qed.

Lemma updateRow_result_no_holes (id : string) (patch : object) (p : ProjectState) :
  no_holes p = true -> no_holes (updateRow_result id patch p) = true.
Proof.
  intros H. unfold no_holes, updateRow_result. cbn [labels rows].
  rewrite forallb_map, (no_holes_labels p H). cbn [andb].
  eapply forallb_impl; [|exact (no_holes_rows p H)]. intros r. apply present_patched.
Qed.

(** X5: during a drag only the last pointer position counts: on a
    project without holes, moving a marker and then moving it again
    gives the project that the second move alone gives. *)
Theorem last_move_wins (id : string) (r1 r2 : DOMRect) (x1 y1 x2 y2 : float)
    (p : ProjectState) :
  no_holes p = true ->
  exists p1,
    moveLabel id r1 x1 y1 p = Normal p1
    /\ moveLabel id r2 x2 y2 p1 = moveLabel id r2 x2 y2 p.
Proof.
  intros H. exists (moveLabel_result id r1 x1 y1 p).
  split; [now apply moveLabel_no_holes|].
  rewrite !moveLabel_no_holes by auto using moveLabel_result_no_holes.
  f_equal. unfold moveLabel_result. cbn [schemaVersion meta settings image labels rows].
  rewrite !map_map. f_equal.
  - apply map_ext. intros lb. apply relabel_relabel.
  - apply map_ext. intros r. apply reposition_reposition.
Qed.

Lemma forallb_filter_same {A} (f : A -> bool) (l : list A) :
  forallb f (filter f l) = true.
Proof.
  apply forallb_forall. intros a Ha. now apply filter_In in Ha.
Qed.

Lemma deleteLabel_result_unknown (id : string) (p : ProjectState) :
  marker_unknown id (deleteLabel_result id true p) = true.
Proof.
  unfold marker_unknown. apply andb_true_iff. split.
  - apply forallb_filter_same.
  - apply forallb_forall. intros r Hr.
    apply deleteLabel_result_rows in Hr as [_ Hm]. now rewrite Hm.
Qed.

(** X6: after a marker was deleted with its rows, its id is gone: no
    marker has it and no row refers to it, the markers with another id
    are all still there, and moving or deleting that marker again
    (the drag that races with the delete) leaves the project as it is. *)
Theorem cascade_delete_forgets (id : string) (p : ProjectState) :
  no_holes p = true ->
  exists p',
    deleteLabel id true p = Normal p'
    /\ marker_unknown id p' = true
    /\ labels p' = filter (fun lb => negb (mentions "id" id lb)) (labels p)
    /\ (forall rect cx cy, moveLabel id rect cx cy p' = Normal p')
    /\ (forall cascadeRows, deleteLabel id cascadeRows p' = Normal p').
Proof.
  intros H. exists (deleteLabel_result id true p).
  pose proof (deleteLabel_result_no_holes id true p H) as H'.
  pose proof (deleteLabel_result_unknown id p) as U.
  split; [now apply deleteLabel_no_holes|]. split; [assumption|].
  split; [reflexivity|]. split; intros.
  - now apply moveLabel_unknown.
  - now apply deleteLabel_unknown.
Qed.

Lemma mentions_patched (s id : string) (patch : object) (r : value) :
  has_key "id" patch = false ->
  mentions "id" s (patched id patch r) = mentions "id" s r.
Proof.
  intros K. unfold mentions. now rewrite field_patched.
Qed.

Lemma assign_app (o p q : object) : assign (assign o p) q = assign o (p ++ q).
Proof.
  unfold assign. now rewrite fold_left_app.
Qed.

(** X7: two patches of the same row, the first of which does not assign
    [id], amount to the one patch that lists the fields of the first
    and then those of the second. *)
Theorem updateRow_patches_compose (id : string) (patch1 patch2 : object)
    (p : ProjectState) :
  no_holes p = true ->
  has_key "id" patch1 = false ->
  exists p1,
    updateRow id patch1 p = Normal p1
    /\ updateRow id patch2 p1 = updateRow id (patch1 ++ patch2) p.
Proof.
  intros H K. exists (updateRow_result id patch1 p).
  split; [now apply updateRow_no_holes|].
  rewrite !updateRow_no_holes by auto using updateRow_result_no_holes.
  f_equal. unfold updateRow_result. cbn [schemaVersion meta settings image labels rows].
  rewrite map_map. f_equal. apply map_ext. intros r.
  unfold patched at 1. rewrite mentions_patched by assumption.
  unfold patched. destruct (mentions "id" id r) eqn:E; [|reflexivity].
  apply mentions_record in E as (o & -> & _). cbn [ownProps]. f_equal.
  apply assign_app.
Qed.

(** X8: a cell edit, the patch of one field [k] of the rows with a given
    id, changes nothing but that field of those rows: the field reads
    the new value, their other fields, the other rows and the labels
    are as before. *)
Theorem updateRow_edits_one_field (id k : string) (v : value) (p : ProjectState) :
  no_holes p = true ->
  exists p',
    updateRow id [(k, v)] p = Normal p'
    /\ labels p' = labels p
    /\ Forall2 (fun r r' =>
                  if mentions "id" id r
                  then field k r' = v
                       /\ forall k', String.eqb k' k = false -> field k' r' = field k' r
                  else r' = r)
         (rows p) (rows p').
Proof.
  intros H. exists (updateRow_result id [(k, v)] p).
  split; [now apply updateRow_no_holes|]. split; [reflexivity|].
  unfold updateRow_result. cbn [rows].
  induction (rows p) as [|r l IH]; cbn [map]; constructor; [|exact IH].
  unfold patched. destruct (mentions "id" id r) eqn:E; [|reflexivity].
  apply mentions_record in E as (o & -> & _). cbn [ownProps field assign fold_left fst snd].
  split; [apply lookup_set_same|]. intros k' K. now apply lookup_set_other.
Qed.

(** X9: on the projects the editor builds itself no operation throws:
    from a fresh project every run of operations, whatever their
    arguments, completes, and labels, rows and settings stay objects. *)
Theorem run_never_throws (ops : list op) (createdAt : string) :
  exists p, run ops (initialProject createdAt) = Normal p /\ shaped p = true.
Proof.
  destruct (run_invariant (fun _ => True) (fun _ => true) (fun _ _ _ _ _ => I)
              ops (initialProject createdAt))
    as (p & Hrun & Hs & _).
  - induction ops; cbn; auto.
  - apply initialProject_shaped.
  - exact I.
  - eauto.
Qed.

Lemma fixed_fields_next (o : op) (p : ProjectState) :
  schemaVersion p = 1%float /\ lookup "displayHeight" (image p) = VNum 650 ->
  schemaVersion (next o p) = 1%float
  /\ lookup "displayHeight" (image (next o p)) = VNum 650.
Proof.
  intros [Hv Hd]. destruct o; cbn [next]; try (split; assumption).
  - split; reflexivity.
  - unfold handleCanvasDrop. destruct (String.eqb danger ""); [now split|].
    destruct mounted; now split.
  - unfold handleSideDrop. destruct (String.eqb danger ""); now split.
  - split; [assumption|]. cbn [importImage image].
    now rewrite lookup_set_other by reflexivity.
  - split; [assumption|]. cbn [syncImageLayout image].
    now rewrite !lookup_set_other by reflexivity.
Qed.

(** X10: from a fresh project no run of store operations changes
    [schemaVersion] or the image's [displayHeight]: they stay 1 and
    650 (importing an image and the layout effect write other keys). *)
Theorem store_keeps_fixed_fields (ops : list op) (createdAt : string) :
  exists p,
    run ops (initialProject createdAt) = Normal p
    /\ schemaVersion p = 1%float
    /\ lookup "displayHeight" (image p) = VNum 650.
Proof.
  destruct (run_invariant
              (fun p => schemaVersion p = 1%float
                        /\ lookup "displayHeight" (image p) = VNum 650)
              (fun _ => true) (fun o p _ _ => fixed_fields_next o p)
              ops (initialProject createdAt))
    as (p & Hrun & _ & Hv & Hd).
  - induction ops; cbn; auto.
  - apply initialProject_shaped.
  - split; reflexivity.
  - eauto.
Qed.

(* ================================================================= *)
(** ** Placing a hazard *)

(** X11: a drop that carries a hazard text appends exactly one marker
    and one row, on the image (with the clamped pointer ratios as
    coordinates) or beside it (without coordinates): the row refers to
    the marker, both carry the dropped text, the row's two risks are not
    computable yet, and nothing else of the project changes. A drop
    without text, or on an image that is not mounted, changes nothing. *)
Theorem drop_appends_linked_pair (danger rndL rndR : string) (rect : DOMRect)
    (clientX clientY : float) (p : ProjectState) :
  handleCanvasDrop "" (Some rect) clientX clientY rndL rndR p = p
  /\ handleSideDrop "" rndL rndR p = p
  /\ handleCanvasDrop danger None clientX clientY rndL rndR p = p
  /\ (danger <> "" ->
      (exists lb r,
         appended_pair danger rndL rndR p
           (handleCanvasDrop danger (Some rect) clientX clientY rndL rndR p) lb r
         /\ field "x" lb = VNum (clamp01 ((clientX - rect_left rect) / rect_width rect))
         /\ field "y" lb = VNum (clamp01 ((clientY - rect_top rect) / rect_height rect)))
      /\ (exists lb r,
            appended_pair danger rndL rndR p (handleSideDrop danger rndL rndR p) lb r
            /\ field "x" lb = VUndef /\ field "y" lb = VUndef)).
Proof.
  split; [reflexivity|]. split; [reflexivity|].
  split; [unfold handleCanvasDrop; now destruct (String.eqb danger "")|].
  intros D. apply String.eqb_neq in D.
  unfold handleCanvasDrop, handleSideDrop, appended_pair. rewrite D.
  split; eexists; eexists; cbn; repeat split.
Qed.

(* ================================================================= *)
(** ** Identifiers *)

Lemma append_inj (pre a b : string) : (pre ++ a = pre ++ b)%string -> a = b.
Proof.
  induction pre as [|c pre IH]; cbn; [auto|]. intros H. injection H. auto.
Qed.

Lemma uid_inj (pre a b : string) : uid pre a = uid pre b -> a = b.
Proof.
  unfold uid. intros H. apply append_inj in H. cbn in H. now injection H.
Qed.

Lemma drawn_more (pre : string) (used extra : list string) (v : value) :
  drawn pre used v -> drawn pre (used ++ extra) v.
Proof.
  intros (r & Hr & ->). exists r. split; [apply in_or_app; now left | reflexivity].
Qed.

Lemma NoDup_snoc {A} (l : list A) (x : A) :
  NoDup l -> ~ In x l -> NoDup (l ++ [x]).
Proof.
  induction 1 as [|a l Ha Hl IH]; cbn; intros Hx.
  - constructor; [intros [] | constructor].
  - constructor.
    + intros Hin. apply in_app_or in Hin as [Hin | [-> | []]]; [now apply Ha|].
      apply Hx. now left.
    + apply IH. intros Hin. apply Hx. now right.
Qed.

Lemma ids_snoc (pre r : string) (used : list string) (l : list value) :
  NoDup l -> Forall (drawn pre used) l -> ~ In r used ->
  NoDup (l ++ [VStr (uid pre r)])
  /\ Forall (drawn pre (used ++ [r])) (l ++ [VStr (uid pre r)]).
Proof.
  intros Hn Hf Hr. split.
  - apply NoDup_snoc; [assumption|]. intros Hin.
    rewrite Forall_forall in Hf. destruct (Hf _ Hin) as (r' & Hr' & E).
    injection E as E. apply uid_inj in E. now subst.
  - apply Forall_app. split.
    + eapply Forall_impl; [|exact Hf]. intros v. apply drawn_more.
    + constructor; [|constructor]. exists r. split; [|reflexivity].
      apply in_or_app. right. now left.
Qed.

Lemma NoDup_map_filter {A B} (f : A -> B) (g : A -> bool) (l : list A) :
  NoDup (map f l) -> NoDup (map f (filter g l)).
Proof.
  induction l as [|a l IH]; cbn; [auto|]. intros H.
  apply NoDup_cons_iff in H as [Ha Hl].
  destruct (g a); cbn; [|auto]. constructor; [|auto].
  intros Hin. apply Ha. apply in_map_iff in Hin as (b & Eb & Hb).
  apply filter_In in Hb as [Hb _]. apply in_map_iff. eauto.
Qed.

Lemma Forall_map_filter {A B} (P : B -> Prop) (f : A -> B) (g : A -> bool)
    (l : list A) :
  Forall P (map f l) -> Forall P (map f (filter g l)).
Proof.
  rewrite !Forall_forall. intros H b Hb. apply H.
  apply in_map_iff in Hb as (a & Ea & Ha). apply filter_In in Ha as [Ha _].
  apply in_map_iff. eauto.
Qed.

Lemma field_relabel_id (id : string) (x y : float) (lb : value) :
  field "id" (relabel id x y lb) = field "id" lb.
Proof.
  unfold relabel. destruct (mentions "id" id lb) eqn:E; [|reflexivity].
  apply mentions_record in E as (o & -> & _). cbn [field ownProps].
  now rewrite !lookup_set_other by reflexivity.
Qed.

Lemma ids_relabel (id : string) (x y : float) (l : list value) :
  ids (map (relabel id x y) l) = ids l.
Proof.
  unfold ids. rewrite map_map. apply map_ext. intros lb. apply field_relabel_id.
Qed.

Lemma ids_reposition (id pos : string) (l : list value) :
  ids (map (reposition id pos) l) = ids l.
Proof.
  unfold ids. rewrite map_map. apply map_ext. intros r.
  now apply field_reposition.
Qed.

Lemma ids_patched (id : string) (patch : object) (l : list value) :
  has_key "id" patch = false -> ids (map (patched id patch) l) = ids l.
Proof.
  intros K. unfold ids. rewrite map_map. apply map_ext. intros r.
  now apply field_patched.
Qed.

(** The ids of the labels and of the rows are distinct and were built
    from the draws [usedL] and [usedR]. *)
Lemma ids_next (o : op) (usedL usedR : list string) (p : ProjectState) :
  keeps_ids o = true ->
  (forall r, In r (label_draw o) -> ~ In r usedL) ->
  (forall r, In r (row_draw o) -> ~ In r usedR) ->
  NoDup (ids (labels p)) /\ Forall (drawn "L" usedL) (ids (labels p)) ->
  NoDup (ids (rows p)) /\ Forall (drawn "R" usedR) (ids (rows p)) ->
  (NoDup (ids (labels (next o p)))
   /\ Forall (drawn "L" (usedL ++ label_draw o)) (ids (labels (next o p))))
  /\ (NoDup (ids (rows (next o p)))
      /\ Forall (drawn "R" (usedR ++ row_draw o)) (ids (rows (next o p)))).
Proof.
  intros K FL FR [NL DL] [NR DR].
  assert (SL : forall extra, Forall (drawn "L" (usedL ++ extra)) (ids (labels p))).
  { intros extra. eapply Forall_impl; [|exact DL]. intros v. apply drawn_more. }
  assert (SR : forall extra, Forall (drawn "R" (usedR ++ extra)) (ids (rows p))).
  { intros extra. eapply Forall_impl; [|exact DR]. intros v. apply drawn_more. }
  destruct o; cbn [next label_draw row_draw] in *.
  - cbn. repeat split; constructor.
  - unfold handleCanvasDrop. destruct mounted as [rect|].
    + destruct (String.eqb danger ""); [now repeat split|].
      cbn [labels rows createRowForLabel appendLabel lookup String.eqb Ascii.eqb
           Bool.eqb].
      unfold ids. rewrite !map_app. cbn [map field lookup String.eqb Ascii.eqb
                                          Bool.eqb].
      split; apply ids_snoc; auto; [apply FL | apply FR]; now left.
    + destruct (String.eqb danger ""); now repeat split.
  - unfold handleSideDrop. destruct (String.eqb danger ""); [now repeat split|].
    cbn [labels rows createRowForLabel appendLabel lookup String.eqb Ascii.eqb
         Bool.eqb].
    unfold ids. rewrite !map_app. cbn [map field lookup String.eqb Ascii.eqb
                                        Bool.eqb].
    split; apply ids_snoc; auto; [apply FL | apply FR]; now left.
  - cbn [moveLabel_result labels rows]. rewrite ids_relabel, ids_reposition.
    now repeat split.
  - cbn [deleteLabel_result labels rows]. split.
    + split; [now apply NoDup_map_filter | now apply Forall_map_filter].
    + destruct (match filter _ (rows p) with [] => false | _ :: _ => cascadeRows end).
      * split; [now apply NoDup_map_filter | now apply Forall_map_filter].
      * now split.
  - cbn [updateRow_result labels rows]. apply negb_true_iff in K.
    rewrite ids_patched by assumption. now repeat split.
  - now repeat split.
  - now repeat split.
  - now repeat split.
  - now repeat split.
Qed.

Lemma ids_run (ops : list op) :
  forall (usedL usedR : list string) (p : ProjectState),
    shaped p = true ->
    forallb keeps_ids ops = true ->
    NoDup (usedL ++ flat_map label_draw ops) ->
    NoDup (usedR ++ flat_map row_draw ops) ->
    NoDup (ids (labels p)) /\ Forall (drawn "L" usedL) (ids (labels p)) ->
    NoDup (ids (rows p)) /\ Forall (drawn "R" usedR) (ids (rows p)) ->
    exists p',
      run ops p = Normal p' /\ NoDup (ids (labels p')) /\ NoDup (ids (rows p')).
Proof.
  induction ops as [|o ops IH]; intros usedL usedR p Hs K UL UR HL HR; cbn [run].
  - exists p. destruct HL, HR. auto.
  - cbn [forallb] in K. apply andb_true_iff in K as [Ko K].
    cbn [flat_map] in UL, UR. rewrite app_assoc in UL, UR.
    rewrite (step_next o p Hs). cbn [bind].
    destruct (ids_next o usedL usedR p Ko) as [HL' HR']; auto.
    + intros r Hr Hin. apply NoDup_app_remove_r in UL.
      clear - UL Hr Hin. induction usedL as [|a l IHl]; [destruct Hin|].
      cbn in UL. apply NoDup_cons_iff in UL as [Ha Hl].
      destruct Hin as [-> | Hin]; [|auto].
      apply Ha. apply in_or_app. now right.
    + intros r Hr Hin. apply NoDup_app_remove_r in UR.
      clear - UR Hr Hin. induction usedR as [|a l IHl]; [destruct Hin|].
      cbn in UR. apply NoDup_cons_iff in UR as [Ha Hl].
      destruct Hin as [-> | Hin]; [|auto].
      apply Ha. apply in_or_app. now right.
    + apply (IH (usedL ++ label_draw o) (usedR ++ row_draw o)); auto using next_shaped.
Qed.

(** X12: identifiers stay unique. In a run of operations from a fresh
    project in which the random draws behind the label ids are pairwise
    distinct, so are those behind the row ids, and no row patch assigns
    [id], the run completes and no two labels share an id, nor do two
    rows. *)
Theorem ids_stay_unique (ops : list op) (createdAt : string) :
  forallb keeps_ids ops = true ->
  NoDup (flat_map label_draw ops) ->
  NoDup (flat_map row_draw ops) ->
  exists p,
    run ops (initialProject createdAt) = Normal p
    /\ NoDup (ids (labels p)) /\ NoDup (ids (rows p)).
Proof.
  intros K UL UR.
  apply (ids_run ops [] [] (initialProject createdAt)); try assumption.
  - apply initialProject_shaped.
  - split; constructor.
  - split; constructor.
Qed.

(* ================================================================= *)
(** ** Saving and opening any project *)

Lemma number_literal_exact (n : float) :
  is_finite n = true -> exact_number (number_literal n) = true.
Proof.
  intros F. unfold exact_number, number_literal.
  destruct (is_zero n) eqn:Z; [reflexivity|].
  rewrite Z, F. cbn [andb]. now apply Leibniz.eqb_spec.
Qed.

(** What [JSON.parse] reads from a text that [JSON.stringify] wrote is
    an exact value. *)
Lemma stringify_value_exact (v : value) :
  forall j, JSON_stringify v = Some j -> json_exact (json_value j) = true.
Proof.
  induction v as [ | |b|n|s|l IH|o IH] using value_nested_ind; cbn [JSON_stringify];
    intros j E; try discriminate; injection E as <-; try reflexivity.
  - destruct (is_finite n) eqn:F; [|reflexivity].
    cbn [json_value json_exact]. now apply number_literal_exact.
  - cbn [json_value json_exact]. rewrite map_map.
    induction IH as [|x l Hx _ IHl]; [reflexivity|].
    cbn [map forallb]. rewrite IHl, andb_true_r.
    destruct (JSON_stringify x) as [j|]; [now apply Hx | reflexivity].
  - cbn [json_value json_exact].
    induction IH as [|[k x] o Hx _ IHo]; [reflexivity|].
    cbn [snd] in Hx. destruct (JSON_stringify x) as [j|]; [|exact IHo].
    cbn [map forallb snd]. rewrite IHo, andb_true_r. now apply Hx.
Qed.

Lemma JSON_clone_item_exact (x : value) : json_exact (JSON_clone_item x) = true.
Proof.
  unfold JSON_clone_item.
  destruct (JSON_stringify x) as [j|] eqn:E; [|reflexivity].
  now apply (stringify_value_exact x).
Qed.

Lemma JSON_clone_item_twice (x : value) :
  JSON_clone_item (JSON_clone_item x) = JSON_clone_item x.
Proof.
  pose proof (stringify_exact _ (JSON_clone_item_exact x)) as H.
  unfold JSON_clone_item at 1.
  destruct (JSON_stringify (JSON_clone_item x)); cbn in H; [|discriminate].
  congruence.
Qed.

Lemma reopen_any (d : ProjectState) (st : AppState) :
  banner (reopen d st) = None
  /\ labels (project (reopen d st)) = map JSON_clone_item (labels d)
  /\ rows (project (reopen d st)) = map JSON_clone_item (rows d).
Proof.
  unfold reopen, onOpen, openText, onSave, projectValue. cbn [chosenFile JSON_stringify].
  destruct (JSON_stringify (meta d)), (JSON_stringify (settings d));
    unfold loadProject;
    cbn [JSON_parse bind json_value map truthy typeof_object negb orb getProp
         lookup String.eqb Ascii.eqb Bool.eqb array_or_empty project banner
         labels rows];
    rewrite !map_map; repeat split; reflexivity.
Qed.

(** X13: saving and opening works for every project and settles after
    one round: opening the saved text never fails, the opened project
    has as many labels and rows as the saved one, each the JSON copy of
    the entry at its place, and saving and opening once more returns the
    same labels and rows. *)
Theorem reopen_settles (d : ProjectState) (st st' : AppState) :
  banner (reopen d st) = None
  /\ labels (project (reopen d st)) = map JSON_clone_item (labels d)
  /\ rows (project (reopen d st)) = map JSON_clone_item (rows d)
  /\ banner (reopen (project (reopen d st)) st') = None
  /\ labels (project (reopen (project (reopen d st)) st'))
     = labels (project (reopen d st))
  /\ rows (project (reopen (project (reopen d st)) st'))
     = rows (project (reopen d st)).
Proof.
  destruct (reopen_any d st) as (B & L & R).
  destruct (reopen_any (project (reopen d st)) st') as (B' & L' & R').
  repeat split; try assumption.
  - rewrite L', L, map_map. apply map_ext. intros x. apply JSON_clone_item_twice.
  - rewrite R', R, map_map. apply map_ext. intros x. apply JSON_clone_item_twice.
Qed.

Lemma loadProject_container (file : text) (prev : ProjectState) :
  primitive_text file = false ->
  exists data,
    JSON_parse file = Normal data
    /\ loadProject file prev =
       Normal {| schemaVersion := 1;
                 meta := coalesce (field "meta" data) (meta prev);
                 settings := coalesce (field "settings" data) (settings prev);
                 image := assign [("displayHeight", VNum 650)]
                            (ownProps (or_else (field "image" data) (VObj [])));
                 labels := array_or_empty (field "labels" data);
                 rows := array_or_empty (field "rows" data) |}.
Proof.
  destruct file as [c|[ |b|n|s|l|m]]; cbn [primitive_text]; try discriminate; intros _;
    eexists; (split; [reflexivity|]); reflexivity.
Qed.

(** X14: opening accepts exactly the texts whose top-level value is an
    object or an array, whatever they hold. For such a text the labels,
    rows and image of the opened project come from the text alone, not
    from the project that was open; an array empties the project, its
    meta and settings apart. *)
Theorem open_accepts_objects_and_arrays (file : text) (st : AppState) :
  (banner (openText file st) = None <-> primitive_text file = false)
  /\ (primitive_text file = false ->
      forall st',
        labels (project (openText file st')) = labels (project (openText file st))
        /\ rows (project (openText file st')) = rows (project (openText file st))
        /\ image (project (openText file st')) = image (project (openText file st)))
  /\ (forall items,
        project (openText (Text (JArr items)) st)
        = {| schemaVersion := 1; meta := meta (project st);
             settings := settings (project st);
             image := [("displayHeight", VNum 650)];
             labels := []; rows := [] |}).
Proof.
  split; [|split].
  - unfold openText. destruct (primitive_text file) eqn:P.
    + destruct (loadProject_primitive file (project st) P) as [e ->].
      cbn. split; discriminate.
    + destruct (loadProject_container file (project st) P) as (data & _ & ->).
      cbn. split; reflexivity.
  - intros P st'. unfold openText.
    destruct (loadProject_container file (project st) P) as (data & E & ->).
    destruct (loadProject_container file (project st') P) as (data' & E' & ->).
    rewrite E in E'. injection E' as <-. cbn. repeat split.
  - intros items. reflexivity.
Qed.

(* ================================================================= *)
(** ** Null entries *)

Lemma mapM_hole {B} (f : value -> completion B) (l : list value) :
  (forall v, nullish v = true -> f v = Throw TypeError) ->
  (forall v, nullish v = false -> exists b, f v = Normal b) ->
  forallb (fun v => negb (nullish v)) l = false ->
  mapM f l = Throw TypeError.
Proof.
  intros Hn Hp. induction l as [|a l IH]; cbn [forallb mapM]; [discriminate|].
  intros H. destruct (nullish a) eqn:N.
  - now rewrite (Hn a N).
  - destruct (Hp a N) as [b ->]. cbn [negb andb] in H. cbn [bind].
    now rewrite (IH H).
Qed.

Lemma filterM_hole (f : value -> completion bool) (l : list value) :
  (forall v, nullish v = true -> f v = Throw TypeError) ->
  (forall v, nullish v = false -> exists b, f v = Normal b) ->
  forallb (fun v => negb (nullish v)) l = false ->
  filterM f l = Throw TypeError.
Proof.
  intros Hn Hp. induction l as [|a l IH]; cbn [forallb filterM]; [discriminate|].
  intros H. destruct (nullish a) eqn:N.
  - now rewrite (Hn a N).
  - destruct (Hp a N) as [b ->]. cbn [negb andb] in H. cbn [bind].
    now rewrite (IH H).
Qed.

(** A traversal whose callback starts by reading the property [k] of
    the entry throws on a list with a hole. *)
Ltac hole_traversal lemma holes :=
  rewrite lemma;
  [ reflexivity
  | intros [ | | | | | | ] Hv; try discriminate; reflexivity
  | intros v Hv; rewrite (getProp_present v _ Hv); cbn [bind]; eauto
  | exact holes ].

Lemma mapM_hole_TypeError {B} (f : value -> completion B) (l : list value) :
  (forall v, nullish v = true -> f v = Throw TypeError) ->
  (forall v e, f v = Throw e -> e = TypeError) ->
  forallb (fun v => negb (nullish v)) l = false ->
  mapM f l = Throw TypeError.
Proof.
  intros Hn He H. destruct (mapM f l) as [bs|e] eqn:E.
  - exfalso. apply mapM_Normal in E.
    assert (T : forallb (fun v => negb (nullish v)) l = true).
    { apply forallb_forall. intros v Hv. rewrite Forall_forall in E.
      destruct (E v Hv) as [b Eb]. destruct (nullish v) eqn:N; [|reflexivity].
      rewrite (Hn v N) in Eb. discriminate. }
    congruence.
  - now rewrite (mapM_TypeError f l e He E).
Qed.

(** X15: an entry that is [null] (a file may bring one) makes the
    handlers throw. With a hole among the labels or the rows every move
    and every delete throws a [TypeError]; with a hole among the rows
    so do every row patch and the export. With no hole among the rows a
    row patch completes, whatever the rows hold; and the export of rows
    that are records completes when no exported field holds an object
    with a [toString] property of its own, on which [String] throws,
    and throws a [TypeError] when one does. *)
Theorem null_entry_throws (p : ProjectState) :
  (no_holes p = false ->
   (forall id rect cx cy, moveLabel id rect cx cy p = Throw TypeError)
   /\ (forall id cascadeRows, deleteLabel id cascadeRows p = Throw TypeError))
  /\ (forallb (fun v => negb (nullish v)) (rows p) = false ->
      (forall id patch, updateRow id patch p = Throw TypeError)
      /\ onExportCsv p = Throw TypeError)
  /\ (forallb (fun v => negb (nullish v)) (rows p) = true ->
      forall id patch, exists p', updateRow id patch p = Normal p')
  /\ (forallb is_record (rows p) = true ->
      (forallb printable_row (rows p) = true -> exists csv, onExportCsv p = Normal csv)
      /\ (forallb printable_row (rows p) = false -> onExportCsv p = Throw TypeError)).
Proof.
  split; [|split; [|split]].
  - unfold no_holes. intros H.
    destruct (forallb (fun v => negb (nullish v)) (labels p)) eqn:HL.
    + cbn [andb] in H. split.
      * intros id rect cx cy. unfold moveLabel. cbv zeta.
        pure_traversal @mapM_pure HL "id".
        hole_traversal @mapM_hole H.
      * intros id c. unfold deleteLabel.
        hole_traversal @filterM_hole H.
    + split.
      * intros id rect cx cy. unfold moveLabel. cbv zeta.
        hole_traversal @mapM_hole HL.
      * intros id c. unfold deleteLabel.
        destruct (forallb (fun v => negb (nullish v)) (rows p)) eqn:HR.
        -- pure_traversal @filterM_pure HR "labelId".
           hole_traversal @filterM_hole HL.
        -- hole_traversal @filterM_hole HR.
  - intros H. split.
    + intros id patch. unfold updateRow. hole_traversal @mapM_hole H.
    + unfold onExportCsv.
      rewrite mapM_hole_TypeError;
        [reflexivity| |exact enrichRowComputed_TypeError|exact H].
      intros [ | | | | | | ] Hv; try discriminate Hv; reflexivity.
  - intros H id patch. unfold updateRow.
    pure_traversal @mapM_pure H "id". eauto.
  - intros R. rewrite (onExportCsv_lines p R). split; intros P.
    + destruct (export_lines_complete _ P) as [lines ->]. cbn [bind]. eauto.
    + now rewrite (export_lines_throw _ P).
Qed.

(* ================================================================= *)
(** ** Reading the export back *)

Lemma string_app_assoc (a b c : string) : ((a ++ b) ++ c = a ++ (b ++ c))%string.
Proof. induction a as [|x a IH]; cbn; [reflexivity | now rewrite IH]. Qed.

Lemma string_app_nil (a : string) : (a ++ "" = a)%string.
Proof. induction a as [|x a IH]; cbn; [reflexivity | now rewrite IH]. Qed.

Lemma option_map_map {A B C} (f : A -> B) (g : B -> C) (o : option A) :
  option_map g (option_map f o) = option_map (fun a => g (f a)) o.
Proof. now destruct o. Qed.

Lemma read_plain (t rest : string) :
  plain t = true ->
  read_csv_from Outside (t ++ rest) = option_map (push_text t) (read_csv_from Outside rest).
Proof.
  induction t as [|c t IH]; cbn [plain append push_text]; intros H.
  - now destruct (read_csv_from Outside rest).
  - apply andb_true_iff in H as [Hc Ht]. unfold plain_char in Hc.
    apply negb_true_iff in Hc. apply orb_false_iff in Hc as [Hc H3].
    apply orb_false_iff in Hc as [H1 H2].
    cbn [read_csv_from]. rewrite H1, H2, H3, (IH Ht). apply option_map_map.
Qed.

Lemma read_quoted_body (s rest : string) :
  read_csv_from Inside (replaceAll_quote s ++ String dquote rest)
  = option_map (push_text s) (read_csv_from AfterQuote rest).
Proof.
  induction s as [|c s IH]; cbn [replaceAll_quote append push_text].
  - cbn [read_csv_from]. rewrite Ascii.eqb_refl.
    now destruct (read_csv_from AfterQuote rest).
  - destruct (Ascii.eqb c dquote) eqn:E.
    + apply Ascii.eqb_eq in E. subst c. cbn [append read_csv_from].
      rewrite !Ascii.eqb_refl, IH. apply option_map_map.
    + cbn [append read_csv_from]. rewrite E, IH. apply option_map_map.
Qed.

Lemma read_after_quote (rest : string) :
  delimited rest = true -> read_csv_from AfterQuote rest = read_csv_from Outside rest.
Proof.
  destruct rest as [|c rest]; [reflexivity|]. cbn [delimited read_csv_from].
  intros H. destruct (Ascii.eqb c dquote) eqn:E; [|reflexivity].
  apply Ascii.eqb_eq in E. subst c. discriminate.
Qed.

Lemma read_cell (printed text rest : string) :
  decodes printed text -> delimited rest = true ->
  read_csv_from Outside (printed ++ rest)
  = option_map (push_text text) (read_csv_from Outside rest).
Proof.
  intros [-> | [P ->]] D.
  - unfold quoted. cbn [append read_csv_from]. rewrite Ascii.eqb_refl.
    rewrite string_app_assoc. cbn [append].
    rewrite read_quoted_body. now rewrite read_after_quote.
  - now apply read_plain.
Qed.

Lemma read_line (cells : list (string * string)) (rest : string) :
  cells <> [] ->
  Forall (fun pt => decodes (fst pt) (snd pt)) cells ->
  delimited rest = true ->
  read_csv_from Outside (String.concat "," (map fst cells) ++ rest)
  = option_map (push_cells (map snd cells)) (read_csv_from Outside rest).
Proof.
  intros N H. revert N. induction H as [|[pr tx] cells Hc Hcs IH]; intros N D;
    [contradiction|].
  destruct cells as [|[pr' tx'] cells'].
  - cbn [map String.concat fst snd push_cells]. now apply read_cell.
  - change (String.concat "," (map fst ((pr, tx) :: (pr', tx') :: cells')))
      with (pr ++ "," ++ String.concat "," (map fst ((pr', tx') :: cells')))%string.
    rewrite string_app_assoc. cbn [append].
    rewrite (read_cell pr tx) by (assumption || reflexivity).
    cbn [read_csv_from]. replace (Ascii.eqb "," dquote) with false by reflexivity.
    rewrite Ascii.eqb_refl.
    rewrite IH by (discriminate || assumption).
    rewrite !option_map_map. reflexivity.
Qed.

Lemma push_text_cell (t cell : string) (cells : list string)
    (records : list (list string)) :
  push_text t ((cell :: cells) :: records) = ((t ++ cell)%string :: cells) :: records.
Proof.
  induction t as [|c t IH]; cbn [push_text append]; [reflexivity|].
  now rewrite IH.
Qed.

Lemma push_cells_record (ts cells : list string) (records : list (list string)) :
  ts <> [] ->
  push_cells ts ((EmptyString :: cells) :: records) = (ts ++ cells) :: records.
Proof.
  induction ts as [|t ts IH]; intros N; [contradiction|].
  cbn [push_cells]. destruct ts as [|t' ts'].
  - now rewrite push_text_cell, string_app_nil.
  - rewrite IH by discriminate. cbn [new_cell].
    now rewrite push_text_cell, string_app_nil.
Qed.

Lemma read_file (lines : list (list (string * string))) :
  lines <> [] ->
  Forall (fun cells => cells <> []
                       /\ Forall (fun pt => decodes (fst pt) (snd pt)) cells) lines ->
  read_csv (String.concat newline
              (map (fun cells => String.concat "," (map fst cells)) lines))
  = Some (map (map snd) lines).
Proof.
  unfold read_csv. intros N H. revert N.
  induction H as [|cells lines [Hn Hc] Hl IH]; intros N; [contradiction|].
  assert (T : map snd cells <> []) by (destruct cells; [contradiction | discriminate]).
  destruct lines as [|cells' lines'].
  - cbn [map String.concat].
    rewrite <- (string_app_nil (String.concat "," (map fst cells))).
    rewrite read_line by (assumption || reflexivity).
    cbn [read_csv_from option_map]. now rewrite push_cells_record, app_nil_r.
  - change (String.concat newline
              (map (fun cells => String.concat "," (map fst cells))
                 (cells :: cells' :: lines')))
      with (String.concat "," (map fst cells) ++ newline
            ++ String.concat newline
                 (map (fun cells => String.concat "," (map fst cells))
                    (cells' :: lines')))%string.
    unfold newline at 1. cbn [append].
    rewrite read_line by (assumption || reflexivity).
    cbn [read_csv_from]. replace (Ascii.eqb "010" dquote) with false by reflexivity.
    replace (Ascii.eqb "010" ",") with false by reflexivity.
    rewrite Ascii.eqb_refl, (IH ltac:(discriminate)).
    cbn [option_map map]. unfold new_record.
    now rewrite push_cells_record, app_nil_r.
Qed.

Lemma decodes_cell (v : value) :
  tabular v = true ->
  exists printed text,
    csv_cell v = Normal printed /\ cell_text v = Normal text /\ decodes printed text.
Proof.
  destruct v as [ | |b|n|s|l|o]; cbn [tabular csv_cell cell_text]; intros H;
    try (destruct (ToString _) as [t|e]; [|discriminate H];
         exists t, t; repeat split; right; split; [exact H | reflexivity]).
  eexists. exists s. repeat split. left. reflexivity.
Qed.

Lemma cells_read (cells : list value) :
  forallb tabular cells = true ->
  exists pairs,
    mapM csv_cell cells = Normal (map fst pairs)
    /\ mapM cell_text cells = Normal (map snd pairs)
    /\ Forall (fun pt => decodes (fst pt) (snd pt)) pairs
    /\ List.length pairs = List.length cells.
Proof.
  induction cells as [|v cells IH]; cbn [forallb mapM]; intros H.
  - exists []. repeat split. constructor.
  - apply andb_true_iff in H as [Hv Hc].
    destruct (decodes_cell v Hv) as (printed & text & -> & -> & D).
    destruct (IH Hc) as (pairs & -> & -> & F & L). cbn [bind].
    exists ((printed, text) :: pairs). cbn [map fst snd List.length].
    split; [reflexivity|]. split; [reflexivity|].
    split; [now constructor | now rewrite L].
Qed.

Lemma row_cells_length (r : value) (cells : list value) :
  row_cells r = Normal cells -> List.length cells = 11.
Proof.
  unfold row_cells.
  destruct (computeR (field "S" r) (field "P" r)) as [R|e]; cbn [bind]; [|discriminate].
  destruct (computeR (field "Sr" r) (field "Pr" r)) as [Rr|e]; cbn [bind];
    [|discriminate].
  intros H. injection H as <-. reflexivity.
Qed.

Lemma row_read (r : value) :
  tabular_row r = true ->
  exists pairs,
    export_line r = Normal (String.concat "," (map fst pairs))
    /\ row_texts r = Normal (map snd pairs)
    /\ pairs <> []
    /\ Forall (fun pt => decodes (fst pt) (snd pt)) pairs.
Proof.
  unfold tabular_row, export_line, row_texts.
  destruct (row_cells r) as [cells|e] eqn:E; [|discriminate]. intros H. cbn [bind].
  destruct (cells_read cells H) as (pairs & -> & -> & F & L). cbn [bind].
  exists pairs. repeat split; [|assumption].
  rewrite (row_cells_length r cells E) in L. destruct pairs; discriminate.
Qed.

Lemma rows_read (l : list value) :
  forallb tabular_row l = true ->
  exists lines,
    mapM export_line l
    = Normal (map (fun cells => String.concat "," (map fst cells)) lines)
    /\ mapM row_texts l = Normal (map (map snd) lines)
    /\ Forall (fun cells => cells <> []
                            /\ Forall (fun pt => decodes (fst pt) (snd pt)) cells)
         lines.
Proof.
  induction l as [|r l IH]; cbn [forallb mapM]; intros H.
  - exists []. repeat split. constructor.
  - apply andb_true_iff in H as [Hr Hl].
    destruct (row_read r Hr) as (pairs & -> & -> & N & F).
    destruct (IH Hl) as (lines & -> & -> & Fl). cbn [bind].
    exists (pairs :: lines). cbn [map]. repeat split. constructor; auto.
Qed.

(** The printed cells of the rows with the texts they stand for. *)
Lemma export_read (l : list value) :
  forallb tabular_row l = true ->
  exists lines texts,
    mapM export_line l = Normal lines
    /\ mapM row_texts l = Normal texts
    /\ read_csv (String.concat newline (String.concat "," csv_headers :: lines))
       = Some (csv_headers :: texts).
Proof.
  intros H. destruct (rows_read l H) as (lines & El & Et & F).
  eexists. eexists. split; [exact El|]. split; [exact Et|].
  pose (head := map (fun h : string => (h, h)) csv_headers).
  change (String.concat "," csv_headers
          :: map (fun cells => String.concat "," (map fst cells)) lines)
    with (map (fun cells => String.concat "," (map fst cells)) (head :: lines)).
  rewrite read_file.
  - reflexivity.
  - discriminate.
  - constructor; [|exact F].
    split; [discriminate|]. unfold head.
    repeat (constructor; [right; split; reflexivity|]). constructor.
Qed.

(** X16: the export reads back. When the rows are records, their risks
    compute, and each exported cell that is not a string is printed by
    [String] without a double quote, a comma or a line feed (as a number
    is), the export completes and a reader of comma-separated text finds
    the header and, for each row in order, its eleven cells with the
    texts the row holds, whatever commas, quotes and line feeds these
    contain; so two such projects with the same export hold the same
    cell texts. *)
Theorem export_reads_back (p : ProjectState) :
  forallb is_record (rows p) = true ->
  forallb tabular_row (rows p) = true ->
  exists csv texts,
    onExportCsv p = Normal csv
    /\ mapM row_texts (rows p) = Normal texts
    /\ read_csv csv = Some (csv_headers :: texts)
    /\ forall p',
         forallb is_record (rows p') = true ->
         forallb tabular_row (rows p') = true ->
         onExportCsv p' = Normal csv ->
         mapM row_texts (rows p') = Normal texts.
Proof.
  intros R T. destruct (export_read (rows p) T) as (lines & texts & El & Et & Er).
  eexists. exists texts.
  split; [rewrite (onExportCsv_lines p R), El; reflexivity|].
  split; [exact Et|]. split; [exact Er|].
  intros p' R' T' E.
  destruct (export_read (rows p') T') as (lines' & texts' & El' & Et' & Er').
  rewrite (onExportCsv_lines p' R'), El' in E. cbn [bind] in E.
  remember (String.concat newline (String.concat "," csv_headers :: lines')) as c'.
  remember (String.concat newline (String.concat "," csv_headers :: lines)) as c.
  assert (Ec : c' = c) by congruence.
  rewrite Ec, Er in Er'. rewrite Et'. congruence.
Qed.

Lemma export_line_fields (r r' : value) :
  (forall k, In k stored_columns -> field k r' = field k r) ->
  export_line r' = export_line r.
Proof.
  intros H. unfold export_line, row_cells, export_cells.
  now rewrite !H by (cbn; auto 12).
Qed.

Lemma stored_column_not_risk (k : string) :
  In k stored_columns -> String.eqb k "R" = false /\ String.eqb k "Rr" = false.
Proof.
  unfold stored_columns. cbn [In].
  intros [<-|[<-|[<-|[<-|[<-|[<-|[<-|[<-|[<-|[]]]]]]]]]]; split; reflexivity.
Qed.

Lemma patched_risk_fields (id : string) (vR vRr : value) (l : list value) :
  forallb is_record l = true ->
  Forall2 (fun r r' =>
             is_record r = true /\ is_record r' = true
             /\ forall k, String.eqb k "R" = false -> String.eqb k "Rr" = false ->
                          field k r' = field k r)
    l (map (patched id [("R", vR); ("Rr", vRr)]) l).
Proof.
  induction l as [|r l IH]; cbn [forallb map]; intros H; constructor.
  - apply andb_true_iff in H as [Hr _]. split; [assumption|].
    split; [now apply is_record_patched|].
    intros k H1 H2. apply field_patched. cbn [has_key]. now rewrite H1, H2.
  - apply andb_true_iff in H as [_ Hl]. auto.
Qed.

(** X17: the export does not read the stored risks, it computes them:
    two projects whose rows are records and agree, row by row, on every
    field other than [R] and [Rr] export alike, the same text or, when
    a field stops [String], the same error. *)
Theorem export_recomputes_risk (p p' : ProjectState) :
  Forall2 (fun r r' =>
             is_record r = true /\ is_record r' = true
             /\ forall k, String.eqb k "R" = false -> String.eqb k "Rr" = false ->
                          field k r' = field k r)
    (rows p) (rows p') ->
  onExportCsv p' = onExportCsv p.
Proof.
  intros H.
  assert (R : forallb is_record (rows p) = true).
  { induction H as [|r r' l l' (Hr & _ & _) _ IH]; cbn [forallb]; [reflexivity|].
    rewrite Hr. exact IH. }
  assert (R' : forallb is_record (rows p') = true).
  { clear R. induction H as [|r r' l l' (_ & Hr & _) _ IH]; cbn [forallb]; [reflexivity|].
    rewrite Hr. exact IH. }
  rewrite (onExportCsv_lines p R), (onExportCsv_lines p' R').
  assert (M : mapM export_line (rows p') = mapM export_line (rows p)).
  { clear R R'. induction H as [|r r' l l' (_ & _ & Hf) _ IH]; cbn [mapM]; [reflexivity|].
    rewrite IH. rewrite (export_line_fields r r'); [reflexivity|].
    intros k Hk. destruct (stored_column_not_risk k Hk). now apply Hf. }
  now rewrite M.
Qed.

(** X18: entering scores. After the severity cell and then the
    probability cell of the rows with a given id received the entered
    texts, the risk computed for these rows is the product of the two
    numbers, and no risk at all when a text is empty or is not a
    number; the row shown in the table carries that risk whenever the
    risk after measures of the row computes too. *)
Theorem score_entry_computes_risk (id a b : string) (p : ProjectState) :
  no_holes p = true ->
  exists p1 p2,
    updateRow id [("S", scoreInput a)] p = Normal p1
    /\ updateRow id [("P", scoreInput b)] p1 = Normal p2
    /\ Forall (fun r =>
                 mentions "id" id r = true ->
                 computeR (field "S" r) (field "P" r) = Normal (entered_risk a b)
                 /\ forall Rr,
                      computeR (field "Sr" r) (field "Pr" r) = Normal Rr ->
                      exists row,
                        enrichRowComputed r = Normal row
                        /\ field "R" row = optnum (entered_risk a b)
                        /\ field "Rr" row = optnum Rr)
         (rows p2).
Proof.
  intros H.
  exists (updateRow_result id [("S", scoreInput a)] p).
  exists (updateRow_result id [("P", scoreInput b)]
            (updateRow_result id [("S", scoreInput a)] p)).
  split; [now apply updateRow_no_holes|].
  split; [apply updateRow_no_holes; now apply updateRow_result_no_holes|].
  unfold updateRow_result. cbn [rows]. rewrite map_map.
  apply Forall_forall. intros r' Hin. apply in_map_iff in Hin as (r & <- & _).
  intros M0.
  assert (M : mentions "id" id r = true)
    by (rewrite !mentions_patched in M0 by reflexivity; exact M0).
  destruct (mentions_record _ _ _ M) as (o & -> & Hid).
  assert (E1 : patched id [("S", scoreInput a)] (VObj o)
               = VObj (set "S" (scoreInput a) o)).
  { unfold patched. rewrite M. reflexivity. }
  rewrite E1.
  assert (E2 : patched id [("P", scoreInput b)] (VObj (set "S" (scoreInput a) o))
               = VObj (set "P" (scoreInput b) (set "S" (scoreInput a) o))).
  { unfold patched, mentions. cbn [field].
    rewrite lookup_set_other by reflexivity. rewrite Hid. cbn [strict_eq_str].
    rewrite String.eqb_refl. reflexivity. }
  rewrite E2. cbn [field].
  rewrite lookup_set_other by reflexivity. rewrite !lookup_set_same.
  assert (C : computeR (scoreInput a) (scoreInput b) = Normal (entered_risk a b)).
  { unfold computeR, scoreInput, entered_risk.
    destruct (String.eqb a ""), (String.eqb b ""); cbn; reflexivity. }
  split; [exact C|]. intros Rr ERr.
  rewrite enrichRowComputed_record.
  rewrite lookup_set_other by reflexivity. rewrite !lookup_set_same, C. cbn [bind].
  rewrite ERr. cbn [bind]. eexists. split; [reflexivity|].
  cbn [field]. split; [|apply lookup_set_same].
  rewrite lookup_set_other by reflexivity. apply lookup_set_same.
Qed.

(* ================================================================= *)
(** ** The layout effect *)

Lemma set_same (k : string) (v : value) (o : object) :
  has_key k o = true -> lookup k o = v -> set k v o = o.
Proof.
  induction o as [|[k0 v0] o IH]; cbn; [discriminate|].
  destruct (String.eqb k k0); cbn; intros H E; [now subst | now rewrite IH].
Qed.

Lemma or_else_twice (a x : value) : or_else a (or_else a x) = or_else a x.
Proof. unfold or_else. now destruct (truthy a) eqn:E; rewrite ?E. Qed.

(** X19: the layout effect settles and loses nothing. Running it again
    with the same measures changes nothing more; a measure of zero (the
    image is not loaded yet) leaves the stored natural size as it is;
    the other keys of the image (the data URL, the display height), the
    labels, the rows, the meta data and the settings are untouched. *)
Theorem layout_sync_settles (clientWidth naturalWidth naturalHeight : float)
    (p : ProjectState) :
  syncImageLayout clientWidth naturalWidth naturalHeight
    (syncImageLayout clientWidth naturalWidth naturalHeight p)
  = syncImageLayout clientWidth naturalWidth naturalHeight p
  /\ (truthy (VNum naturalWidth) = false ->
      lookup "naturalWidth"
        (image (syncImageLayout clientWidth naturalWidth naturalHeight p))
      = lookup "naturalWidth" (image p))
  /\ (truthy (VNum naturalHeight) = false ->
      lookup "naturalHeight"
        (image (syncImageLayout clientWidth naturalWidth naturalHeight p))
      = lookup "naturalHeight" (image p))
  /\ (forall k,
        String.eqb k "displayWidth" = false -> String.eqb k "naturalWidth" = false ->
        String.eqb k "naturalHeight" = false ->
        lookup k (image (syncImageLayout clientWidth naturalWidth naturalHeight p))
        = lookup k (image p))
  /\ labels (syncImageLayout clientWidth naturalWidth naturalHeight p) = labels p
  /\ rows (syncImageLayout clientWidth naturalWidth naturalHeight p) = rows p
  /\ meta (syncImageLayout clientWidth naturalWidth naturalHeight p) = meta p
  /\ settings (syncImageLayout clientWidth naturalWidth naturalHeight p) = settings p.
Proof.
  split; [|split; [|split; [|split]]].
  - unfold syncImageLayout. cbn [schemaVersion meta settings image labels rows].
    f_equal.
    set (c := or_else (VNum clientWidth) (VNum naturalWidth)).
    set (b := or_else (VNum naturalWidth) (lookup "naturalWidth" (image p))).
    set (a := or_else (VNum naturalHeight) (lookup "naturalHeight" (image p))).
    set (image1 := set "naturalHeight" a
                     (set "naturalWidth" b (set "displayWidth" c (image p)))).
    assert (Ea : lookup "naturalHeight" image1 = a) by apply lookup_set_same.
    assert (Eb : lookup "naturalWidth" image1 = b).
    { unfold image1. rewrite lookup_set_other by reflexivity. apply lookup_set_same. }
    assert (Ec : lookup "displayWidth" image1 = c).
    { unfold image1. rewrite !lookup_set_other by reflexivity. apply lookup_set_same. }
    rewrite Ea, Eb. unfold a at 1, b at 1. rewrite !or_else_twice. fold a b.
    rewrite (set_same "displayWidth" c image1);
      [|unfold image1; rewrite !has_key_set; reflexivity | exact Ec].
    rewrite (set_same "naturalWidth" b image1);
      [|unfold image1; rewrite !has_key_set; reflexivity | exact Eb].
    apply set_same; [unfold image1; rewrite !has_key_set; reflexivity | exact Ea].
  - intros T. cbn [syncImageLayout image].
    rewrite lookup_set_other by reflexivity. rewrite lookup_set_same.
    unfold or_else. now rewrite T.
  - intros T. cbn [syncImageLayout image]. rewrite lookup_set_same.
    unfold or_else. now rewrite T.
  - intros k K1 K2 K3. cbn [syncImageLayout image].
    now rewrite !lookup_set_other by assumption.
  - repeat split.
Qed.


Lemma export_line_reposition (id pos : string) (r : value) :
  export_line (reposition id pos r) = export_line r.
Proof.
  apply export_line_fields. intros k Hk. apply field_reposition.
  revert Hk. unfold stored_columns. cbn [In].
  intros [<-|[<-|[<-|[<-|[<-|[<-|[<-|[<-|[<-|[]]]]]]]]]]; reflexivity.
Qed.

(** X20: the position of a marker is no part of the export. On a
    project whose labels, rows and settings are objects, dragging a
    marker, which rewrites the [position] of its rows, completes and
    leaves the export as it was: the same text or, when a field of a
    row stops [String], the same error. *)
Theorem export_ignores_moves (id : string) (rect : DOMRect) (clientX clientY : float)
    (p : ProjectState) :
  shaped p = true ->
  exists p',
    moveLabel id rect clientX clientY p = Normal p'
    /\ onExportCsv p' = onExportCsv p.
Proof.
  intros H. destruct (shaped_parts p H) as (_ & _ & Hr).
  exists (moveLabel_result id rect clientX clientY p).
  split; [apply moveLabel_no_holes; now apply shaped_no_holes|].
  assert (Hr' : forallb is_record (rows (moveLabel_result id rect clientX clientY p))
                = true).
  { cbn [moveLabel_result rows]. rewrite forallb_map.
    eapply forallb_impl; [|exact Hr]. intros r. apply is_record_reposition. }
  rewrite (onExportCsv_lines p Hr), (onExportCsv_lines _ Hr').
  cbn [moveLabel_result rows].
  assert (M : forall pos l,
             mapM export_line (map (reposition id pos) l) = mapM export_line l).
  { intros pos l. induction l as [|r l IH]; cbn [map mapM]; [reflexivity|].
    now rewrite IH, export_line_reposition. }
  now rewrite M.
Qed.

End Platform.


(* ================================================================= *)
(** ** Closed examples *)

(** C1, counterexample: a hazard dropped on an image laid out with no
    extent is stored with [x] NaN, and a row patched with an infinite
    score, or with the score negative zero, stores it; saved and opened
    again, the first two read [null] and the third reads zero. *)
Lemma reopen_loses_nan_and_infinity :
  (exists d,
     run sample_toFixed2
       [PlaceOnImage "Écrasement" (Some collapsed_rect) 0 0 "k3x9q2a" "p7m1c4z"]
       (initialProject sample_clock) = Normal d
     /\ map (field "x") (labels d) = [VNum nan]
     /\ map (field "x")
          (labels (project (reopen d (mkApp (initialProject sample_clock) None))))
        = [VNull])
  /\ (exists d,
        run sample_toFixed2
          [PlaceOffImage "Bruit" "k3x9q2a" "p7m1c4z";
           UpdateRow "R_p7m1c4z" [("S", VNum infinity)]]
          (initialProject sample_clock) = Normal d
        /\ map (field "S") (rows d) = [VNum infinity]
        /\ map (field "S")
             (rows (project (reopen d (mkApp (initialProject sample_clock) None))))
           = [VNull])
  /\ (exists d,
        run sample_toFixed2
          [PlaceOffImage "Bruit" "k3x9q2a" "p7m1c4z";
           UpdateRow "R_p7m1c4z" [("S", VNum neg_zero)]]
          (initialProject sample_clock) = Normal d
        /\ map (field "S") (rows d) = [VNum neg_zero]
        /\ map (field "S")
             (rows (project (reopen d (mkApp (initialProject sample_clock) None))))
           = [VNum zero]
        /\ PrimFloat.Leibniz.eqb neg_zero zero = false).
Proof.
  split; [|split]; eexists; (split; [reflexivity|]); repeat split; reflexivity.
Qed.

(** C1, witness: a drop on the image, a patch of two scores, a move far
    outside the image and a new title. *)
Lemma reopen_preserves_witness :
  exists d,
    run sample_toFixed2
      [PlaceOnImage "Écrasement" (Some sample_rect) 72 30.5 "k3x9q2a" "p7m1c4z";
       UpdateRow "R_p7m1c4z" [("S", VNum 3); ("P", VNum 4); ("scenario", VStr "Presse")];
       MoveMarker "L_k3x9q2a" sample_rect 5000 (-40);
       RenameDocument "Atelier"]
      (initialProject sample_clock) = Normal d
    /\ banner (reopen d (mkApp (initialProject "") None)) = None
    /\ meta (project (reopen d (mkApp (initialProject "") None))) = meta d
    /\ settings (project (reopen d (mkApp (initialProject "") None))) = settings d
    /\ Forall2 same_fields
         (labels (project (reopen d (mkApp (initialProject "") None)))) (labels d)
    /\ Forall2 same_fields
         (rows (project (reopen d (mkApp (initialProject "") None)))) (rows d).
Proof.
  apply (reopen_preserves sample_toFixed2). reflexivity.
Defined.

(** C2, counterexample: a patch that assigns [labelId] leaves the row
    pointing at an id no label has. *)
Lemma patch_unlinks_row :
  exists p,
    run sample_toFixed2
      [PlaceOffImage "Bruit" "k3x9q2a" "p7m1c4z";
       UpdateRow "R_p7m1c4z" [("labelId", VStr "L_ghost")]]
      (initialProject sample_clock) = Normal p
    /\ map (field "labelId") (rows p) = [VStr "L_ghost"]
    /\ map (field "id") (labels p) = [VStr "L_k3x9q2a"]
    /\ links_ok p = false.
Proof.
  eexists. split; [reflexivity|]. repeat split; reflexivity.
Qed.

(** C2, witness: place, move, patch, then delete with cascade. *)
Lemma rows_stay_linked_witness :
  exists p,
    run sample_toFixed2
      [PlaceOnImage "Écrasement" (Some sample_rect) 72 30.5 "k3x9q2a" "p7m1c4z";
       PlaceOffImage "Bruit" "b5t8w0r" "h2n6y1e";
       MoveMarker "L_k3x9q2a" sample_rect 20 20;
       UpdateRow "R_p7m1c4z" [("S", VNum 3)];
       DeleteMarker "L_k3x9q2a" true]
      (initialProject sample_clock) = Normal p
    /\ links_ok p = true.
Proof.
  apply (rows_stay_linked sample_toFixed2). reflexivity.
Defined.

(** C4, counterexample: the row of a hazard just placed has empty
    scores and no computable risk; its line prints each of them, like
    the empty texts, as two double quotes. *)
Lemma export_quotes_empty_scores :
  onExportCsv sample_toString sample_toNumber side_project =
    Normal (String.concat newline
              [String.concat "," csv_headers;
               String.concat ","
                 [quoted "R_p7m1c4z"; quoted "Bruit"; quoted "";
                  quoted ""; quoted ""; quoted "";
                  quoted ""; quoted ""; quoted ""; quoted ""; quoted ""]])
  /\ quoted "" = String dquote (String dquote EmptyString)
  /\ String.length (quoted "") = 2.
Proof.
  repeat split; reflexivity.
Qed.

(** C4, witness: a row with severity 3 and probability 4. *)
Lemma export_fields_witness :
  onExportCsv sample_toString sample_toNumber
    (updateRow_result "R_p7m1c4z" [("S", VNum 3); ("P", VNum 4)] sample_project) =
  Normal (String.concat newline
            [String.concat "," csv_headers;
             String.concat ","
               [quoted "R_p7m1c4z"; quoted "Écrasement"; quoted "";
                "3"; "4"; "12";
                quoted ""; quoted ""; quoted ""; quoted ""; quoted ""]]).
Proof.
  exact (proj1 (export_fields sample_toString sample_toNumber
                  (updateRow_result "R_p7m1c4z" [("S", VNum 3); ("P", VNum 4)]
                     sample_project) eq_refl)).
Defined.

(** C6, counterexample: a file whose label sits at (5, -3) is opened
    with these coordinates stored. *)
Lemma open_stores_out_of_range :
  exists d,
    loadProject
      (Text (JObj [("labels",
                    JArr [JObj [("id", JStr "L_k3x9q2a"); ("type", JStr "Bruit");
                                ("x", JNum 5); ("y", JNum (-3))]])]))
      (initialProject sample_clock) = Normal d
    /\ map (field "x") (labels d) = [VNum 5]
    /\ map (field "y") (labels d) = [VNum (-3)]
    /\ forallb marker_in_range (labels d) = false.
Proof.
  eexists. split; [reflexivity|]. repeat split; reflexivity.
Qed.

(** C6, witness: pointers far outside the image. *)
Lemma markers_stay_in_range_witness :
  exists p,
    run sample_toFixed2
      [PlaceOnImage "Écrasement" (Some sample_rect) 5000 (-40) "k3x9q2a" "p7m1c4z";
       PlaceOffImage "Bruit" "b5t8w0r" "h2n6y1e";
       MoveMarker "L_k3x9q2a" sample_rect (-7) 900]
      (initialProject sample_clock) = Normal p
    /\ forallb marker_in_range (labels p) = true.
Proof.
  apply (markers_stay_in_range sample_toFixed2). reflexivity.
Defined.

(** C7, counterexample: with thresholds low 12 and medium 5, the value
    10 exceeds the medium threshold and is classified low. *)
Lemma classify_unordered_thresholds :
  (medium (mkThresholds 12 5 25) <? 10)%float = true
  /\ classify (Some 10%float) (mkThresholds 12 5 25) = BandLow.
Proof.
  split; reflexivity.
Qed.

(** C7, witness: 12 under the default thresholds 5 and 12. *)
Lemma classify_bands_witness : classify (Some 12%float) defaultThresholds = BandModerate.
Proof.
  apply (proj1 (proj2 (classify_bands sample_toString sample_toNumber
                         12 defaultThresholds))); reflexivity.
Defined.

(** C8, counterexample: a file holding the empty array is accepted, and
    the project's label and row are gone. *)
Lemma open_accepts_array :
  banner (onOpen [Text (JArr [])] (mkApp sample_project None)) = None
  /\ List.length (labels sample_project) = 1
  /\ List.length (rows sample_project) = 1
  /\ labels (project (onOpen [Text (JArr [])] (mkApp sample_project None))) = []
  /\ rows (project (onOpen [Text (JArr [])] (mkApp sample_project None))) = [].
Proof.
  repeat split; reflexivity.
Qed.

(** C8, witness: a file holding the number 42. *)
Lemma onOpen_rejects_primitives_witness :
  project (onOpen [Text (JNum 42)] (mkApp sample_project None)) = sample_project
  /\ exists message,
       banner (onOpen [Text (JNum 42)] (mkApp sample_project None)) = Some message.
Proof.
  apply (onOpen_rejects_primitives [Text (JNum 42)] (Text (JNum 42))); reflexivity.
Defined.

(** C9, counterexample: no marker has the id [L_k3x9q2a], a row still
    refers to it; deleting that marker with cascade removes the row,
    and moving it writes the row's [position]. And a project opened
    from a file with [null] among its labels throws on any move. *)
Lemma unknown_marker_changes_rows :
  labels unlinked_project = []
  /\ map (field "labelId") (rows unlinked_project) = [VStr "L_k3x9q2a"]
  /\ deleteLabel "L_k3x9q2a" false side_project = Normal unlinked_project
  /\ (exists p,
        deleteLabel "L_k3x9q2a" true unlinked_project = Normal p /\ rows p = [])
  /\ (exists p,
        moveLabel sample_toFixed2 "L_k3x9q2a" sample_rect 60 35 unlinked_project
        = Normal p
        /\ map (field "position") (rows unlinked_project) = [VUndef]
        /\ map (field "position") (rows p) = [VStr "x=0.50,y=0.50"])
  /\ (exists p,
        loadProject (Text (JObj [("labels", JArr [JNull])])) side_project = Normal p
        /\ labels p = [VNull]
        /\ moveLabel sample_toFixed2 "L_0000000" sample_rect 60 35 p = Throw TypeError).
Proof.
  repeat split; try reflexivity; eexists; repeat split; reflexivity.
Qed.

(** C9, witness: an id that occurs nowhere in the sample project. *)
Lemma unknown_id_is_noop_witness :
  (forall rect cx cy,
     moveLabel sample_toFixed2 "L_0000000" rect cx cy sample_project
     = Normal sample_project)
  /\ (forall cascadeRows,
        deleteLabel "L_0000000" cascadeRows sample_project = Normal sample_project)
  /\ (forall patch, updateRow "L_0000000" patch sample_project = Normal sample_project).
Proof.
  destruct (unknown_id_is_noop sample_toFixed2 sample_project "L_0000000" eq_refl)
    as [M U].
  destruct (M eq_refl) as [Hm Hd]. split; [exact Hm|]. split; [exact Hd|].
  exact (U eq_refl).
Defined.

(** C10, witness: a file that says [schemaVersion: 7] opens as
    version 1. *)
Lemma loadProject_schemaVersion_witness :
  exists d,
    loadProject (Text (JObj [("schemaVersion", JNum 7)])) sample_project = Normal d
    /\ schemaVersion d = 1%float.
Proof.
  eexists. split; [reflexivity|].
  exact (loadProject_schemaVersion (Text (JObj [("schemaVersion", JNum 7)]))
           sample_project _ eq_refl).
Defined.

(** X2, witness: risks 3 and 12 under the default thresholds. *)
Lemma classify_monotone_witness :
  band_rank (classify (Some 3%float) defaultThresholds)
  <= band_rank (classify (Some 12%float) defaultThresholds).
Proof.
  apply classify_monotone. reflexivity.
Defined.

(** X3, witness: the risk of an infinite severity and probability zero. *)
Lemma nan_risk_is_high_witness :
  computeR sample_toString sample_toNumber (VNum infinity) (VNum 0) = Normal (Some nan)
  /\ riskBadgeClass (Some nan) defaultThresholds = badge_red
  /\ classify (Some nan) defaultThresholds = BandHigh.
Proof.
  split; [reflexivity|]. apply (nan_risk_is_high nan defaultThresholds). reflexivity.
Defined.


(** X5, witness: the sample marker dragged to two pointer positions. *)
Lemma last_move_wins_witness :
  exists p1,
    moveLabel sample_toFixed2 "L_k3x9q2a" sample_rect 60 35 sample_project = Normal p1
    /\ moveLabel sample_toFixed2 "L_k3x9q2a" sample_rect 20 20 p1
       = moveLabel sample_toFixed2 "L_k3x9q2a" sample_rect 20 20 sample_project.
Proof.
  exact (last_move_wins sample_toFixed2 "L_k3x9q2a" sample_rect sample_rect
           60 35 20 20 sample_project eq_refl).
Defined.

(** X6, witness: the sample marker deleted with its row. *)
Lemma cascade_delete_forgets_witness :
  exists p',
    deleteLabel "L_k3x9q2a" true sample_project = Normal p'
    /\ marker_unknown "L_k3x9q2a" p' = true
    /\ labels p'
       = filter (fun lb => negb (mentions "id" "L_k3x9q2a" lb)) (labels sample_project)
    /\ (forall rect cx cy,
          moveLabel sample_toFixed2 "L_k3x9q2a" rect cx cy p' = Normal p')
    /\ (forall cascadeRows, deleteLabel "L_k3x9q2a" cascadeRows p' = Normal p').
Proof.
  exact (cascade_delete_forgets sample_toFixed2 "L_k3x9q2a" sample_project eq_refl).
Defined.

(** X7, witness: the severity and then the probability of the sample
    row. *)
Lemma updateRow_patches_compose_witness :
  exists p1,
    updateRow "R_p7m1c4z" [("S", VStr "4")] sample_project = Normal p1
    /\ updateRow "R_p7m1c4z" [("P", VStr "3")] p1
       = updateRow "R_p7m1c4z" ([("S", VStr "4")] ++ [("P", VStr "3")]) sample_project.
Proof.
  exact (updateRow_patches_compose "R_p7m1c4z" [("S", VStr "4")] [("P", VStr "3")]
           sample_project eq_refl eq_refl).
Defined.

(** X8, witness: the severity of the sample row set to 4. *)
Lemma updateRow_edits_one_field_witness :
  exists p',
    updateRow "R_p7m1c4z" [("S", VStr "4")] sample_project = Normal p'
    /\ labels p' = labels sample_project
    /\ Forall2 (fun r r' =>
                  if mentions "id" "R_p7m1c4z" r
                  then field "S" r' = VStr "4"
                       /\ forall k', String.eqb k' "S" = false -> field k' r' = field k' r
                  else r' = r)
         (rows sample_project) (rows p').
Proof.
  exact (updateRow_edits_one_field "R_p7m1c4z" "S" (VStr "4") sample_project eq_refl).
Defined.


(** X12, witness: two drops with four distinct draws, a patch of the
    first row and the deletion of the second marker. *)
Lemma ids_stay_unique_witness :
  exists p,
    run sample_toFixed2
      [PlaceOnImage "Bruit" (Some sample_rect) 60 35 "k3x9q2a" "p7m1c4z";
       PlaceOffImage "Chute" "b8d0w5e" "t2h6n9s";
       UpdateRow "R_p7m1c4z" [("S", VStr "4")];
       DeleteMarker "L_b8d0w5e" false]
      (initialProject sample_clock) = Normal p
    /\ NoDup (ids (labels p)) /\ NoDup (ids (rows p)).
Proof.
  apply (ids_stay_unique sample_toFixed2
           [PlaceOnImage "Bruit" (Some sample_rect) 60 35 "k3x9q2a" "p7m1c4z";
            PlaceOffImage "Chute" "b8d0w5e" "t2h6n9s";
            UpdateRow "R_p7m1c4z" [("S", VStr "4")];
            DeleteMarker "L_b8d0w5e" false]
           sample_clock eq_refl);
    cbn; repeat constructor; cbn; intuition discriminate.
Defined.


(** X16, witness: the export of the scored project, whose scenario
    holds a comma and a line feed. *)
Lemma export_reads_back_witness :
  exists csv,
    onExportCsv sample_toString sample_digits scored_project = Normal csv
    /\ read_csv csv
       = Some [csv_headers;
               ["R_p7m1c4z"; "Écrasement"; ("doigt, main" ++ newline ++ "bras")%string;
                "3"; "4"; "12"; ""; ""; ""; ""; ""]].
Proof.
  destruct (export_reads_back sample_toString sample_digits scored_project
              eq_refl eq_refl) as (csv & texts & E & T & R & _).
  exists csv. split; [exact E|]. rewrite R.
  vm_compute in T. injection T as <-. reflexivity.
Defined.

(** X17, witness: the scored project with 99 and a text written over
    its row's stored risks. *)
Lemma export_recomputes_risk_witness :
  onExportCsv sample_toString sample_digits
    (updateRow_result "R_p7m1c4z" [("R", VNum 99); ("Rr", VStr "x")] scored_project)
  = onExportCsv sample_toString sample_digits scored_project.
Proof.
  exact (export_recomputes_risk sample_toString sample_digits scored_project
           (updateRow_result "R_p7m1c4z" [("R", VNum 99); ("Rr", VStr "x")]
              scored_project)
           (patched_risk_fields "R_p7m1c4z" (VNum 99) (VStr "x") (rows scored_project)
              eq_refl)).
Defined.

(** X18, witness: 3 and 4 entered in the sample row give the risk 12. *)
Lemma score_entry_computes_risk_witness :
  exists p1 p2,
    updateRow "R_p7m1c4z" [("S", scoreInput sample_digits "3")] sample_project
    = Normal p1
    /\ updateRow "R_p7m1c4z" [("P", scoreInput sample_digits "4")] p1 = Normal p2
    /\ Forall (fun r =>
                 mentions "id" "R_p7m1c4z" r = true ->
                 computeR sample_toString sample_digits (field "S" r) (field "P" r)
                 = Normal (Some 12%float)
                 /\ forall Rr,
                      computeR sample_toString sample_digits
                        (field "Sr" r) (field "Pr" r) = Normal Rr ->
                      exists row,
                        enrichRowComputed sample_toString sample_digits r = Normal row
                        /\ field "R" row = VNum 12
                        /\ field "Rr" row = optnum Rr)
         (rows p2).
Proof.
  exact (score_entry_computes_risk sample_toString sample_digits "R_p7m1c4z" "3" "4"
           sample_project eq_refl).
Defined.

(** X20, witness: the sample marker dragged. *)
Lemma export_ignores_moves_witness :
  exists p',
    moveLabel sample_toFixed2 "L_k3x9q2a" sample_rect 60 35 sample_project = Normal p'
    /\ onExportCsv sample_toString sample_digits p'
       = onExportCsv sample_toString sample_digits sample_project.
Proof.
  exact (export_ignores_moves sample_toString sample_toFixed2 sample_digits
           "L_k3x9q2a" sample_rect 60 35 sample_project eq_refl).
Defined.

(** C3, counterexample: a file brings a row whose severity is an
    object with a [toString] property of its own, and whose probability
    is 4. The severity is not empty and is no number, yet the risk is
    not "not computable": computing it throws, and so does building the
    row the table shows. *)
Lemma computeR_throws_on_own_toString :
  exists p,
    loadProject
      (Text (JObj [("rows",
                    JArr [JObj [("id", JStr "R_1");
                                ("S", JObj [("toString", JNum 1)]);
                                ("P", JNum 4)]])]))
      (initialProject sample_clock) = Normal p
    /\ map (field "S") (rows p) = [VObj [("toString", VNum 1)]]
    /\ map (field "P") (rows p) = [VNum 4]
    /\ map (fun r => blank (field "S" r)) (rows p) = [false]
    /\ map (fun r => computeR sample_toString sample_toNumber (field "S" r) (field "P" r))
         (rows p)
       = [Throw TypeError]
    /\ map (enrichRowComputed sample_toString sample_toNumber) (rows p)
       = [Throw TypeError].
Proof.
  eexists. split; [reflexivity|]. repeat split; reflexivity.
Qed.

(** A row that a file brings with such an object as its hazard text:
    opening accepts it, [String] of the field throws and so does the
    export of the project. *)
Example export_throws_on_own_toString :
  exists p,
    loadProject
      (Text (JObj [("rows",
                    JArr [JObj [("id", JStr "R_1");
                                ("danger", JObj [("toString", JNum 1)])]])]))
      (initialProject sample_clock) = Normal p
    /\ forallb is_record (rows p) = true
    /\ forallb printable_row (rows p) = false
    /\ map (fun r => ToString sample_toString (field "danger" r)) (rows p)
       = [Throw TypeError]
    /\ onExportCsv sample_toString sample_toNumber p = Throw TypeError.
Proof.
  eexists. split; [reflexivity|]. repeat split; reflexivity.
Qed.
